(** * The monitor action of the integration controller

    A shallow embedding of [pkg/controller/integration/monitor.go]:
    [CanHandle], [Handle] and [findHighestPriorityReadyKit], together
    with the properties the controller's specification states about
    them.

    The action mutates the [*v1.Integration] it is given and talks to
    the cluster and to other packages of the operator.  The embedding
    keeps both visible: [Handle] runs in a small state-and-error monad
    whose state is the integration object behind the pointer and the
    ordered list of calls made to collaborators, and a failing step
    leaves every earlier mutation of that object in place, as the Go
    code does. *)

From Stdlib Require Import ZArith String Ascii List Bool Lia.
From stdpp Require Import base decidable option gmap strings.
Import ListNotations.

Local Open Scope string_scope.
Local Open Scope list_scope.
Local Open Scope Z_scope.

(** ** Time

    [metav1.Time] values are only tested with [IsZero] and subtracted
    with [Sub]; both belong to Go's standard library and are kept
    abstract. *)

Class TimeModel := {
  Time : Type;
  Duration : Type;
  IsZero : Time -> bool;
  Sub : Time -> Time -> Duration
}.

(** ** Errors *)

Inductive NumErrKind := ErrSyntax | ErrRange.

(** The [error] values that travel through the action.  [Errorf] and
    [Wrapf] are those of [github.com/pkg/errors] and keep the format
    and its string arguments; [NumError] is [*strconv.NumError];
    [ExternalError] is any error produced by a collaborator. *)
Inductive Error :=
| Errorf (format : string) (args : list string)
| Wrapf (cause : Error) (format : string) (args : list string)
| NumError (fn num : string) (kind : NumErrKind)
| ExternalError (msg : string).

(** ** [strconv.Atoi]

    Go's [int] is taken to be 64 bits wide.  The unsigned magnitude is
    accumulated digit by digit, an invalid byte is a syntax error, a
    magnitude that leaves [uint64] is a range error at the digit where
    it happens, and the signed result must fit [int64]. *)

Definition maxUint64 : Z := 2 ^ 64 - 1.
Definition minInt64 : Z := - 2 ^ 63.
Definition maxInt64 : Z := 2 ^ 63 - 1.

Definition digitOf (c : ascii) : option Z :=
  let n := Z.of_N (N_of_ascii c) in
  if (48 <=? n) && (n <=? 57) then Some (n - 48) else None.

Fixpoint parseDigits (n : Z) (s : string) : NumErrKind + Z :=
  match s with
  | EmptyString => inr n
  | String c rest =>
      match digitOf c with
      | None => inl ErrSyntax
      | Some d =>
          let n1 := n * 10 + d in
          if maxUint64 <? n1 then inl ErrRange else parseDigits n1 rest
      end
  end.

Definition isMinus (c : ascii) : bool := Ascii.eqb c "-"%char.
Definition isPlus (c : ascii) : bool := Ascii.eqb c "+"%char.

Definition Atoi (s : string) : Error + Z :=
  match s with
  | EmptyString => inl (NumError "Atoi" s ErrSyntax)
  | String c rest =>
      let body := if isMinus c || isPlus c then rest else s in
      match body with
      | EmptyString => inl (NumError "Atoi" s ErrSyntax)
      | _ =>
          match parseDigits 0 body with
          | inl k => inl (NumError "Atoi" s k)
          | inr un =>
              if isMinus c then
                if 2 ^ 63 <? un then inl (NumError "Atoi" s ErrRange)
                else inr (- un)
              else
                if 2 ^ 63 <=? un then inl (NumError "Atoi" s ErrRange)
                else inr un
          end
      end
  end.

(** The value begins with a minus sign.  The value of a Kubernetes
    label begins with a letter or a digit, and
    [labels.NewRequirement], which line 88 calls with the priority of
    the bound kit, returns an error for any other value. *)
Definition startsWithMinus (s : string) : bool :=
  match s with
  | EmptyString => false
  | String c _ => isMinus c
  end.

(** ** The API types

    The declarations live in [pkg/apis/camel/v1] and in the Kubernetes
    API packages; the records below carry the fields the action reads
    or writes.  String-typed enumerations become inductive types with
    the constants the action names and one constructor for every other
    value. *)

Inductive IntegrationPhase :=
| IntegrationPhaseNone
| IntegrationPhaseInitialization
| IntegrationPhaseDeploying
| IntegrationPhaseRunning
| IntegrationPhaseError
| IntegrationPhaseOther (name : string).

Inductive IntegrationKitPhase :=
| IntegrationKitPhaseReady
| IntegrationKitPhaseOther (name : string).

Inductive ConditionStatus := ConditionTrue | ConditionFalse | ConditionUnknown.

Inductive IntegrationConditionType :=
| IntegrationConditionReady
| IntegrationConditionDeploymentAvailable
| IntegrationConditionOther (name : string).

Inductive DeploymentConditionType :=
| DeploymentAvailable
| DeploymentProgressing
| DeploymentReplicaFailure.

Inductive PodPhase := PodPending | PodRunning.

#[global] Instance IntegrationPhase_eq_dec : EqDecision IntegrationPhase.
Proof. solve_decision. Defined.
#[global] Instance IntegrationKitPhase_eq_dec : EqDecision IntegrationKitPhase.
Proof. solve_decision. Defined.
#[global] Instance ConditionStatus_eq_dec : EqDecision ConditionStatus.
Proof. solve_decision. Defined.
#[global] Instance IntegrationConditionType_eq_dec :
  EqDecision IntegrationConditionType.
Proof. solve_decision. Defined.
#[global] Instance DeploymentConditionType_eq_dec :
  EqDecision DeploymentConditionType.
Proof. solve_decision. Defined.

Record ObjectReference := {
  refNamespace : string;
  refName : string
}.

Record IntegrationKit := {
  kitNamespace : string;
  kitName : string;
  kitLabels : gmap string string;
  kitPhase : IntegrationKitPhase
}.

Record DeploymentCondition := {
  dcType : DeploymentConditionType;
  dcStatus : ConditionStatus;
  dcReason : string
}.

Record Deployment := {
  depConditions : list DeploymentCondition;
  depAvailableReplicas : Z
}.

(** Constants of [pkg/apis/camel/v1] whose values are not part of the
    sources at hand. *)
Class ApiConstants := {
  IntegrationLabel : string;
  IntegrationKitPriorityLabel : string;
  IntegrationConditionErrorReason : string;
  IntegrationConditionReplicaSetReadyReason : string
}.

(** ** [findHighestPriorityReadyKit] *)

Section Selection.
Context `{ApiConstants}.

(** [k.Labels[v1.IntegrationKitPriorityLabel]]: a missing key reads
    as the empty string. *)
Definition priorityLabel (k : IntegrationKit) : string :=
  default "" (kitLabels k !! IntegrationKitPriorityLabel).

Definition kitReady (k : IntegrationKit) : bool :=
  bool_decide (kitPhase k = IntegrationKitPhaseReady).

(** The loop of [findHighestPriorityReadyKit], started with the
    values [kit] and [priority] hold at that point. *)
Fixpoint findHighestLoop (kits : list IntegrationKit)
    (kit : option IntegrationKit) (priority : Z)
    : Error + option IntegrationKit :=
  match kits with
  | [] => inr kit
  | k :: rest =>
      if negb (kitReady k) then findHighestLoop rest kit priority
      else
        match Atoi (priorityLabel k) with
        | inl err => inl err
        | inr p =>
            if priority <? p then findHighestLoop rest (Some k) p
            else findHighestLoop rest kit priority
        end
  end.

Definition findHighestPriorityReadyKit (kits : list IntegrationKit)
    : Error + option IntegrationKit :=
  match kits with
  | [] => inr None
  | _ => findHighestLoop kits None 0
  end.
End Selection.

(** ** The workload and what is observed around it *)

Section Types.
Context `{TimeModel}.

Record Pod := {
  podName : string;
  podDeletionTimestamp : option Time
}.

(** [v1.IntegrationCondition]; an unset time is [None]. *)
Record IntegrationCondition := {
  condType : IntegrationConditionType;
  condStatus : ConditionStatus;
  condReason : string;
  condMessage : string;
  condLastTransitionTime : option Time;
  condFirstTruthyTime : option Time
}.

(** [v1.IntegrationStatus]; [stReplicas] is the [*int32], kept as the
    integer it points to. *)
Record IntegrationStatus := {
  stPhase : IntegrationPhase;
  stDigest : string;
  stIntegrationKit : option ObjectReference;
  stSelector : string;
  stReplicas : option Z;
  stConditions : list IntegrationCondition;
  stInitializationTimestamp : Time
}.

(** [v1.Integration]; [intSpec] stands for the desired-state part,
    which the action only hands to the digest. *)
Record Integration := {
  intNamespace : string;
  intName : string;
  intSpec : string;
  intStatus : IntegrationStatus
}.

(** [labels.Requirement], built with operator [selection.GreaterThan]. *)
Record Requirement := {
  reqKey : string;
  reqGreaterThan : string
}.

(** One entry per call that leaves the action: to the cluster client,
    to another package of the operator, to the logger or to the
    metric. *)
Inductive Event :=
| EvComputeForIntegration
| EvInfo (msg : string)
| EvInitialize
| EvGetIntegrationKit (name namespace : string)
| EvNewRequirement (key value : string)
| EvLookupKits (selector : list Requirement)
| EvSetIntegrationKit (kit : IntegrationKit)
| EvTraitApply (integration : Integration) (kit : IntegrationKit)
| EvListPods (namespace name : string) (phase : PodPhase)
| EvMirrorReadyCondition
| EvInfof (format : string) (d : Duration)
| EvObserve (d : Duration)
| EvGetDeployment (name namespace : string).

(** The object behind the [integration] pointer and the calls made so
    far. *)
Record State := {
  integration : Integration;
  trace : list Event
}.

(** *** Field updates *)

Definition setPhase (p : IntegrationPhase) (st : IntegrationStatus) :=
  {| stPhase := p; stDigest := stDigest st;
     stIntegrationKit := stIntegrationKit st; stSelector := stSelector st;
     stReplicas := stReplicas st; stConditions := stConditions st;
     stInitializationTimestamp := stInitializationTimestamp st |}.

Definition setDigest (d : string) (st : IntegrationStatus) :=
  {| stPhase := stPhase st; stDigest := d;
     stIntegrationKit := stIntegrationKit st; stSelector := stSelector st;
     stReplicas := stReplicas st; stConditions := stConditions st;
     stInitializationTimestamp := stInitializationTimestamp st |}.

Definition setKitReference (r : option ObjectReference)
    (st : IntegrationStatus) :=
  {| stPhase := stPhase st; stDigest := stDigest st;
     stIntegrationKit := r; stSelector := stSelector st;
     stReplicas := stReplicas st; stConditions := stConditions st;
     stInitializationTimestamp := stInitializationTimestamp st |}.

Definition setSelector (s : string) (st : IntegrationStatus) :=
  {| stPhase := stPhase st; stDigest := stDigest st;
     stIntegrationKit := stIntegrationKit st; stSelector := s;
     stReplicas := stReplicas st; stConditions := stConditions st;
     stInitializationTimestamp := stInitializationTimestamp st |}.

Definition setReplicas (n : option Z) (st : IntegrationStatus) :=
  {| stPhase := stPhase st; stDigest := stDigest st;
     stIntegrationKit := stIntegrationKit st; stSelector := stSelector st;
     stReplicas := n; stConditions := stConditions st;
     stInitializationTimestamp := stInitializationTimestamp st |}.

Definition setConditionList (cs : list IntegrationCondition)
    (st : IntegrationStatus) :=
  {| stPhase := stPhase st; stDigest := stDigest st;
     stIntegrationKit := stIntegrationKit st; stSelector := stSelector st;
     stReplicas := stReplicas st; stConditions := cs;
     stInitializationTimestamp := stInitializationTimestamp st |}.

Definition updStatus (f : IntegrationStatus -> IntegrationStatus)
    (i : Integration) : Integration :=
  {| intNamespace := intNamespace i; intName := intName i;
     intSpec := intSpec i; intStatus := f (intStatus i) |}.

(** *** Conditions *)

(** [t == nil || t.IsZero()], negated. *)
Definition timeSet (t : option Time) : bool :=
  match t with
  | Some u => negb (IsZero u)
  | None => false
  end.

Fixpoint findCondition (cs : list IntegrationCondition)
    (ty : IntegrationConditionType) : option IntegrationCondition :=
  match cs with
  | [] => None
  | c :: rest =>
      if decide (condType c = ty) then Some c else findCondition rest ty
  end.

(** Modelled from the spec: [IntegrationStatus.GetCondition] is
    declared in [pkg/apis/camel/v1], outside the sources at hand.
    The conditions are an ordered set of named conditions; the lookup
    is by type and hands back a snapshot of the entry, [None] for
    Go's [nil]. *)
Definition GetCondition (st : IntegrationStatus)
    (ty : IntegrationConditionType) : option IntegrationCondition :=
  findCondition (stConditions st) ty.

(** Modelled from the spec: [kubernetes.IsConditionTrue] is declared
    in [pkg/util/kubernetes], outside the sources at hand: the named
    condition is currently True. *)
Definition IsConditionTrue (i : Integration)
    (ty : IntegrationConditionType) : bool :=
  match GetCondition (intStatus i) ty with
  | Some c => bool_decide (condStatus c = ConditionTrue)
  | None => false
  end.

Fixpoint upsertCondition (c : IntegrationCondition)
    (cs : list IntegrationCondition) : list IntegrationCondition :=
  match cs with
  | [] => [c]
  | x :: rest =>
      if decide (condType x = condType c) then c :: rest
      else x :: upsertCondition c rest
  end.

(** Modelled from the spec: [IntegrationStatus.SetConditions] is
    declared in [pkg/apis/camel/v1], outside the sources at hand.  It
    upserts by type, updating status, reason, message and
    lastTransitionTime; firstTruthyTime is set once, on the
    transition into True, and never overwritten afterwards.  [now] is
    the clock reading of the call. *)
Definition SetCondition (now : Time) (st : IntegrationStatus)
    (c : IntegrationCondition) : IntegrationStatus :=
  let current := GetCondition st (condType c) in
  let transition :=
    match current with
    | Some old =>
        if decide (condStatus old = condStatus c)
        then condLastTransitionTime old else Some now
    | None => Some now
    end in
  let given :=
    if timeSet (condFirstTruthyTime c) then condFirstTruthyTime c
    else if decide (condStatus c = ConditionTrue) then Some now
    else condFirstTruthyTime c in
  let truthy :=
    match current with
    | Some old =>
        if timeSet (condFirstTruthyTime old) then condFirstTruthyTime old
        else given
    | None => given
    end in
  setConditionList
    (upsertCondition
       {| condType := condType c; condStatus := condStatus c;
          condReason := condReason c; condMessage := condMessage c;
          condLastTransitionTime := transition;
          condFirstTruthyTime := truthy |}
       (stConditions st))
    st.

Definition SetConditions (now : Time) (st : IntegrationStatus)
    (cs : list IntegrationCondition) : IntegrationStatus :=
  fold_left (SetCondition now) cs st.

(** Modelled from the spec: [Integration.SetIntegrationKit] is
    declared in [pkg/apis/camel/v1], outside the sources at hand: the
    workload's bound Kit reference is updated to point to the Kit. *)
Definition SetIntegrationKit (i : Integration) (kit : IntegrationKit)
    : Integration :=
  updStatus
    (setKitReference
       (Some {| refNamespace := kitNamespace kit; refName := kitName kit |}))
    i.

(** *** Replica count *)

(** Conversion of a Go [int] to [int32]: the low 32 bits, read as a
    signed number. *)
Definition int32 (z : Z) : Z := (z + 2 ^ 31) mod 2 ^ 32 - 2 ^ 31.

(** The loop over [runningPods.Items], started with the value
    [nonTerminatingPods] holds at that point. *)
Fixpoint nonTerminatingLoop (pods : list Pod) (nonTerminatingPods : Z) : Z :=
  match pods with
  | [] => nonTerminatingPods
  | pod :: rest =>
      match podDeletionTimestamp pod with
      | Some _ => nonTerminatingLoop rest nonTerminatingPods
      | None => nonTerminatingLoop rest (nonTerminatingPods + 1)
      end
  end.

(** [podCount := int32(len(pendingPods.Items) + nonTerminatingPods)] *)
Definition podCount (pendingPods runningPods : list Pod) : Z :=
  int32 (Z.of_nat (length pendingPods) + nonTerminatingLoop runningPods 0).

(** *** Kinds of calls *)

Definition isObserve (e : Event) : bool :=
  match e with
  | EvObserve _ => true
  | _ => false
  end.

(** Number of time-to-first-readiness observations among [calls]. *)
Definition observations (calls : list Event) : nat :=
  length (List.filter isObserve calls).

Definition isTraitApply (e : Event) : bool :=
  match e with
  | EvTraitApply _ _ => true
  | _ => false
  end.

(** Only [applyTraits] calls the trait subsystem. *)
Definition notTraitApply (e : Event) : Prop := isTraitApply e = false.

(** Only [mirrorReadiness] observes the metric. *)
Definition notObserve (e : Event) : Prop := isObserve e = false.

(** A call that is neither to the trait subsystem nor to the metric. *)
Definition quiet (e : Event) : Prop := notTraitApply e /\ notObserve e.
End Types.

(** ** Collaborators

    What [Handle] calls outside its own file: the digest, the
    re-initializer, the cluster client and its helpers, the label
    selector library, the trait subsystem and the clock.  Each is a
    function of its arguments for the duration of one pass.
    [trait_Apply] and [Initialize] may rewrite the integration they are
    given; [MirrorReadyCondition] rewrites its conditions. *)
Class Collaborators `{TimeModel} := {
  ComputeForIntegration : Integration -> Error + string;
  Initialize : Integration -> Integration;
  GetIntegrationKit : string -> string -> Error + IntegrationKit;
  NewRequirement : string -> string -> Error + Requirement;
  lookupKitsForIntegration :
    Integration -> list Requirement -> Error + list IntegrationKit;
  trait_Apply : Integration -> IntegrationKit -> Integration * option Error;
  ListPods : string -> string -> PodPhase -> Error + list Pod;
  MirrorReadyCondition : Integration -> list IntegrationCondition;
  GetDeployment : string -> string -> Error + Deployment;
  Now : Time
}.

Declare Scope monitor_scope.
Delimit Scope monitor_scope with monitor.

Section Monitor.
Context `{TM : TimeModel} `{AC : ApiConstants} `{CO : !Collaborators}.

(** *** The monad of the action *)

Definition M (A : Type) : Type := State -> (Error + A) * State.

Definition ret {A} (a : A) : M A := fun s => (inr a, s).

Definition throw {A} (e : Error) : M A := fun s => (inl e, s).

Definition bind {A B} (m : M A) (k : A -> M B) : M B :=
  fun s =>
    match m s with
    | (inr a, s') => k a s'
    | (inl e, s') => (inl e, s')
    end.

Local Notation "x <- c1 ;; c2" := (bind c1 (fun x => c2))
  (at level 100, c1 at next level, right associativity) : monitor_scope.
Local Notation "c1 ;; c2" := (bind c1 (fun _ => c2))
  (at level 100, right associativity) : monitor_scope.
Local Open Scope monitor_scope.

Definition getIntegration : M Integration :=
  fun s => (inr (integration s), s).

Definition modify (f : Integration -> Integration) : M unit :=
  fun s => (inr tt, {| integration := f (integration s); trace := trace s |}).

Definition emit (e : Event) : M unit :=
  fun s => (inr tt, {| integration := integration s;
                       trace := trace s ++ [e] |}).

(** Result of a call: [return nil, err] on an error. *)
Definition try {A} (r : Error + A) : M A :=
  match r with
  | inl e => throw e
  | inr a => ret a
  end.

(** *** [CanHandle] *)

Definition CanHandle (i : Integration) : bool :=
  bool_decide (stPhase (intStatus i) = IntegrationPhaseDeploying)
  || bool_decide (stPhase (intStatus i) = IntegrationPhaseRunning)
  || bool_decide (stPhase (intStatus i) = IntegrationPhaseError).

(** *** [Handle], lines 63 to 76: the integration requires a rebuild *)

Definition rebuild (hash : string) : M Integration :=
  emit (EvInfo "Integration needs a rebuild") ;;
  emit EvInitialize ;;
  modify Initialize ;;
  modify (updStatus (setDigest hash)) ;;
  getIntegration.

(** *** Lines 78 to 104: the kit and a ready kit of higher priority *)

Definition resolveKit (ref : ObjectReference) : M IntegrationKit :=
  emit (EvGetIntegrationKit (refName ref) (refNamespace ref)) ;;
  match GetIntegrationKit (refName ref) (refNamespace ref) with
  | inl err =>
      throw (Wrapf err "unable to find integration kit %s/%s, %s"
               [refNamespace ref; refName ref])
  | inr kit => ret kit
  end.

Definition upgradeKit (kit : IntegrationKit) : M unit :=
  let priority :=
    default "0" (kitLabels kit !! IntegrationKitPriorityLabel) in
  emit (EvNewRequirement IntegrationKitPriorityLabel priority) ;;
  withHigherPriority <-
    try (NewRequirement IntegrationKitPriorityLabel priority) ;;
  i <- getIntegration ;;
  emit (EvLookupKits [withHigherPriority]) ;;
  kits <- try (lookupKitsForIntegration i [withHigherPriority]) ;;
  priorityReadyKit <- try (findHighestPriorityReadyKit kits) ;;
  match priorityReadyKit with
  | Some k =>
      emit (EvSetIntegrationKit k) ;;
      modify (fun i => SetIntegrationKit i k)
  | None => ret tt
  end.

(** *** Lines 106 to 110: the traits enabled for the phase *)

Definition applyTraits (kit : IntegrationKit) : M unit :=
  i <- getIntegration ;;
  emit (EvTraitApply i kit) ;;
  modify (fun i => fst (trait_Apply i kit)) ;;
  match snd (trait_Apply i kit) with
  | Some err => throw err
  | None => ret tt
  end.

(** *** Lines 112 to 115: the scale sub-resource label selector *)

Definition publishSelector : M unit :=
  modify (fun i =>
    updStatus (setSelector (IntegrationLabel +:+ "=" +:+ intName i)) i).

(** *** Lines 117 to 142: the replicas count *)

Definition listPods (phase : PodPhase) : M (list Pod) :=
  i <- getIntegration ;;
  emit (EvListPods (intNamespace i) (intName i) phase) ;;
  try (ListPods (intNamespace i) (intName i) phase).

Definition updateReplicas : M unit :=
  pendingPods <- listPods PodPending ;;
  runningPods <- listPods PodRunning ;;
  modify (updStatus (setReplicas (Some (podCount pendingPods runningPods)))).

(** *** Lines 144 to 147: the integration phase *)

Definition reconcilePhase : M unit :=
  i <- getIntegration ;;
  if decide (stPhase (intStatus i) = IntegrationPhaseDeploying)
  then modify (updStatus (setPhase IntegrationPhaseRunning))
  else ret tt.

(** *** Lines 149 to 160: the ready condition and the metric *)

(** The condition of the [if] at line 154. *)
Definition firstReadiness (previous next : option IntegrationCondition)
    : option Time :=
  let neverTrue :=
    match previous with
    | None => true
    | Some p => negb (timeSet (condFirstTruthyTime p))
    end in
  match next with
  | Some n =>
      if neverTrue && bool_decide (condStatus n = ConditionTrue)
         && timeSet (condFirstTruthyTime n)
      then condFirstTruthyTime n else None
  | None => None
  end.

Definition mirrorReadiness : M unit :=
  i <- getIntegration ;;
  let previous := GetCondition (intStatus i) IntegrationConditionReady in
  emit EvMirrorReadyCondition ;;
  modify (fun i => updStatus (setConditionList (MirrorReadyCondition i)) i) ;;
  i <- getIntegration ;;
  let next := GetCondition (intStatus i) IntegrationConditionReady in
  match firstReadiness previous next with
  | Some firstTruthyTime =>
      let duration :=
        Sub firstTruthyTime (stInitializationTimestamp (intStatus i)) in
      emit (EvInfof "First readiness after %s" duration) ;;
      emit (EvObserve duration)
  | None => ret tt
  end.

(** *** Lines 162 to 224: the deployment behind a running integration *)

(** The loop of [case v1.IntegrationPhaseRunning], started with the
    values the two flags hold at that point. *)
Fixpoint runningLoop (cs : list DeploymentCondition) (availableReplicas : Z)
    (deployUnavailable progressingFailing : bool) : bool * bool :=
  match cs with
  | [] => (deployUnavailable, progressingFailing)
  | c :: rest =>
      let deployUnavailable :=
        if decide (dcType c = DeploymentAvailable)
        then bool_decide (dcStatus c = ConditionFalse)
        else deployUnavailable in
      let progressingFailing :=
        if decide (dcType c = DeploymentProgressing)
        then bool_decide (dcStatus c = ConditionTrue)
             && String.eqb (dcReason c) "NewReplicaSetAvailable"
             && (availableReplicas <? 1)
        else progressingFailing in
      runningLoop rest availableReplicas deployUnavailable progressingFailing
  end.

(** The loop of [case v1.IntegrationPhaseError]. *)
Fixpoint errorLoop (cs : list DeploymentCondition)
    (deployAvailable progressingOk : bool) : bool * bool :=
  match cs with
  | [] => (deployAvailable, progressingOk)
  | c :: rest =>
      let deployAvailable :=
        if decide (dcType c = DeploymentAvailable)
        then bool_decide (dcStatus c = ConditionTrue)
        else deployAvailable in
      let progressingOk :=
        if decide (dcType c = DeploymentProgressing)
        then bool_decide (dcStatus c = ConditionTrue)
             && (String.eqb (dcReason c) "NewReplicaSetAvailable"
                 || String.eqb (dcReason c) "ReplicaSetUpdated")
        else progressingOk in
      errorLoop rest deployAvailable progressingOk
  end.

Definition notAvailableCondition : IntegrationCondition :=
  {| condType := IntegrationConditionReady;
     condStatus := ConditionFalse;
     condReason := IntegrationConditionErrorReason;
     condMessage :=
       "The corresponding pod(s) may be in error state, look at the pod status or log for errors";
     condLastTransitionTime := None;
     condFirstTruthyTime := None |}.

Definition availableCondition : IntegrationCondition :=
  {| condType := IntegrationConditionReady;
     condStatus := ConditionTrue;
     condReason := IntegrationConditionReplicaSetReadyReason;
     condMessage := "";
     condLastTransitionTime := None;
     condFirstTruthyTime := None |}.

Definition checkDeployment : M Integration :=
  i <- getIntegration ;;
  if IsConditionTrue i IntegrationConditionDeploymentAvailable then
    emit (EvGetDeployment (intName i) (intNamespace i)) ;;
    deployment <- try (GetDeployment (intName i) (intNamespace i)) ;;
    match stPhase (intStatus i) with
    | IntegrationPhaseRunning =>
        let '(deployUnavailable, progressingFailing) :=
          runningLoop (depConditions deployment)
            (depAvailableReplicas deployment) false false in
        if deployUnavailable && progressingFailing then
          modify (updStatus (fun st =>
            SetConditions Now st [notAvailableCondition])) ;;
          modify (updStatus (setPhase IntegrationPhaseError)) ;;
          getIntegration
        else getIntegration
    | IntegrationPhaseError =>
        let '(deployAvailable, progressingOk) :=
          errorLoop (depConditions deployment) false false in
        if deployAvailable && progressingOk then
          modify (updStatus (fun st =>
            SetConditions Now st [availableCondition])) ;;
          modify (updStatus (setPhase IntegrationPhaseRunning)) ;;
          getIntegration
        else getIntegration
    | _ => getIntegration
    end
  else getIntegration.

(** *** [Handle] *)

(** Lines 78 to 147, once the digest is found unchanged. *)
Definition syncStatus (ref : ObjectReference) : M unit :=
  kit <- resolveKit ref ;;
  upgradeKit kit ;;
  applyTraits kit ;;
  publishSelector ;;
  updateReplicas ;;
  reconcilePhase.

Definition Handle : M Integration :=
  i <- getIntegration ;;
  match stIntegrationKit (intStatus i) with
  | None => throw (Errorf "no kit set on integration %s" [intName i])
  | Some ref =>
      emit EvComputeForIntegration ;;
      hash <- try (ComputeForIntegration i) ;;
      if negb (String.eqb hash (stDigest (intStatus i))) then rebuild hash
      else
        syncStatus ref ;;
        mirrorReadiness ;;
        checkDeployment
  end.

(** A pass entered with the workload [i]: the result, the workload
    object as the pass leaves it, and the calls made. *)
Definition run {A} (m : M A) (i : Integration) : (Error + A) * State :=
  m {| integration := i; trace := [] |}.

(** A pass entered with [i] finds a bound kit and an unchanged digest
    and gets through lines 78 to 147 without an error, which leaves
    it in state [s] in front of line 149. *)
Definition reachesMirroring (i : Integration) (s : State) : Prop :=
  exists ref,
    stIntegrationKit (intStatus i) = Some ref
    /\ ComputeForIntegration i = inr (stDigest (intStatus i))
    /\ syncStatus ref {| integration := i;
                         trace := [EvComputeForIntegration] |}
       = (inr tt, s).

(** The pass gets on to line 162 in state [s]. *)
Definition reachesDeploymentCheck (i : Integration) (s : State) : Prop :=
  exists s1, reachesMirroring i s1 /\ mirrorReadiness s1 = (inr tt, s).

(** Whatever [m] does, the calls made before it stay in the trace and
    the calls it adds all satisfy [P]. *)
Definition appends {A} (P : Event -> Prop) (m : M A) : Prop :=
  forall s, exists calls,
    trace (snd (m s)) = trace s ++ calls /\ Forall P calls.

(** The Ready condition carries a first-truthy time. *)
Definition readyAnchored (i : Integration) : bool :=
  match GetCondition (intStatus i) IntegrationConditionReady with
  | Some c => timeSet (condFirstTruthyTime c)
  | None => false
  end.

(** Entered with a first-truthy time on the Ready condition, [m]
    leaves one there and adds no observation of the metric. *)
Definition calm {A} (m : M A) : Prop :=
  forall s,
    readyAnchored (integration s) = true ->
    readyAnchored (integration (snd (m s))) = true
    /\ exists calls,
         trace (snd (m s)) = trace s ++ calls /\ Forall notObserve calls.

(** The Ready condition was never true before: it is absent, or its
    first-truthy time is unset. *)
Definition neverTruthy (previous : option IntegrationCondition) : Prop :=
  previous = None
  \/ exists p, previous = Some p /\ timeSet (condFirstTruthyTime p) = false.

(** The Ready condition is True with its first-truthy time set to
    [t]. *)
Definition truthyAt (next : option IntegrationCondition) (t : Time)
    : Prop :=
  exists n,
    next = Some n
    /\ condStatus n = ConditionTrue
    /\ condFirstTruthyTime n = Some t
    /\ IsZero t = false.

(** [m] leaves the replica count of the workload alone. *)
Definition keepsReplicas {A} (m : M A) : Prop :=
  forall s,
    stReplicas (intStatus (integration (snd (m s))))
    = stReplicas (intStatus (integration s)).
End Monitor.

Arguments M {_} A.

(** ** Passes over a lifetime *)

Section Driver.
Context `{TM : TimeModel} `{AC : ApiConstants}.

(** Modelled from the spec: the reconciliation driver is declared in
    [pkg/controller/integration], outside the sources at hand.  It
    invokes the action on a workload whose phase the action can
    handle; a pass that returns a workload has it persisted, a pass
    that returns an error terminates without a status update and the
    previous status remains until a future pass succeeds.  The result
    is the stored workload after the pass and the calls the pass
    made. *)
Definition reconcile (CO : Collaborators) (stored : Integration)
    : Integration * list Event :=
  if CanHandle stored then
    match run Handle stored with
    | (inr updated, s) => (updated, trace s)
    | (inl _, s) => (stored, trace s)
    end
  else (stored, []).

(** Successive passes, each against the cluster as it is then; the
    result lists the calls of every pass. *)
Fixpoint lifetime (passes : list Collaborators) (stored : Integration)
    : list (list Event) :=
  match passes with
  | [] => []
  | CO :: rest =>
      let '(stored', calls) := reconcile CO stored in
      calls :: lifetime rest stored'
  end.

(** No collaborator of the pass clears a first-truthy time of the
    Ready condition: neither the re-initializer, nor the traits, nor
    the mirroring of the owned resource's readiness. *)
Definition keepsAnchor (CO : Collaborators) : Prop :=
  (forall i, readyAnchored i = true -> readyAnchored (Initialize i) = true)
  /\ (forall i k, readyAnchored i = true ->
                  readyAnchored (fst (trait_Apply i k)) = true)
  /\ (forall i, readyAnchored i = true ->
                readyAnchored
                  (updStatus (setConditionList (MirrorReadyCondition i)) i)
                = true).

(** The pods of a list that are not being deleted. *)
Definition nonTerminating (pods : list Pod) : list Pod :=
  List.filter
    (fun pod => match podDeletionTimestamp pod with
                | Some _ => false
                | None => true
                end)
    pods.
End Driver.

(** ** What a deployment reports *)

(** The deployment reports a condition of type [ty], and every
    condition of that type it reports satisfies [P]. *)
Definition reports (d : Deployment) (ty : DeploymentConditionType)
    (P : DeploymentCondition -> Prop) : Prop :=
  (exists c, In c (depConditions d) /\ dcType c = ty)
  /\ forall c, In c (depConditions d) -> dcType c = ty -> P c.

(** Some condition in [cs] has type [ty]. *)
Definition hasType (ty : DeploymentConditionType)
    (cs : list DeploymentCondition) : bool :=
  existsb (fun c => bool_decide (dcType c = ty)) cs.

(** ** Shapes of a pass *)

Section PassShape.
Context `{TM : TimeModel} `{AC : ApiConstants} `{CO : !Collaborators}.

Definition isInitialize (e : Event) : bool :=
  match e with
  | EvInitialize => true
  | _ => false
  end.

(** Only the rebuild of lines 69 to 76 re-initializes the workload. *)
Definition notInitialize (e : Event) : Prop := isInitialize e = false.

(** [m] leaves what [f] reads of the workload alone. *)
Definition keeps {A B} (f : Integration -> B) (m : M A) : Prop :=
  forall s, f (integration (snd (m s))) = f (integration s).

(** Every error [m] returns satisfies [P]. *)
Definition raises {A} (P : Error -> Prop) (m : M A) : Prop :=
  forall s e s', m s = (inl e, s') -> P e.

(** The error [e] is the answer to the call [call] of a pass over the
    workload [w]: the error the collaborator returns for the
    arguments of the call; for the lookup of the bound kit that error
    wrapped as line 80 wraps it; for a lookup of the candidates that
    succeeds the error of the selection over the candidates it
    returned.  The digest and the candidates are those of [w]. *)
Definition failureOf (w : Integration) (call : Event) (e : Error) : Prop :=
  match call with
  | EvComputeForIntegration => ComputeForIntegration w = inl e
  | EvGetIntegrationKit name namespace =>
      exists cause,
        GetIntegrationKit name namespace = inl cause
        /\ e = Wrapf cause "unable to find integration kit %s/%s, %s"
                 [namespace; name]
  | EvNewRequirement key value => NewRequirement key value = inl e
  | EvLookupKits selector =>
      match lookupKitsForIntegration w selector with
      | inl err => err = e
      | inr kits => findHighestPriorityReadyKit kits = inl e
      end
  | EvTraitApply i kit => snd (trait_Apply i kit) = Some e
  | EvListPods namespace name phase => ListPods namespace name phase = inl e
  | EvGetDeployment name namespace => GetDeployment name namespace = inl e
  | _ => False
  end.

(** Every error of [m] is the answer to the last call made. *)
Definition blames {A} (w : Integration) (m : M A) : Prop :=
  forall s e s',
    m s = (inl e, s') ->
    exists calls call, trace s' = calls ++ [call] /\ failureOf w call e.

(** Number of calls to the trait subsystem among [calls]. *)
Definition traitCalls (calls : list Event) : nat :=
  length (List.filter isTraitApply calls).

(** Whatever [m] does, it adds at most [n] calls to the trait
    subsystem. *)
Definition appliesTraitsAtMost {A} (n : nat) (m : M A) : Prop :=
  forall s, exists calls,
    trace (snd (m s)) = trace s ++ calls /\ (traitCalls calls <= n)%nat.

(** Name and selector of a workload. *)
Definition nameAndSelector (i : Integration) : string * string :=
  (intName i, stSelector (intStatus i)).

(** A pass entered with [i] finds a bound kit and an unchanged digest
    and gets through lines 78 to 115 without an error, which leaves it
    in state [s] in front of line 117. *)
Definition reachesReplicaCount (i : Integration) (s : State) : Prop :=
  exists ref,
    stIntegrationKit (intStatus i) = Some ref
    /\ ComputeForIntegration i = inr (stDigest (intStatus i))
    /\ bind (resolveKit ref)
         (fun kit =>
            bind (upgradeKit kit)
              (fun _ => bind (applyTraits kit) (fun _ => publishSelector)))
         {| integration := i; trace := [EvComputeForIntegration] |}
       = (inr tt, s).
End PassShape.

(** ** Concrete clusters

    Instances on which the action can be run: times are integers with
    zero as the zero time, and a cluster is given by the answers it
    has for the calls of one pass. *)

Module Scenario.

#[export] Instance ZTime : TimeModel :=
  {| Time := Z; Duration := Z;
     IsZero := fun t => t =? 0;
     Sub := fun t u => t - u |}.

#[export] Instance constants : ApiConstants :=
  {| IntegrationLabel := "camel.apache.org/integration";
     IntegrationKitPriorityLabel := "camel.apache.org/kit.priority";
     IntegrationConditionErrorReason := "Error";
     IntegrationConditionReplicaSetReadyReason := "ReplicaSetReady" |}.

(** A re-initializer: back to the initialization phase, the rest of
    the status kept. *)
Definition reset (i : Integration) : Integration :=
  updStatus (setPhase IntegrationPhaseInitialization) i.

Definition cluster
    (digest : Error + string)
    (bound : Error + IntegrationKit)
    (candidates : Error + list IntegrationKit)
    (traitError : option Error)
    (pending running : Error + list Pod)
    (mirrored : list IntegrationCondition)
    (deployment : Error + Deployment) : Collaborators :=
  {| ComputeForIntegration := fun _ => digest;
     Initialize := reset;
     GetIntegrationKit := fun _ _ => bound;
     NewRequirement := fun key value =>
       match Atoi value with
       | inl e => inl e
       | inr _ => inr {| reqKey := key; reqGreaterThan := value |}
       end;
     lookupKitsForIntegration := fun _ _ => candidates;
     trait_Apply := fun i _ => (i, traitError);
     ListPods := fun _ _ phase =>
       match phase with
       | PodPending => pending
       | PodRunning => running
       end;
     MirrorReadyCondition := fun _ => mirrored;
     GetDeployment := fun _ _ => deployment;
     Now := 7 |}.

Definition kit (name priority : string) (phase : IntegrationKitPhase)
    : IntegrationKit :=
  {| kitNamespace := "ns"; kitName := name;
     kitLabels := {[ IntegrationKitPriorityLabel := priority ]};
     kitPhase := phase |}.

Definition unlabelled (name : string) (phase : IntegrationKitPhase)
    : IntegrationKit :=
  {| kitNamespace := "ns"; kitName := name;
     kitLabels := ∅; kitPhase := phase |}.

Definition building : IntegrationKitPhase :=
  IntegrationKitPhaseOther "Build Running".

Definition condition (ty : IntegrationConditionType) (st : ConditionStatus)
    (truthy : option Z) : IntegrationCondition :=
  {| condType := ty; condStatus := st; condReason := "";
     condMessage := ""; condLastTransitionTime := Some 1;
     condFirstTruthyTime := truthy |}.

(** A workload bound to kit [ns/kit-a], digest ["abc"], initialized
    at time 2. *)
Definition workload (phase : IntegrationPhase)
    (conditions : list IntegrationCondition) : Integration :=
  {| intNamespace := "ns"; intName := "routes"; intSpec := "spec";
     intStatus :=
       {| stPhase := phase; stDigest := "abc";
          stIntegrationKit :=
            Some {| refNamespace := "ns"; refName := "kit-a" |};
          stSelector := ""; stReplicas := None;
          stConditions := conditions;
          stInitializationTimestamp := 2 |} |}.

Definition pod (name : string) (deleted : option Z) : Pod :=
  {| podName := name; podDeletionTimestamp := deleted |}.

Definition deploymentCondition (ty : DeploymentConditionType)
    (st : ConditionStatus) (reason : string) : DeploymentCondition :=
  {| dcType := ty; dcStatus := st; dcReason := reason |}.

Definition available (replicas : Z)
    (conditions : list DeploymentCondition) : Error + Deployment :=
  inr {| depConditions := conditions; depAvailableReplicas := replicas |}.

Definition kitA : IntegrationKit := kit "kit-a" "1" IntegrationKitPhaseReady.
Definition kitB : IntegrationKit := kit "kit-b" "5" IntegrationKitPhaseReady.
Definition kitC : IntegrationKit := kit "kit-c" "3" IntegrationKitPhaseReady.
Definition kitD : IntegrationKit := kit "kit-d" "5" IntegrationKitPhaseReady.
Definition kitE : IntegrationKit := kit "kit-e" "9" building.

Definition boundReference : ObjectReference :=
  {| refNamespace := "ns"; refName := "kit-a" |}.

Definition higherThanOne : Requirement :=
  {| reqKey := IntegrationKitPriorityLabel; reqGreaterThan := "1" |}.

(** Ready and deployment-available both True, first true at time 10. *)
Definition readyConditions : list IntegrationCondition :=
  [condition IntegrationConditionReady ConditionTrue (Some 10);
   condition IntegrationConditionDeploymentAvailable ConditionTrue
     (Some 10)].

(** The desired state changed: the digest is now ["xyz"]. *)
Definition drifted : Collaborators :=
  cluster (inr "xyz") (inr kitA) (inr []) None (inr []) (inr [])
    [] (available 1 []).

(** The deployment is unavailable although its replica set is there. *)
Definition crashing : Collaborators :=
  cluster (inr "abc") (inr kitA) (inr []) None (inr [])
    (inr [pod "routes-1" None]) readyConditions
    (available 0
       [deploymentCondition DeploymentAvailable ConditionFalse
          "MinimumReplicasUnavailable";
        deploymentCondition DeploymentProgressing ConditionTrue
          "NewReplicaSetAvailable"]).

(** The deployment is available again. *)
Definition recovered : Collaborators :=
  cluster (inr "abc") (inr kitA) (inr []) None (inr [])
    (inr [pod "routes-1" None]) readyConditions
    (available 1
       [deploymentCondition DeploymentAvailable ConditionTrue
          "MinimumReplicasAvailable";
        deploymentCondition DeploymentProgressing ConditionTrue
          "ReplicaSetUpdated"]).

(** Four candidates above priority 1; kit-b and kit-d tie at 5 among
    the ready ones, kit-e is higher but still building. *)
Definition upgradable (traitError : option Error) : Collaborators :=
  cluster (inr "abc") (inr kitA) (inr [kitC; kitB; kitD; kitE]) traitError
    (inr []) (inr []) readyConditions (available 1 []).

(** One ready candidate of priority 5. *)
Definition oneCandidate (traitError : option Error)
    (pending : Error + list Pod) : Collaborators :=
  cluster (inr "abc") (inr kitA) (inr [kitB]) traitError
    pending (inr []) readyConditions (available 1 []).

(** The bound kit cannot be read. *)
Definition kitMissing : Collaborators :=
  cluster (inr "abc") (inl (ExternalError "not found")) (inr []) None
    (inr []) (inr []) readyConditions (available 1 []).

(** The workload is ready, but the deployment cannot be read. *)
Definition deploymentUnreadable : Collaborators :=
  cluster (inr "abc") (inr kitA) (inr []) None (inr [])
    (inr [pod "routes-1" None]) readyConditions
    (inl (ExternalError "timeout")).

(** The workload is ready and the deployment healthy. *)
Definition steady : Collaborators :=
  cluster (inr "abc") (inr kitA) (inr []) None (inr [])
    (inr [pod "routes-1" None]) readyConditions
    (available 1
       [deploymentCondition DeploymentAvailable ConditionTrue
          "MinimumReplicasAvailable";
        deploymentCondition DeploymentProgressing ConditionTrue
          "NewReplicaSetAvailable"]).

(** Pods as the two list calls return them. *)
Definition populated (pending running : list Pod) : Collaborators :=
  cluster (inr "abc") (inr kitA) (inr []) None (inr pending)
    (inr running) [] (available 1 []).

Definition twoPending : list Pod :=
  [pod "routes-1" None; pod "routes-2" None].

Definition fiveRunning : list Pod :=
  [pod "routes-3" None; pod "routes-4" (Some 40); pod "routes-5" None;
   pod "routes-6" (Some 41); pod "routes-7" None].

(** 2^31 pending pods. *)
Definition crowd : list Pod :=
  repeat (pod "routes" None) (Z.to_nat (2 ^ 31)).

Definition kitX : IntegrationKit :=
  kit "kit-x" "high" IntegrationKitPhaseReady.

(** Priority 5 as kit-b, written with a leading zero. *)
Definition kitF : IntegrationKit :=
  kit "kit-f" "05" IntegrationKitPhaseReady.

(** One of the ready candidates has a priority that is not a number. *)
Definition malformedCandidate : Collaborators :=
  cluster (inr "abc") (inr kitA) (inr [kitC; kitX]) None
    (inr []) (inr []) readyConditions (available 1 []).

(** A rollout in progress: the deployment is not available yet, and one
    replica of the previous replica set still is. *)
Definition rolling : Collaborators :=
  cluster (inr "abc") (inr kitA) (inr []) None (inr [])
    (inr [pod "routes-1" None]) readyConditions
    (available 1
       [deploymentCondition DeploymentAvailable ConditionFalse
          "MinimumReplicasUnavailable";
        deploymentCondition DeploymentProgressing ConditionTrue
          "NewReplicaSetAvailable"]).

End Scenario.

(** * Properties *)

(** ** [strconv.Atoi] on sample labels *)

Example Atoi_plain : Atoi "5" = inr 5.
Proof. reflexivity. Qed.

Example Atoi_signs : Atoi "-12" = inr (-12) /\ Atoi "+7" = inr 7.
Proof. split; reflexivity. Qed.

Example Atoi_empty : Atoi "" = inl (NumError "Atoi" "" ErrSyntax).
Proof. reflexivity. Qed.

Example Atoi_letters : Atoi "high" = inl (NumError "Atoi" "high" ErrSyntax).
Proof. reflexivity. Qed.

Example Atoi_bounds :
  Atoi "-9223372036854775808" = inr minInt64
  /\ Atoi "9223372036854775807" = inr maxInt64
  /\ Atoi "9223372036854775808"
     = inl (NumError "Atoi" "9223372036854775808" ErrRange).
Proof. repeat split; reflexivity. Qed.

(** ** [strconv.Atoi] gives a negative number for a minus sign only *)

Lemma digitOf_nonnegative (c : ascii) (d : Z) :
  digitOf c = Some d -> 0 <= d.
Proof.
  unfold digitOf. cbv zeta.
  destruct ((48 <=? Z.of_N (N_of_ascii c))
            && (Z.of_N (N_of_ascii c) <=? 57)) eqn:Hrange;
    [|discriminate].
  intros Heq. inversion Heq.
  apply andb_true_iff in Hrange as [Hlow _]. apply Z.leb_le in Hlow. lia.
Qed.

Lemma parseDigits_lower (s : string) :
  forall n un, 0 <= n -> parseDigits n s = inr un -> n <= un.
Proof.
  induction s as [|c rest IH]; intros n un Hn; simpl.
  - intros Heq. inversion Heq. lia.
  - destruct (digitOf c) as [d|] eqn:Hd; [|discriminate].
    apply digitOf_nonnegative in Hd.
    destruct (maxUint64 <? n * 10 + d); [discriminate|].
    intros Heq. apply IH in Heq; lia.
Qed.

(** A value without a leading minus sign that parses is zero or
    positive. *)
Lemma Atoi_nonnegative (s : string) (p : Z) :
  startsWithMinus s = false -> Atoi s = inr p -> 0 <= p.
Proof.
  destruct s as [|c rest]; simpl; [discriminate|].
  intros Hc. rewrite Hc. simpl.
  assert (Hbody : forall body,
            match parseDigits 0 body with
            | inl k => inl (NumError "Atoi" (String c rest) k)
            | inr un =>
                if 2 ^ 63 <=? un
                then inl (NumError "Atoi" (String c rest) ErrRange)
                else inr un
            end = inr p -> 0 <= p).
  { intros body.
    destruct (parseDigits 0 body) as [k|un] eqn:Hparse; [discriminate|].
    apply parseDigits_lower in Hparse; [|lia].
    destruct (2 ^ 63 <=? un); [discriminate|].
    intros Heq. inversion Heq. lia. }
  destruct (isPlus c).
  - destruct rest as [|c' rest']; [discriminate|]. apply Hbody.
  - apply Hbody.
Qed.

(** ** Selection of the ready kit of highest priority *)

Section SelectionFacts.
Context `{AC : ApiConstants}.

Lemma findHighestLoop_filter (kits : list IntegrationKit) :
  forall kit priority,
    findHighestLoop kits kit priority
    = findHighestLoop (List.filter kitReady kits) kit priority.
Proof.
  induction kits as [|k rest IH]; intros kit priority; [reflexivity|].
  simpl. destruct (kitReady k) eqn:Hk; simpl.
  - rewrite Hk. simpl.
    destruct (Atoi (priorityLabel k)) as [e|p]; [reflexivity|].
    destruct (priority <? p); apply IH.
  - apply IH.
Qed.

Lemma findHighestLoop_nil_filter (kits : list IntegrationKit) kit priority :
  List.filter kitReady kits = [] ->
  findHighestLoop kits kit priority = inr kit.
Proof. intros Hf. rewrite findHighestLoop_filter, Hf. reflexivity. Qed.

Lemma findHighestPriorityReadyKit_loop (kits : list IntegrationKit) :
  findHighestPriorityReadyKit kits = findHighestLoop kits None 0.
Proof. destruct kits; reflexivity. Qed.

(** A ready kit whose label does not parse stops the loop with the
    parse error of such a kit, whatever the loop has found so far. *)
Lemma findHighestLoop_malformed (kits : list IntegrationKit) :
  forall kit priority k e,
    In k kits -> kitReady k = true -> Atoi (priorityLabel k) = inl e ->
    exists k' e',
      In k' kits /\ kitReady k' = true
      /\ Atoi (priorityLabel k') = inl e'
      /\ findHighestLoop kits kit priority = inl e'.
Proof.
  induction kits as [|x rest IH]; intros kit priority k e Hin Hr Hp;
    [destruct Hin|].
  simpl. destruct (kitReady x) eqn:Hx; simpl.
  - destruct (Atoi (priorityLabel x)) as [ex|px] eqn:Hax.
    + exists x, ex. repeat split; auto using in_eq.
    + destruct Hin as [->|Hin]; [congruence|].
      destruct (priority <? px);
        [destruct (IH (Some x) px k e Hin Hr Hp)
           as (k' & e' & Hk' & Hr' & Ha' & Hl)
        |destruct (IH kit priority k e Hin Hr Hp)
           as (k' & e' & Hk' & Hr' & Ha' & Hl)];
        exists k', e'; repeat split; auto using in_cons.
  - destruct Hin as [->|Hin]; [congruence|].
    destruct (IH kit priority k e Hin Hr Hp) as (k' & e' & Hk' & Hr' & Ha' & Hl).
    exists k', e'. repeat split; auto using in_cons.
Qed.

(** What the loop returns when every ready kit parses: either no
    ready kit lies above the starting priority and the starting kit
    is kept, or the list splits around the first ready kit of highest
    priority. *)
Lemma findHighestLoop_spec (kits : list IntegrationKit) :
  forall kit0 p0,
    (forall k, In k kits -> kitReady k = true ->
               exists p, Atoi (priorityLabel k) = inr p) ->
    (findHighestLoop kits kit0 p0 = inr kit0
     /\ forall k p, In k kits -> kitReady k = true ->
                    Atoi (priorityLabel k) = inr p -> p <= p0)
    \/ exists l1 k l2 p,
         kits = l1 ++ k :: l2
         /\ kitReady k = true
         /\ Atoi (priorityLabel k) = inr p
         /\ p0 < p
         /\ (forall k' p', In k' l1 -> kitReady k' = true ->
               Atoi (priorityLabel k') = inr p' -> p' < p)
         /\ (forall k' p', In k' l2 -> kitReady k' = true ->
               Atoi (priorityLabel k') = inr p' -> p' <= p)
         /\ findHighestLoop kits kit0 p0 = inr (Some k).
Proof.
  induction kits as [|x rest IH]; intros kit0 p0 Hparse.
  { left. split; [reflexivity|]. intros k p []. }
  assert (Hrest : forall k, In k rest -> kitReady k = true ->
                    exists p, Atoi (priorityLabel k) = inr p).
  { intros k Hk. apply Hparse. now right. }
  simpl. destruct (kitReady x) eqn:Hx; simpl.
  - destruct (Hparse x (or_introl eq_refl) Hx) as [px Hpx]. rewrite Hpx.
    destruct (Z.ltb_spec p0 px) as [Hlt|Hge].
    + destruct (IH (Some x) px Hrest)
        as [[Hl Hmax]|(l1 & k & l2 & p & -> & Hk & Hp & Hgt & H1 & H2 & Hl)].
      * right. exists [], x, rest, px.
        repeat split; auto; intros k' p' [].
      * right. exists (x :: l1), k, l2, p. repeat split; auto; [lia|].
        intros k' p' [<-|Hin] Hr' Hp'; [|eauto].
        rewrite Hpx in Hp'. inversion Hp'; subst. lia.
    + destruct (IH kit0 p0 Hrest)
        as [[Hl Hmax]|(l1 & k & l2 & p & -> & Hk & Hp & Hgt & H1 & H2 & Hl)].
      * left. split; [assumption|].
        intros k p [<-|Hin] Hr' Hp'; [|eauto].
        rewrite Hpx in Hp'. inversion Hp'; subst. lia.
      * right. exists (x :: l1), k, l2, p. repeat split; auto.
        intros k' p' [<-|Hin] Hr' Hp'; [|eauto].
        rewrite Hpx in Hp'. inversion Hp'; subst. lia.
  - destruct (IH kit0 p0 Hrest)
      as [[Hl Hmax]|(l1 & k & l2 & p & -> & Hk & Hp & Hgt & H1 & H2 & Hl)].
    + left. split; [assumption|].
      intros k p [<-|Hin] Hr'; [congruence|eauto].
    + right. exists (x :: l1), k, l2, p. repeat split; auto.
      intros k' p' [<-|Hin] Hr'; [congruence|eauto].
Qed.
End SelectionFacts.

(** ** Conditions of the workload *)

Section ConditionFacts.
Context `{TM : TimeModel}.

Lemma findCondition_upsert (c : IntegrationCondition)
    (cs : list IntegrationCondition) :
  findCondition (upsertCondition c cs) (condType c) = Some c.
Proof.
  induction cs as [|x rest IH]; simpl.
  - destruct (decide (condType c = condType c)); congruence.
  - destruct (decide (condType x = condType c)) as [Heq|Hne]; simpl.
    + destruct (decide (condType c = condType c)); congruence.
    + destruct (decide (condType x = condType c)); congruence.
Qed.

Lemma findCondition_upsert_other (c : IntegrationCondition)
    (cs : list IntegrationCondition) (ty : IntegrationConditionType) :
  ty <> condType c ->
  findCondition (upsertCondition c cs) ty = findCondition cs ty.
Proof.
  intros Hne. induction cs as [|x rest IH]; simpl.
  - destruct (decide (condType c = ty)); congruence.
  - destruct (decide (condType x = condType c)) as [Heq|Hne']; simpl.
    + destruct (decide (condType c = ty)); [congruence|].
      destruct (decide (condType x = ty)); congruence.
    + destruct (decide (condType x = ty)); congruence.
Qed.

(** After [SetCondition] the condition of that type carries the
    status, reason and message that were set. *)
Lemma GetCondition_SetCondition (now : Time) (st : IntegrationStatus)
    (c : IntegrationCondition) :
  exists c',
    GetCondition (SetCondition now st c) (condType c) = Some c'
    /\ condType c' = condType c
    /\ condStatus c' = condStatus c
    /\ condReason c' = condReason c
    /\ condMessage c' = condMessage c.
Proof.
  unfold SetCondition, GetCondition. simpl.
  eexists. split.
  - apply (findCondition_upsert
             {| condType := condType c; condStatus := condStatus c;
                condReason := condReason c; condMessage := condMessage c;
                condLastTransitionTime := _; condFirstTruthyTime := _ |}).
  - repeat split.
Qed.

(** A first-truthy time that is set survives [SetCondition]. *)
Lemma SetCondition_keeps_firstTruthyTime (now : Time)
    (st : IntegrationStatus) (c old : IntegrationCondition) :
  GetCondition st (condType c) = Some old ->
  timeSet (condFirstTruthyTime old) = true ->
  exists c',
    GetCondition (SetCondition now st c) (condType c) = Some c'
    /\ condFirstTruthyTime c' = condFirstTruthyTime old.
Proof.
  intros Hold Hset. unfold SetCondition. rewrite Hold, Hset.
  unfold GetCondition. simpl. eexists. split.
  - apply (findCondition_upsert
             {| condType := condType c; condStatus := condStatus c;
                condReason := condReason c; condMessage := condMessage c;
                condLastTransitionTime := _; condFirstTruthyTime := _ |}).
  - reflexivity.
Qed.
End ConditionFacts.

(** ** The two scans of the deployment's conditions *)

Lemma hasType_reports (d : Deployment) (ty : DeploymentConditionType)
    (P : DeploymentCondition -> Prop) :
  reports d ty P -> hasType ty (depConditions d) = true.
Proof.
  intros [(c & Hin & Hty) _]. apply existsb_exists. exists c.
  split; [assumption|]. now apply bool_decide_eq_true.
Qed.

Section ScanFacts.
Context `{TM : TimeModel} `{AC : ApiConstants} `{CO : !Collaborators}.

Lemma runningLoop_reports (cs : list DeploymentCondition) (available : Z) :
  forall deployUnavailable progressingFailing,
    (forall c, In c cs -> dcType c = DeploymentAvailable ->
               dcStatus c = ConditionFalse) ->
    (forall c, In c cs -> dcType c = DeploymentProgressing ->
               dcStatus c = ConditionTrue
               /\ dcReason c = "NewReplicaSetAvailable") ->
    available < 1 ->
    runningLoop cs available deployUnavailable progressingFailing
    = (deployUnavailable || hasType DeploymentAvailable cs,
       progressingFailing || hasType DeploymentProgressing cs).
Proof.
  induction cs as [|c rest IH]; intros du pf HA HP Hlt; simpl.
  - now rewrite !orb_false_r.
  - rewrite IH; auto using in_cons.
    assert (Hc := HA c (in_eq _ _)). assert (Hp := HP c (in_eq _ _)).
    f_equal.
    + destruct (decide (dcType c = DeploymentAvailable)) as [e|n].
      * rewrite (bool_decide_eq_true_2 _ (Hc e)).
        rewrite (bool_decide_eq_true_2 _ e). simpl.
        now rewrite orb_true_r.
      * now rewrite (bool_decide_eq_false_2 _ n).
    + destruct (decide (dcType c = DeploymentProgressing)) as [e|n].
      * destruct (Hp e) as [Hs Hr].
        rewrite (bool_decide_eq_true_2 _ Hs), Hr.
        rewrite (bool_decide_eq_true_2 _ e).
        replace (available <? 1) with true by (symmetry; now apply Z.ltb_lt).
        simpl. now rewrite orb_true_r.
      * now rewrite (bool_decide_eq_false_2 _ n).
Qed.

Lemma errorLoop_reports (cs : list DeploymentCondition) :
  forall deployAvailable progressingOk,
    (forall c, In c cs -> dcType c = DeploymentAvailable ->
               dcStatus c = ConditionTrue) ->
    (forall c, In c cs -> dcType c = DeploymentProgressing ->
               dcStatus c = ConditionTrue
               /\ (dcReason c = "NewReplicaSetAvailable"
                   \/ dcReason c = "ReplicaSetUpdated")) ->
    errorLoop cs deployAvailable progressingOk
    = (deployAvailable || hasType DeploymentAvailable cs,
       progressingOk || hasType DeploymentProgressing cs).
Proof.
  induction cs as [|c rest IH]; intros da po HA HP; simpl.
  - now rewrite !orb_false_r.
  - rewrite IH; auto using in_cons.
    assert (Hc := HA c (in_eq _ _)). assert (Hp := HP c (in_eq _ _)).
    f_equal.
    + destruct (decide (dcType c = DeploymentAvailable)) as [e|n].
      * rewrite (bool_decide_eq_true_2 _ (Hc e)).
        rewrite (bool_decide_eq_true_2 _ e). simpl.
        now rewrite orb_true_r.
      * now rewrite (bool_decide_eq_false_2 _ n).
    + destruct (decide (dcType c = DeploymentProgressing)) as [e|n].
      * destruct (Hp e) as [Hs Hr].
        rewrite (bool_decide_eq_true_2 _ Hs).
        rewrite (bool_decide_eq_true_2 _ e).
        replace (String.eqb (dcReason c) "NewReplicaSetAvailable"
                 || String.eqb (dcReason c) "ReplicaSetUpdated") with true.
        { simpl. now rewrite orb_true_r. }
        destruct Hr as [-> | ->]; reflexivity.
      * now rewrite (bool_decide_eq_false_2 _ n).
Qed.
End ScanFacts.

(** ** Runs of the action *)

Section MonitorFacts.
Context `{TM : TimeModel} `{AC : ApiConstants} `{CO : !Collaborators}.

Lemma bind_inr_inv {A B} (m : M A) (k : A -> M B) s b s' :
  bind m k s = (inr b, s') ->
  exists a s1, m s = (inr a, s1) /\ k a s1 = (inr b, s').
Proof.
  unfold bind. destruct (m s) as [[e|a] s1]; intros Heq; [discriminate|].
  now exists a, s1.
Qed.

Lemma bind_inl_inv {A B} (m : M A) (k : A -> M B) s e s' :
  bind m k s = (inl e, s') ->
  m s = (inl e, s')
  \/ exists a s1, m s = (inr a, s1) /\ k a s1 = (inl e, s').
Proof.
  unfold bind. destruct (m s) as [[e1|a] s1]; intros Heq.
  - left. congruence.
  - right. now exists a, s1.
Qed.

Lemma bind_step {A B} (m : M A) (k : A -> M B) s a s1 :
  m s = (inr a, s1) -> bind m k s = k a s1.
Proof. unfold bind. now intros ->. Qed.

Lemma bind_fail {A B} (m : M A) (k : A -> M B) s e s1 :
  m s = (inl e, s1) -> bind m k s = (inl e, s1).
Proof. unfold bind. now intros ->. Qed.

(** A pass that gets to line 162 ends with the check of the
    deployment. *)
Lemma Handle_reaches (i : Integration) (s : State) :
  reachesDeploymentCheck i s -> run Handle i = checkDeployment s.
Proof.
  intros (s1 & (ref & Hkit & Hdigest & Hsync) & Hmirror).
  unfold run, Handle, bind at 1, getIntegration. simpl. rewrite Hkit.
  unfold bind at 1, emit. simpl.
  unfold bind at 1. rewrite Hdigest. simpl.
  rewrite String.eqb_refl. simpl.
  rewrite (bind_step _ _ _ _ _ Hsync).
  now rewrite (bind_step _ _ _ _ _ Hmirror).
Qed.

(** C1.  A workload with a bound kit whose recomputed digest differs
    from [Status.Digest] is re-initialized, gets the new digest and
    is returned at once: the pass calls the digest, the logger and
    the re-initializer and nothing else, so no kit is resolved, no
    trait applied, no pod listed, no condition mirrored and no
    deployment read, and the workload returned is the re-initialized
    one with the new digest, untouched by any later step.  This holds
    in every phase, in particular in the phases [CanHandle] accepts. *)
Theorem Handle_rebuilds_on_drift (i : Integration) (ref : ObjectReference)
    (hash : string) :
  stIntegrationKit (intStatus i) = Some ref ->
  ComputeForIntegration i = inr hash ->
  hash <> stDigest (intStatus i) ->
  let rebuilt := updStatus (setDigest hash) (Initialize i) in
  run Handle i
  = (inr rebuilt,
     {| integration := rebuilt;
        trace := [EvComputeForIntegration;
                  EvInfo "Integration needs a rebuild";
                  EvInitialize] |})
  /\ stDigest (intStatus rebuilt) = hash.
Proof.
  intros Hkit Hdigest Hne rebuilt. split; [|reflexivity].
  unfold run, Handle, bind at 1, getIntegration. simpl. rewrite Hkit.
  unfold bind at 1, emit. simpl.
  unfold bind at 1. rewrite Hdigest. simpl.
  apply String.eqb_neq in Hne. rewrite Hne. reflexivity.
Qed.

(** C2.  When the pass reaches the check of the deployment with the
    workload in phase Running and its deployment-available condition
    True, and the deployment reports Available False and Progressing
    True with reason NewReplicaSetAvailable while no replica is
    available, the pass sets the Ready condition to False with the
    error reason and the message about the pods, sets the phase to
    Error and returns that workload; reading the deployment is its
    last call. *)
Theorem Handle_detects_failing_deployment (i : Integration) (s : State)
    (d : Deployment) :
  reachesDeploymentCheck i s ->
  stPhase (intStatus (integration s)) = IntegrationPhaseRunning ->
  IsConditionTrue (integration s) IntegrationConditionDeploymentAvailable
  = true ->
  GetDeployment (intName (integration s)) (intNamespace (integration s))
  = inr d ->
  reports d DeploymentAvailable (fun c => dcStatus c = ConditionFalse) ->
  reports d DeploymentProgressing
    (fun c => dcStatus c = ConditionTrue
              /\ dcReason c = "NewReplicaSetAvailable") ->
  depAvailableReplicas d = 0 ->
  exists updated ready,
    run Handle i
    = (inr updated,
       {| integration := updated;
          trace := trace s
                   ++ [EvGetDeployment (intName (integration s))
                         (intNamespace (integration s))] |})
    /\ updated
       = updStatus (setPhase IntegrationPhaseError)
           (updStatus
              (fun st => SetConditions Now st [notAvailableCondition])
              (integration s))
    /\ stPhase (intStatus updated) = IntegrationPhaseError
    /\ GetCondition (intStatus updated) IntegrationConditionReady
       = Some ready
    /\ condStatus ready = ConditionFalse
    /\ condReason ready = IntegrationConditionErrorReason
    /\ condMessage ready
       = "The corresponding pod(s) may be in error state, look at the pod status or log for errors".
Proof.
  intros Hreach Hphase Hcond Hget HA HP Hzero.
  destruct (GetCondition_SetCondition Now
              (intStatus (integration s)) notAvailableCondition)
    as (ready & Hready & _ & Hst & Hre & Hmsg).
  eexists. exists ready. split; [|split; [reflexivity|]].
  - rewrite (Handle_reaches _ _ Hreach).
    unfold checkDeployment, bind at 1, getIntegration. simpl.
    rewrite Hcond. unfold bind at 1, emit. simpl.
    unfold bind at 1. rewrite Hget. simpl. rewrite Hphase.
    rewrite runningLoop_reports;
      [|apply HA|apply HP|lia].
    rewrite (hasType_reports _ _ _ HA), (hasType_reports _ _ _ HP).
    reflexivity.
  - repeat split; assumption.
Qed.

(** C3.  When the pass reaches the check of the deployment with the
    workload in phase Error and its deployment-available condition
    True, and the deployment reports Available True and Progressing
    True with reason NewReplicaSetAvailable or ReplicaSetUpdated, the
    pass sets the Ready condition to True, sets the phase to Running
    and returns that workload; reading the deployment is its last
    call. *)
Theorem Handle_detects_recovered_deployment (i : Integration) (s : State)
    (d : Deployment) :
  reachesDeploymentCheck i s ->
  stPhase (intStatus (integration s)) = IntegrationPhaseError ->
  IsConditionTrue (integration s) IntegrationConditionDeploymentAvailable
  = true ->
  GetDeployment (intName (integration s)) (intNamespace (integration s))
  = inr d ->
  reports d DeploymentAvailable (fun c => dcStatus c = ConditionTrue) ->
  reports d DeploymentProgressing
    (fun c => dcStatus c = ConditionTrue
              /\ (dcReason c = "NewReplicaSetAvailable"
                  \/ dcReason c = "ReplicaSetUpdated")) ->
  exists updated ready,
    run Handle i
    = (inr updated,
       {| integration := updated;
          trace := trace s
                   ++ [EvGetDeployment (intName (integration s))
                         (intNamespace (integration s))] |})
    /\ updated
       = updStatus (setPhase IntegrationPhaseRunning)
           (updStatus
              (fun st => SetConditions Now st [availableCondition])
              (integration s))
    /\ stPhase (intStatus updated) = IntegrationPhaseRunning
    /\ GetCondition (intStatus updated) IntegrationConditionReady
       = Some ready
    /\ condStatus ready = ConditionTrue.
Proof.
  intros Hreach Hphase Hcond Hget HA HP.
  destruct (GetCondition_SetCondition Now
              (intStatus (integration s)) availableCondition)
    as (ready & Hready & _ & Hst & _).
  eexists. exists ready. split; [|split; [reflexivity|]].
  - rewrite (Handle_reaches _ _ Hreach).
    unfold checkDeployment, bind at 1, getIntegration. simpl.
    rewrite Hcond. unfold bind at 1, emit. simpl.
    unfold bind at 1. rewrite Hget. simpl. rewrite Hphase.
    rewrite errorLoop_reports; [|apply HA|apply HP].
    rewrite (hasType_reports _ _ _ HA), (hasType_reports _ _ _ HP).
    reflexivity.
  - repeat split; assumption.
Qed.
End MonitorFacts.

(** ** What the steps add to the trace and leave in the status *)

Section StepFacts.
Context `{TM : TimeModel} `{AC : ApiConstants} `{CO : !Collaborators}.

Lemma appends_ret {A} (P : Event -> Prop) (a : A) : appends P (ret a).
Proof. intros s. exists []. simpl. now rewrite app_nil_r. Qed.

Lemma appends_throw {A} (P : Event -> Prop) (e : Error) :
  appends P (@throw _ A e).
Proof. intros s. exists []. simpl. now rewrite app_nil_r. Qed.

Lemma appends_try {A} (P : Event -> Prop) (r : Error + A) :
  appends P (try r).
Proof. destruct r; [apply appends_throw|apply appends_ret]. Qed.

Lemma appends_getIntegration (P : Event -> Prop) : appends P getIntegration.
Proof. intros s. exists []. simpl. now rewrite app_nil_r. Qed.

Lemma appends_modify (P : Event -> Prop) f : appends P (modify f).
Proof. intros s. exists []. simpl. now rewrite app_nil_r. Qed.

Lemma appends_emit (P : Event -> Prop) (e : Event) :
  P e -> appends P (emit e).
Proof. intros He s. exists [e]. simpl. auto. Qed.

Lemma appends_bind {A B} (P : Event -> Prop) (m : M A) (k : A -> M B) :
  appends P m -> (forall a, appends P (k a)) -> appends P (bind m k).
Proof.
  intros Hm Hk s. unfold bind.
  destruct (Hm s) as (c1 & Ht1 & Hc1).
  destruct (m s) as [[e|a] s1]; simpl in *.
  - now exists c1.
  - destruct (Hk a s1) as (c2 & Ht2 & Hc2).
    exists (c1 ++ c2). rewrite Ht2, Ht1, app_assoc.
    split; [reflexivity|]. apply Forall_app. now split.
Qed.

Lemma appends_weaken {A} (P Q : Event -> Prop) (m : M A) :
  (forall e, P e -> Q e) -> appends P m -> appends Q m.
Proof.
  intros HPQ Hm s. destruct (Hm s) as (c & Ht & Hc).
  exists c. split; [assumption|].
  eapply List.Forall_impl; [|exact Hc]. exact HPQ.
Qed.

Lemma keepsReplicas_ret {A} (a : A) : keepsReplicas (ret a).
Proof. intros s. reflexivity. Qed.

Lemma keepsReplicas_throw {A} (e : Error) : keepsReplicas (@throw _ A e).
Proof. intros s. reflexivity. Qed.

Lemma keepsReplicas_try {A} (r : Error + A) : keepsReplicas (try r).
Proof. destruct r; intros s; reflexivity. Qed.

Lemma keepsReplicas_getIntegration : keepsReplicas getIntegration.
Proof. intros s. reflexivity. Qed.

Lemma keepsReplicas_emit (e : Event) : keepsReplicas (emit e).
Proof. intros s. reflexivity. Qed.

Lemma keepsReplicas_modify f :
  (forall i, stReplicas (intStatus (f i)) = stReplicas (intStatus i)) ->
  keepsReplicas (modify f).
Proof. intros Hf s. simpl. apply Hf. Qed.

Lemma keepsReplicas_bind {A B} (m : M A) (k : A -> M B) :
  keepsReplicas m -> (forall a, keepsReplicas (k a)) ->
  keepsReplicas (bind m k).
Proof.
  intros Hm Hk s. unfold bind. specialize (Hm s).
  destruct (m s) as [[e|a] s1]; simpl in *; [assumption|].
  now rewrite Hk.
Qed.
End StepFacts.

(** Splits a goal [appends P m] along the structure of [m]; the calls
    [m] makes are checked against [P] by computation. *)
Ltac appends_steps :=
  repeat first
    [ apply appends_ret
    | apply appends_throw
    | apply appends_try
    | apply appends_getIntegration
    | apply appends_modify
    | apply appends_emit; unfold quiet, notTraitApply, notObserve; repeat split
    | apply appends_bind; [|intros ?; cbv beta]
    | match goal with
      | |- appends _ (match ?x with _ => _ end) => destruct x
      end ].

Ltac keepsReplicas_steps :=
  repeat first
    [ apply keepsReplicas_ret
    | apply keepsReplicas_throw
    | apply keepsReplicas_try
    | apply keepsReplicas_getIntegration
    | apply keepsReplicas_emit
    | apply keepsReplicas_modify; intros ?; reflexivity
    | apply keepsReplicas_bind; [|intros ?; cbv beta]
    | match goal with
      | |- keepsReplicas (match ?x with _ => _ end) => destruct x
      end ].

Section StepTraces.
Context `{TM : TimeModel} `{AC : ApiConstants} `{CO : !Collaborators}.

Lemma quiet_notTraitApply (e : Event) : quiet e -> notTraitApply e.
Proof. now intros []. Qed.

Lemma quiet_notObserve (e : Event) : quiet e -> notObserve e.
Proof. now intros []. Qed.

Lemma resolveKit_quiet (ref : ObjectReference) :
  appends quiet (resolveKit ref).
Proof. unfold resolveKit. appends_steps. Qed.

Lemma upgradeKit_quiet (kit : IntegrationKit) : appends quiet (upgradeKit kit).
Proof. unfold upgradeKit. appends_steps. Qed.

Lemma applyTraits_notObserve (kit : IntegrationKit) :
  appends notObserve (applyTraits kit).
Proof. unfold applyTraits. appends_steps. Qed.

Lemma publishSelector_quiet : appends quiet publishSelector.
Proof. unfold publishSelector. appends_steps. Qed.

Lemma updateReplicas_quiet : appends quiet updateReplicas.
Proof. unfold updateReplicas, listPods. appends_steps. Qed.

Lemma reconcilePhase_quiet : appends quiet reconcilePhase.
Proof. unfold reconcilePhase. appends_steps. Qed.

Lemma mirrorReadiness_notTraitApply : appends notTraitApply mirrorReadiness.
Proof. unfold mirrorReadiness. appends_steps. Qed.

Lemma checkDeployment_quiet : appends quiet checkDeployment.
Proof. unfold checkDeployment. appends_steps. Qed.

Lemma syncStatus_notObserve (ref : ObjectReference) :
  appends notObserve (syncStatus ref).
Proof.
  unfold syncStatus.
  apply appends_bind;
    [exact (appends_weaken _ _ _ quiet_notObserve (resolveKit_quiet ref))|].
  intros kit.
  apply appends_bind;
    [exact (appends_weaken _ _ _ quiet_notObserve (upgradeKit_quiet kit))|].
  intros _.
  apply appends_bind; [apply applyTraits_notObserve|]. intros _.
  apply (appends_weaken _ _ _ quiet_notObserve).
  apply appends_bind; [apply publishSelector_quiet|]. intros _.
  apply appends_bind; [apply updateReplicas_quiet|]. intros _.
  apply reconcilePhase_quiet.
Qed.

(** Lines 112 to 224, the part of a pass after the traits. *)
Lemma afterTraits_notTraitApply :
  appends notTraitApply
    (bind (bind publishSelector
             (fun _ => bind updateReplicas (fun _ => reconcilePhase)))
          (fun _ => bind mirrorReadiness (fun _ => checkDeployment))).
Proof.
  apply appends_bind.
  - apply (appends_weaken _ _ _ quiet_notTraitApply).
    apply appends_bind; [apply publishSelector_quiet|]. intros _.
    apply appends_bind; [apply updateReplicas_quiet|]. intros _.
    apply reconcilePhase_quiet.
  - intros _.
    apply appends_bind; [apply mirrorReadiness_notTraitApply|]. intros _.
    exact (appends_weaken _ _ _ quiet_notTraitApply checkDeployment_quiet).
Qed.

Lemma reconcilePhase_keepsReplicas : keepsReplicas reconcilePhase.
Proof. unfold reconcilePhase. keepsReplicas_steps. Qed.

Lemma mirrorReadiness_keepsReplicas : keepsReplicas mirrorReadiness.
Proof. unfold mirrorReadiness. keepsReplicas_steps. Qed.

Lemma checkDeployment_keepsReplicas : keepsReplicas checkDeployment.
Proof. unfold checkDeployment. keepsReplicas_steps. Qed.

(** A successful check of the deployment returns the workload object
    as the pass leaves it. *)
Lemma checkDeployment_returns (s s' : State) (updated : Integration) :
  checkDeployment s = (inr updated, s') -> updated = integration s'.
Proof.
  unfold checkDeployment, bind, getIntegration, emit, modify, try, ret, throw.
  simpl.
  repeat match goal with
         | |- context [match ?x with _ => _ end] => destruct x; simpl
         end;
    intros Heq; inversion Heq; reflexivity.
Qed.
End StepTraces.

(** ** The replica count *)

Section ReplicaFacts.
Context `{TM : TimeModel} `{AC : ApiConstants} `{CO : !Collaborators}.

Lemma nonTerminatingLoop_count (pods : list Pod) :
  forall n,
    nonTerminatingLoop pods n = n + Z.of_nat (length (nonTerminating pods)).
Proof.
  induction pods as [|pod rest IH]; intros n; simpl.
  - lia.
  - destruct (podDeletionTimestamp pod); simpl; rewrite IH; lia.
Qed.

Lemma podCount_count (pendingPods runningPods : list Pod) :
  podCount pendingPods runningPods
  = int32 (Z.of_nat (length pendingPods)
           + Z.of_nat (length (nonTerminating runningPods))).
Proof. unfold podCount. now rewrite nonTerminatingLoop_count. Qed.

Lemma int32_small (z : Z) : - 2 ^ 31 <= z <= 2 ^ 31 - 1 -> int32 z = z.
Proof. intros Hz. unfold int32. rewrite Z.mod_small; lia. Qed.

Lemma updateReplicas_inr (s s' : State) :
  updateReplicas s = (inr tt, s') ->
  let namespace := intNamespace (integration s) in
  let name := intName (integration s) in
  exists pendingPods runningPods,
    ListPods namespace name PodPending = inr pendingPods
    /\ ListPods namespace name PodRunning = inr runningPods
    /\ s' = {| integration :=
                 updStatus
                   (setReplicas (Some (podCount pendingPods runningPods)))
                   (integration s);
               trace := trace s ++ [EvListPods namespace name PodPending;
                                    EvListPods namespace name PodRunning] |}.
Proof.
  unfold updateReplicas, listPods, bind, getIntegration, emit, modify, try,
    ret, throw.
  simpl.
  destruct (ListPods _ _ PodPending) as [e|pendingPods]; [discriminate|].
  destruct (ListPods _ _ PodRunning) as [e|runningPods]; [discriminate|].
  intros Heq. exists pendingPods, runningPods.
  inversion Heq. rewrite <- app_assoc. repeat split.
Qed.

(** A pass that finds the digest unchanged and returns a workload has
    listed the pending and the running pods of one workload, and the
    workload returned carries the count computed from the two
    answers. *)
Lemma Handle_stores_podCount (i updated : Integration) (s' : State) :
  run Handle i = (inr updated, s') ->
  ComputeForIntegration i = inr (stDigest (intStatus i)) ->
  exists namespace name pendingPods runningPods,
    In (EvListPods namespace name PodPending) (trace s')
    /\ In (EvListPods namespace name PodRunning) (trace s')
    /\ ListPods namespace name PodPending = inr pendingPods
    /\ ListPods namespace name PodRunning = inr runningPods
    /\ stReplicas (intStatus updated)
       = Some (podCount pendingPods runningPods).
Proof.
  intros Hrun Hdigest.
  unfold run, Handle, bind at 1, getIntegration in Hrun. simpl in Hrun.
  destruct (stIntegrationKit (intStatus i)) as [ref|]; [|discriminate].
  unfold bind at 1, emit in Hrun. simpl in Hrun.
  unfold bind at 1 in Hrun. rewrite Hdigest in Hrun. simpl in Hrun.
  rewrite String.eqb_refl in Hrun. simpl in Hrun.
  apply bind_inr_inv in Hrun as ([] & s1 & Hsync & Hrest).
  unfold syncStatus in Hsync.
  apply bind_inr_inv in Hsync as (kit & sa & _ & Hsync).
  apply bind_inr_inv in Hsync as ([] & sb & _ & Hsync).
  apply bind_inr_inv in Hsync as ([] & sc & _ & Hsync).
  apply bind_inr_inv in Hsync as ([] & sd & _ & Hsync).
  apply bind_inr_inv in Hsync as ([] & se & Hreplicas & Hphase).
  apply updateReplicas_inr in Hreplicas
    as (pendingPods & runningPods & Hpending & Hrunning & Hse).
  exists (intNamespace (integration sd)), (intName (integration sd)),
    pendingPods, runningPods.
  assert (Htrace : exists calls, trace s' = trace se ++ calls).
  { destruct (reconcilePhase_quiet se) as (c1 & Ht1 & _).
    rewrite Hphase in Ht1. simpl in Ht1.
    destruct (appends_bind _ _ _ mirrorReadiness_notTraitApply
                (fun _ => appends_weaken _ _ _ quiet_notTraitApply
                            checkDeployment_quiet) s1) as (c2 & Ht2 & _).
    rewrite Hrest in Ht2. simpl in Ht2.
    exists (c1 ++ c2). now rewrite Ht2, Ht1, app_assoc. }
  destruct Htrace as (calls & ->).
  apply bind_inr_inv in Hrest as ([] & sm & Hmirror & Hcheck).
  pose proof (checkDeployment_keepsReplicas sm) as H1.
  rewrite Hcheck in H1. simpl in H1.
  pose proof (mirrorReadiness_keepsReplicas s1) as H2.
  rewrite Hmirror in H2. simpl in H2.
  pose proof (reconcilePhase_keepsReplicas se) as H3.
  rewrite Hphase in H3. simpl in H3.
  rewrite (checkDeployment_returns _ _ _ Hcheck), H1, H2, H3.
  subst se. simpl.
  repeat split; try assumption.
  - apply in_or_app. left. apply in_or_app. right. now left.
  - apply in_or_app. left. apply in_or_app. right. right. now left.
Qed.
End ReplicaFacts.

(** ** Kit upgrade, traits and errors inside a pass *)

Section PassFacts.
Context `{TM : TimeModel} `{AC : ApiConstants} `{CO : !Collaborators}.

Lemma appends_run {A} (P : Event -> Prop) (m : M A) s r s' :
  appends P m -> m s = (r, s') ->
  exists calls, trace s' = trace s ++ calls /\ Forall P calls.
Proof. intros Hm Heq. specialize (Hm s). now rewrite Heq in Hm. Qed.

Lemma resolveKit_run (ref : ObjectReference) (kit : IntegrationKit)
    (s : State) :
  GetIntegrationKit (refName ref) (refNamespace ref) = inr kit ->
  resolveKit ref s
  = (inr kit,
     {| integration := integration s;
        trace := trace s
                 ++ [EvGetIntegrationKit (refName ref) (refNamespace ref)]
     |}).
Proof.
  intros Hget. unfold resolveKit, bind, emit. simpl. now rewrite Hget.
Qed.

Lemma resolveKit_keeps (ref : ObjectReference) s r s' :
  resolveKit ref s = (r, s') -> integration s' = integration s.
Proof.
  unfold resolveKit, bind, emit, throw, ret. simpl.
  destruct (GetIntegrationKit _ _); intros Heq; now inversion Heq.
Qed.

Lemma upgradeKit_run (kit : IntegrationKit) (req : Requirement)
    (kits : list IntegrationKit) (found : option IntegrationKit)
    (s : State) :
  let priority :=
    default "0" (kitLabels kit !! IntegrationKitPriorityLabel) in
  NewRequirement IntegrationKitPriorityLabel priority = inr req ->
  lookupKitsForIntegration (integration s) [req] = inr kits ->
  findHighestPriorityReadyKit kits = inr found ->
  upgradeKit kit s
  = (inr tt,
     match found with
     | Some k =>
         {| integration := SetIntegrationKit (integration s) k;
            trace := trace s
                     ++ [EvNewRequirement IntegrationKitPriorityLabel
                           priority;
                         EvLookupKits [req];
                         EvSetIntegrationKit k] |}
     | None =>
         {| integration := integration s;
            trace := trace s
                     ++ [EvNewRequirement IntegrationKitPriorityLabel
                           priority;
                         EvLookupKits [req]] |}
     end).
Proof.
  intros priority Hreq Hlookup Hfind.
  unfold upgradeKit, bind, emit, try, getIntegration, modify, ret. simpl.
  fold priority. rewrite Hreq. simpl. rewrite Hlookup. simpl.
  rewrite Hfind. simpl.
  destruct found; simpl; now rewrite <- !app_assoc.
Qed.

Lemma upgradeKit_failure_keeps (kit : IntegrationKit) s e s' :
  upgradeKit kit s = (inl e, s') -> integration s' = integration s.
Proof.
  unfold upgradeKit, bind, emit, try, getIntegration, modify, ret, throw.
  simpl.
  destruct (NewRequirement _ _) as [e1|req]; simpl;
    [intros Heq; now inversion Heq|].
  destruct (lookupKitsForIntegration _ _) as [e2|kits]; simpl;
    [intros Heq; now inversion Heq|].
  destruct (findHighestPriorityReadyKit kits) as [e3|[k|]]; simpl;
    intros Heq; now inversion Heq.
Qed.

Lemma applyTraits_run (kit : IntegrationKit) (s : State) :
  applyTraits kit s
  = (match snd (trait_Apply (integration s) kit) with
     | Some err => inl err
     | None => inr tt
     end,
     {| integration := fst (trait_Apply (integration s) kit);
        trace := trace s ++ [EvTraitApply (integration s) kit] |}).
Proof.
  unfold applyTraits, bind, emit, getIntegration, modify, throw, ret. simpl.
  now destruct (snd (trait_Apply (integration s) kit)).
Qed.

(** A run of lines 78 to 147 either fails with the workload as it was,
    or has called the trait subsystem. *)
Lemma syncStatus_cases (ref : ObjectReference) s r s1 :
  syncStatus ref s = (r, s1) ->
  ((exists e, r = inl e) /\ integration s1 = integration s)
  \/ exists i0 kit, In (EvTraitApply i0 kit) (trace s1).
Proof.
  intros H. unfold syncStatus in H.
  destruct (resolveKit ref s) as [[e1|kit] sa] eqn:Hres.
  { rewrite (bind_fail _ _ _ _ _ Hres) in H. inversion H; subst.
    left. split; [now exists e1|]. eapply resolveKit_keeps, Hres. }
  rewrite (bind_step _ _ _ _ _ Hres) in H.
  apply resolveKit_keeps in Hres.
  destruct (upgradeKit kit sa) as [[e2|[]] sb] eqn:Hup.
  { rewrite (bind_fail _ _ _ _ _ Hup) in H. inversion H; subst.
    left. split; [now exists e2|].
    apply upgradeKit_failure_keeps in Hup. congruence. }
  rewrite (bind_step _ _ _ _ _ Hup) in H.
  right. exists (integration sb), kit.
  pose proof (applyTraits_run kit sb) as Htr.
  destruct (snd (trait_Apply (integration sb) kit)) as [e3|].
  - rewrite (bind_fail _ _ _ _ _ Htr) in H. inversion H; subst. simpl.
    apply in_or_app. right. now left.
  - rewrite (bind_step _ _ _ _ _ Htr) in H.
    assert (Hrest : appends (fun _ => True)
              (bind publishSelector
                 (fun _ => bind updateReplicas (fun _ => reconcilePhase)))).
    { apply appends_bind;
        [exact (appends_weaken _ _ _ (fun _ _ => I) publishSelector_quiet)|].
      intros _. apply appends_bind;
        [exact (appends_weaken _ _ _ (fun _ _ => I) updateReplicas_quiet)|].
      intros _.
      exact (appends_weaken _ _ _ (fun _ _ => I) reconcilePhase_quiet). }
    destruct (appends_run _ _ _ _ _ Hrest H) as (calls & -> & _). simpl.
    apply in_or_app. left. apply in_or_app. right. now left.
Qed.
End PassFacts.

(** ** The claims about kits, traits, errors and replicas *)

Section PassClaims.
Context `{TM : TimeModel} `{AC : ApiConstants} `{CO : !Collaborators}.

(** Candidates that all lie above a bound priority that is not
    negative: selection succeeds, returns nothing exactly when no
    candidate is ready, and otherwise the first ready kit of highest
    priority, to which the workload is rebound. *)
Lemma upgradeKit_binds_above_bound (s : State) (kit : IntegrationKit)
    (b : Z) (req : Requirement) (kits : list IntegrationKit) :
  let priority :=
    default "0" (kitLabels kit !! IntegrationKitPriorityLabel) in
  Atoi priority = inr b ->
  0 <= b ->
  NewRequirement IntegrationKitPriorityLabel priority = inr req ->
  lookupKitsForIntegration (integration s) [req] = inr kits ->
  (forall k, In k kits ->
             exists p, Atoi (priorityLabel k) = inr p /\ b < p) ->
  exists found s',
    findHighestPriorityReadyKit kits = inr found
    /\ upgradeKit kit s = (inr tt, s')
    /\ match found with
       | None =>
           (forall k, In k kits -> kitReady k = false)
           /\ integration s' = integration s
       | Some k =>
           (exists l1 l2 p,
              kits = l1 ++ k :: l2
              /\ kitReady k = true
              /\ Atoi (priorityLabel k) = inr p
              /\ (forall k' p', In k' l1 -> kitReady k' = true ->
                    Atoi (priorityLabel k') = inr p' -> p' < p)
              /\ (forall k' p', In k' l2 -> kitReady k' = true ->
                    Atoi (priorityLabel k') = inr p' -> p' <= p))
           /\ integration s' = SetIntegrationKit (integration s) k
           /\ stIntegrationKit (intStatus (integration s'))
              = Some {| refNamespace := kitNamespace k;
                        refName := kitName k |}
       end.
Proof.
  intros priority Hb Hnonneg Hreq Hlookup Hcand.
  assert (Hparse : forall k, In k kits -> kitReady k = true ->
                     exists p, Atoi (priorityLabel k) = inr p).
  { intros k Hin _. destruct (Hcand k Hin) as (p & Hp & _). now exists p. }
  destruct (findHighestLoop_spec kits None 0 Hparse)
    as [[Hloop Hmax]|(l1 & k & l2 & p & Hsplit & Hk & Hp & Hgt & H1 & H2
                      & Hloop)];
    rewrite <- findHighestPriorityReadyKit_loop in Hloop.
  - exists None. eexists. split; [exact Hloop|].
    split; [exact (upgradeKit_run kit req kits None s Hreq Hlookup Hloop)|].
    split; [|reflexivity].
    intros k Hin. destruct (kitReady k) eqn:Hk; [|reflexivity].
    destruct (Hcand k Hin) as (p & Hp & Hlt).
    specialize (Hmax k p Hin Hk Hp). lia.
  - exists (Some k). eexists. split; [exact Hloop|].
    split;
      [exact (upgradeKit_run kit req kits (Some k) s Hreq Hlookup Hloop)|].
    split; [|split; reflexivity].
    exists l1, l2, p. repeat split; assumption.
Qed.

(** C4.  Take candidates that all carry a priority label strictly
    greater than the bound kit's priority (0 when the label is
    absent), the bound kit's priority being the value of a label,
    which does not begin with a minus sign.  Then selection succeeds;
    it returns nothing exactly when no candidate is ready, and the
    workload is then left as it was; otherwise it returns a ready kit
    whose priority no ready candidate exceeds and no earlier ready
    candidate reaches, and lines 102 to 104 make the workload's kit
    reference point to that kit. *)
Theorem upgradeKit_binds_highest_ready (s : State) (kit : IntegrationKit)
    (b : Z) (req : Requirement) (kits : list IntegrationKit) :
  let priority :=
    default "0" (kitLabels kit !! IntegrationKitPriorityLabel) in
  startsWithMinus priority = false ->
  Atoi priority = inr b ->
  NewRequirement IntegrationKitPriorityLabel priority = inr req ->
  lookupKitsForIntegration (integration s) [req] = inr kits ->
  (forall k, In k kits ->
             exists p, Atoi (priorityLabel k) = inr p /\ b < p) ->
  exists found s',
    findHighestPriorityReadyKit kits = inr found
    /\ upgradeKit kit s = (inr tt, s')
    /\ match found with
       | None =>
           (forall k, In k kits -> kitReady k = false)
           /\ integration s' = integration s
       | Some k =>
           (exists l1 l2 p,
              kits = l1 ++ k :: l2
              /\ kitReady k = true
              /\ Atoi (priorityLabel k) = inr p
              /\ (forall k' p', In k' l1 -> kitReady k' = true ->
                    Atoi (priorityLabel k') = inr p' -> p' < p)
              /\ (forall k' p', In k' l2 -> kitReady k' = true ->
                    Atoi (priorityLabel k') = inr p' -> p' <= p))
           /\ integration s' = SetIntegrationKit (integration s) k
           /\ stIntegrationKit (intStatus (integration s'))
              = Some {| refNamespace := kitNamespace k;
                        refName := kitName k |}
       end.
Proof.
  intros priority Hvalue Hb.
  exact (upgradeKit_binds_above_bound s kit b req kits Hb
           (Atoi_nonnegative priority b Hvalue Hb)).
Qed.

(** C5, as amended.  In a pass that finds a ready kit of higher
    priority and rebinds the workload to it, the trait subsystem is
    called once, with the workload as rebound and with the kit that
    was resolved from the reference bound at entry; an error it
    returns is what [Handle] returns. *)
Theorem Handle_applies_traits_with_resolved_kit (i : Integration)
    (ref : ObjectReference) (kit upgraded : IntegrationKit)
    (req : Requirement) (kits : list IntegrationKit) :
  let priority :=
    default "0" (kitLabels kit !! IntegrationKitPriorityLabel) in
  stIntegrationKit (intStatus i) = Some ref ->
  ComputeForIntegration i = inr (stDigest (intStatus i)) ->
  GetIntegrationKit (refName ref) (refNamespace ref) = inr kit ->
  NewRequirement IntegrationKitPriorityLabel priority = inr req ->
  lookupKitsForIntegration i [req] = inr kits ->
  findHighestPriorityReadyKit kits = inr (Some upgraded) ->
  let rebound := SetIntegrationKit i upgraded in
  (exists calls,
     trace (snd (run Handle i))
     = [EvComputeForIntegration;
        EvGetIntegrationKit (refName ref) (refNamespace ref);
        EvNewRequirement IntegrationKitPriorityLabel priority;
        EvLookupKits [req];
        EvSetIntegrationKit upgraded;
        EvTraitApply rebound kit] ++ calls
     /\ Forall notTraitApply calls)
  /\ forall err,
       snd (trait_Apply rebound kit) = Some err ->
       fst (run Handle i) = inl err.
Proof.
  intros priority Hkit Hdigest Hget Hreq Hlookup Hfind rebound.
  assert (Hrun : run Handle i
            = bind (bind (applyTraits kit)
                      (fun _ => bind publishSelector
                         (fun _ => bind updateReplicas
                            (fun _ => reconcilePhase))))
                (fun _ => bind mirrorReadiness (fun _ => checkDeployment))
                {| integration := rebound;
                   trace := [EvComputeForIntegration;
                             EvGetIntegrationKit (refName ref)
                               (refNamespace ref);
                             EvNewRequirement IntegrationKitPriorityLabel
                               priority;
                             EvLookupKits [req];
                             EvSetIntegrationKit upgraded] |}).
  { pose proof (resolveKit_run ref kit
                  {| integration := i;
                     trace := [EvComputeForIntegration] |} Hget) as H1.
    pose proof (upgradeKit_run kit req kits (Some upgraded)
                  {| integration := i;
                     trace := [EvComputeForIntegration;
                               EvGetIntegrationKit (refName ref)
                                 (refNamespace ref)] |}
                  Hreq Hlookup Hfind) as H2.
    unfold run, Handle, bind at 1, getIntegration. simpl. rewrite Hkit.
    unfold bind at 1, emit. simpl.
    unfold bind at 1. rewrite Hdigest. simpl.
    rewrite String.eqb_refl. simpl.
    unfold syncStatus, bind. simpl in H1. rewrite H1.
    simpl in H2. fold priority in H2. rewrite H2. reflexivity. }
  set (applied :=
         {| integration := fst (trait_Apply rebound kit);
            trace := [EvComputeForIntegration;
                      EvGetIntegrationKit (refName ref) (refNamespace ref);
                      EvNewRequirement IntegrationKitPriorityLabel priority;
                      EvLookupKits [req];
                      EvSetIntegrationKit upgraded;
                      EvTraitApply rebound kit] |}).
  assert (Hrun' : run Handle i
            = match snd (trait_Apply rebound kit) with
              | Some err => (inl err, applied)
              | None =>
                  bind (bind publishSelector
                          (fun _ => bind updateReplicas
                             (fun _ => reconcilePhase)))
                    (fun _ => bind mirrorReadiness
                       (fun _ => checkDeployment))
                    applied
              end).
  { rewrite Hrun. unfold bind at 1 2. rewrite applyTraits_run. simpl.
    now destruct (snd (trait_Apply rebound kit)). }
  rewrite Hrun'. split.
  - destruct (snd (trait_Apply rebound kit)) as [err|].
    + exists []. split; [reflexivity|constructor].
    + destruct (afterTraits_notTraitApply applied) as (calls & Ht & Hc).
      exists calls. now rewrite Ht.
  - intros err Herr. now rewrite Herr.
Qed.

(** C6, as amended.  A list of candidates with a ready kit whose
    priority label does not parse as an integer makes selection
    return the parse error of such a kit; the label of a candidate
    that is not ready is never read, so that selection over the
    whole list is selection over its ready kits. *)
Theorem findHighestPriorityReadyKit_malformed_ready
    (kits : list IntegrationKit) (k : IntegrationKit) (e : Error) :
  In k kits ->
  kitReady k = true ->
  Atoi (priorityLabel k) = inl e ->
  (exists k' e',
     In k' kits /\ kitReady k' = true
     /\ Atoi (priorityLabel k') = inl e'
     /\ findHighestPriorityReadyKit kits = inl e')
  /\ findHighestPriorityReadyKit kits
     = findHighestPriorityReadyKit (List.filter kitReady kits).
Proof.
  intros Hin Hk He. rewrite !findHighestPriorityReadyKit_loop. split.
  - exact (findHighestLoop_malformed kits None 0 k e Hin Hk He).
  - rewrite findHighestLoop_filter.
    clear. induction kits as [|x rest IH]; [reflexivity|]. simpl.
    destruct (kitReady x) eqn:Hx; [|exact IH]. simpl. now rewrite Hx.
Qed.

(** C7, as amended.  A pass that returns an error without having
    called the trait subsystem (no bound kit, digest failure, kit not
    found, requirement or candidate lookup failure, malformed
    priority) leaves the workload object exactly as it was at entry.
    An error returns no workload in any case. *)
Theorem Handle_error_before_traits_keeps_workload (i : Integration)
    (e : Error) (s' : State) :
  run Handle i = (inl e, s') ->
  Forall notTraitApply (trace s') ->
  integration s' = i.
Proof.
  intros Hrun Hquiet.
  assert (Hno : forall i0 kit, ~ In (EvTraitApply i0 kit) (trace s')).
  { intros i0 kit Hin.
    rewrite List.Forall_forall in Hquiet. specialize (Hquiet _ Hin).
    discriminate Hquiet. }
  unfold run, Handle, bind at 1, getIntegration in Hrun. simpl in Hrun.
  destruct (stIntegrationKit (intStatus i)) as [ref|];
    [|now inversion Hrun].
  unfold bind at 1, emit in Hrun. simpl in Hrun.
  unfold bind at 1 in Hrun.
  destruct (ComputeForIntegration i) as [e1|hash]; simpl in Hrun;
    [now inversion Hrun|].
  destruct (negb (String.eqb hash (stDigest (intStatus i)))).
  { unfold rebuild, bind, emit, modify, getIntegration in Hrun.
    discriminate Hrun. }
  apply bind_inl_inv in Hrun as [Hsync|([] & s1 & Hsync & Hrest)].
  - apply syncStatus_cases in Hsync as [[_ Hkeep]|(i0 & kit & Hin)];
      [exact Hkeep|now destruct (Hno i0 kit)].
  - apply syncStatus_cases in Hsync as [[[e1 He1] _]|(i0 & kit & Hin)];
      [discriminate|].
    assert (Htail : appends (fun _ => True)
              (bind mirrorReadiness (fun _ => checkDeployment))).
    { apply appends_bind;
        [exact (appends_weaken _ _ _ (fun _ _ => I)
                  mirrorReadiness_notTraitApply)|].
      intros _.
      exact (appends_weaken _ _ _ (fun _ _ => I) checkDeployment_quiet). }
    destruct (appends_run _ _ _ _ _ Htail Hrest) as (calls & Ht & _).
    destruct (Hno i0 kit). rewrite Ht. apply in_or_app. now left.
Qed.

(** C9, as amended.  A pass that finds the digest unchanged and
    returns a workload has listed the pending and the running pods of
    one workload, and whenever the number of pending pods plus the
    number of running pods without a deletion timestamp is at most
    2^31 - 1, that number is the replica count of the workload
    returned. *)
Theorem Handle_counts_replicas (i updated : Integration) (s' : State) :
  run Handle i = (inr updated, s') ->
  ComputeForIntegration i = inr (stDigest (intStatus i)) ->
  exists namespace name pendingPods runningPods,
    In (EvListPods namespace name PodPending) (trace s')
    /\ In (EvListPods namespace name PodRunning) (trace s')
    /\ ListPods namespace name PodPending = inr pendingPods
    /\ ListPods namespace name PodRunning = inr runningPods
    /\ (Z.of_nat (length pendingPods)
        + Z.of_nat (length (nonTerminating runningPods)) <= 2 ^ 31 - 1 ->
        stReplicas (intStatus updated)
        = Some (Z.of_nat (length pendingPods)
                + Z.of_nat (length (nonTerminating runningPods)))).
Proof.
  intros Hrun Hdigest.
  destruct (Handle_stores_podCount i updated s' Hrun Hdigest)
    as (namespace & name & pendingPods & runningPods
        & Hp & Hr & Hlp & Hlr & Hcount).
  exists namespace, name, pendingPods, runningPods.
  repeat split; try assumption.
  intros Hfits. rewrite Hcount, podCount_count, int32_small; [reflexivity|].
  lia.
Qed.

(** C10.  In the replica count of the workload returned, every pod of
    the pending list counts, whatever its deletion timestamp, while
    the running list counts only for its pods without a deletion
    timestamp: the count is the [int32] of the length of the pending
    list plus the number of running pods that are not terminating. *)
Theorem Handle_counts_every_pending_pod (i updated : Integration)
    (s' : State) :
  run Handle i = (inr updated, s') ->
  ComputeForIntegration i = inr (stDigest (intStatus i)) ->
  exists namespace name pendingPods runningPods,
    In (EvListPods namespace name PodPending) (trace s')
    /\ In (EvListPods namespace name PodRunning) (trace s')
    /\ ListPods namespace name PodPending = inr pendingPods
    /\ ListPods namespace name PodRunning = inr runningPods
    /\ stReplicas (intStatus updated)
       = Some (int32 (Z.of_nat (length pendingPods)
                      + Z.of_nat (length (nonTerminating runningPods)))).
Proof.
  intros Hrun Hdigest.
  destruct (Handle_stores_podCount i updated s' Hrun Hdigest)
    as (namespace & name & pendingPods & runningPods
        & Hp & Hr & Hlp & Hlr & Hcount).
  exists namespace, name, pendingPods, runningPods.
  repeat split; try assumption.
  now rewrite Hcount, podCount_count.
Qed.
End PassClaims.

(** ** The time to first readiness *)

Section ReadinessFacts.
Context `{TM : TimeModel} `{AC : ApiConstants} `{CO : !Collaborators}.

Lemma firstReadiness_iff (previous next : option IntegrationCondition)
    (t : Time) :
  firstReadiness previous next = Some t
  <-> neverTruthy previous /\ truthyAt next t.
Proof.
  unfold firstReadiness. split.
  - destruct next as [n|]; [|discriminate].
    destruct (bool_decide_reflect (condStatus n = ConditionTrue)) as [Hs|Hs];
      [|rewrite andb_false_r; discriminate].
    rewrite andb_true_r.
    destruct (timeSet (condFirstTruthyTime n)) eqn:Hn;
      [|rewrite andb_false_r; discriminate].
    rewrite andb_true_r.
    assert (Hat : forall t, condFirstTruthyTime n = Some t -> truthyAt (Some n) t).
    { intros u Hu. exists n. repeat split; try assumption.
      unfold timeSet in Hn. rewrite Hu in Hn.
      now apply negb_true_iff in Hn. }
    destruct previous as [p|].
    + destruct (timeSet (condFirstTruthyTime p)) eqn:Hp; simpl;
        [discriminate|].
      intros Heq. split; [right; now exists p|now apply Hat].
    + simpl. intros Heq. split; [now left|now apply Hat].
  - intros [Hprev (n & -> & Hs & Hv & Hz)].
    rewrite (bool_decide_eq_true_2 _ Hs), Hv. unfold timeSet at 2.
    rewrite Hz. simpl. rewrite !andb_true_r.
    destruct Hprev as [->|(p & -> & Hp)]; [reflexivity|].
    now rewrite Hp.
Qed.

(** The state line 149 to 160 lead to, and the calls they add. *)
Lemma mirrorReadiness_run (s : State) :
  let mirrored :=
    updStatus (setConditionList (MirrorReadyCondition (integration s)))
      (integration s) in
  let previous :=
    GetCondition (intStatus (integration s)) IntegrationConditionReady in
  let next := GetCondition (intStatus mirrored) IntegrationConditionReady in
  mirrorReadiness s
  = (inr tt,
     {| integration := mirrored;
        trace :=
          trace s
          ++ EvMirrorReadyCondition
             :: match firstReadiness previous next with
                | Some t =>
                    let d :=
                      Sub t (stInitializationTimestamp
                               (intStatus (integration s))) in
                    [EvInfof "First readiness after %s" d; EvObserve d]
                | None => []
                end |}).
Proof.
  unfold mirrorReadiness, bind, getIntegration, emit, modify, ret. simpl.
  destruct (firstReadiness _ _); simpl; now rewrite <- ?app_assoc.
Qed.

Lemma filter_notObserve (calls : list Event) :
  Forall notObserve calls -> List.filter isObserve calls = [].
Proof.
  induction 1 as [|e rest He _ IH]; [reflexivity|].
  simpl. unfold notObserve in He. now rewrite He.
Qed.

Lemma observations_app (l1 l2 : list Event) :
  observations (l1 ++ l2) = (observations l1 + observations l2)%nat.
Proof. unfold observations. now rewrite List.filter_app, length_app. Qed.

Lemma observations_notObserve (calls : list Event) :
  Forall notObserve calls -> observations calls = 0%nat.
Proof. intros H. unfold observations. now rewrite filter_notObserve. Qed.

Lemma observations_In (calls : list Event) :
  (0 < observations calls)%nat -> exists d, In (EvObserve d) calls.
Proof.
  unfold observations. induction calls as [|e rest IH]; simpl; [lia|].
  destruct e; simpl; intros H;
    try (destruct (IH H) as [d0 Hd]; exists d0; now right).
  exists d. now left.
Qed.

Lemma In_observations (calls : list Event) d :
  In (EvObserve d) calls -> Forall notObserve calls -> False.
Proof.
  intros Hin Hall. rewrite List.Forall_forall in Hall.
  specialize (Hall _ Hin). discriminate Hall.
Qed.

(** A pass that gets to line 149 goes on with the mirroring and the
    check of the deployment. *)
Lemma Handle_mirrors (i : Integration) (s : State) :
  reachesMirroring i s ->
  run Handle i = checkDeployment (snd (mirrorReadiness s)).
Proof.
  intros (ref & Hkit & Hdigest & Hsync).
  unfold run, Handle, bind at 1, getIntegration. simpl. rewrite Hkit.
  unfold bind at 1, emit. simpl.
  unfold bind at 1. rewrite Hdigest. simpl.
  rewrite String.eqb_refl. simpl.
  rewrite (bind_step _ _ _ _ _ Hsync).
  unfold bind. now rewrite mirrorReadiness_run.
Qed.

(** A pass gets to line 149, or it observes nothing. *)
Lemma Handle_mirrors_or_quiet (i : Integration) :
  (exists s, reachesMirroring i s)
  \/ Forall notObserve (trace (snd (run Handle i))).
Proof.
  unfold run, Handle, bind at 1, getIntegration. simpl.
  destruct (stIntegrationKit (intStatus i)) as [ref|] eqn:Hkit;
    [|right; constructor].
  unfold bind at 1, emit. simpl. unfold bind at 1.
  destruct (ComputeForIntegration i) as [e|hash] eqn:Hdigest; simpl;
    [right; repeat constructor|].
  destruct (String.eqb_spec hash (stDigest (intStatus i))) as [->|Hne];
    simpl; [|right; repeat constructor].
  destruct (syncStatus ref {| integration := i;
                              trace := [EvComputeForIntegration] |})
    as [[e|[]] s1] eqn:Hsync.
  - right. rewrite (bind_fail _ _ _ _ _ Hsync). simpl.
    destruct (appends_run _ _ _ _ _ (syncStatus_notObserve ref) Hsync)
      as (calls & -> & Hcalls).
    simpl. constructor; [reflexivity|assumption].
  - left. exists s1, ref. now repeat split.
Qed.

(** The calls of a pass that gets to line 149 in state [s]. *)
Lemma Handle_mirrors_trace (i : Integration) (s : State) :
  reachesMirroring i s ->
  exists after,
    trace (snd (run Handle i)) = trace (snd (mirrorReadiness s)) ++ after
    /\ Forall notObserve (trace s)
    /\ Forall notObserve after.
Proof.
  intros Hreach. rewrite (Handle_mirrors _ _ Hreach).
  destruct (checkDeployment_quiet (snd (mirrorReadiness s)))
    as (after & Ht & Hafter).
  exists after. rewrite Ht. repeat split.
  - destruct Hreach as (ref & _ & _ & Hsync).
    destruct (appends_run _ _ _ _ _ (syncStatus_notObserve ref) Hsync)
      as (calls & -> & Hcalls).
    simpl. constructor; [reflexivity|assumption].
  - eapply List.Forall_impl; [|exact Hafter].
    intros e He. apply He.
Qed.

(** *** Passes entered with a first-truthy time *)

Lemma calm_ret {A} (a : A) : calm (ret a).
Proof.
  intros s Ha. split; [exact Ha|]. exists []. simpl.
  now rewrite app_nil_r.
Qed.

Lemma calm_throw {A} (e : Error) : calm (@throw _ A e).
Proof.
  intros s Ha. split; [exact Ha|]. exists []. simpl.
  now rewrite app_nil_r.
Qed.

Lemma calm_try {A} (r : Error + A) : calm (try r).
Proof. destruct r; [apply calm_throw|apply calm_ret]. Qed.

Lemma calm_getIntegration : calm getIntegration.
Proof.
  intros s Ha. split; [exact Ha|]. exists []. simpl.
  now rewrite app_nil_r.
Qed.

Lemma calm_emit (e : Event) : notObserve e -> calm (emit e).
Proof.
  intros He s Ha. split; [exact Ha|]. exists [e]. simpl. auto.
Qed.

Lemma calm_modify f :
  (forall i, readyAnchored i = true -> readyAnchored (f i) = true) ->
  calm (modify f).
Proof.
  intros Hf s Ha. split; [now apply Hf|]. exists []. simpl.
  now rewrite app_nil_r.
Qed.

Lemma calm_bind {A B} (m : M A) (k : A -> M B) :
  calm m -> (forall a, calm (k a)) -> calm (bind m k).
Proof.
  intros Hm Hk s Ha. unfold bind.
  destruct (Hm s Ha) as (Ha1 & c1 & Ht1 & Hc1).
  destruct (m s) as [[e|a] s1]; simpl in *.
  - split; [exact Ha1|]. now exists c1.
  - destruct (Hk a s1 Ha1) as (Ha2 & c2 & Ht2 & Hc2).
    split; [exact Ha2|].
    exists (c1 ++ c2). rewrite Ht2, Ht1, app_assoc.
    split; [reflexivity|]. apply Forall_app. now split.
Qed.

Lemma SetConditions_ready_anchored (c : IntegrationCondition)
    (i : Integration) :
  condType c = IntegrationConditionReady ->
  readyAnchored i = true ->
  readyAnchored (updStatus (fun st => SetConditions Now st [c]) i) = true.
Proof.
  unfold readyAnchored. intros Hty.
  destruct (GetCondition (intStatus i) IntegrationConditionReady)
    as [old|] eqn:Hold; [|discriminate].
  intros Hset. simpl.
  rewrite <- Hty in Hold.
  destruct (SetCondition_keeps_firstTruthyTime Now (intStatus i) c old
              Hold Hset) as (c' & Hget & Hftt).
  rewrite Hty in Hget. rewrite Hget, Hftt. exact Hset.
Qed.
End ReadinessFacts.

Ltac calm_steps :=
  repeat first
    [ apply calm_ret
    | apply calm_throw
    | apply calm_try
    | apply calm_getIntegration
    | apply calm_emit; reflexivity
    | apply calm_modify; intros ? ?; assumption
    | apply calm_modify; intros ? ?;
      apply SetConditions_ready_anchored; [reflexivity|assumption]
    | apply calm_bind; [|intros ?; cbv beta]
    | match goal with
      | |- calm (match ?x with _ => _ end) => destruct x
      end ].

Section LifetimeFacts.
Context `{TM : TimeModel} `{AC : ApiConstants}.

Lemma calm_mirrorReadiness (CO : Collaborators) :
  keepsAnchor CO -> calm mirrorReadiness.
Proof.
  intros (_ & _ & Hmirror) s Ha. rewrite mirrorReadiness_run. simpl.
  split; [now apply Hmirror|].
  assert (Hnone : firstReadiness
                    (GetCondition (intStatus (integration s))
                       IntegrationConditionReady)
                    (GetCondition
                       (intStatus
                          (updStatus
                             (setConditionList
                                (MirrorReadyCondition (integration s)))
                             (integration s)))
                       IntegrationConditionReady) = None).
  { unfold firstReadiness, readyAnchored in *.
    destruct (GetCondition (intStatus (integration s))
                IntegrationConditionReady) as [p|]; [|discriminate].
    rewrite Ha. simpl. now destruct (GetCondition _ _). }
  simpl in Hnone. rewrite Hnone.
  exists [EvMirrorReadyCondition]. split; [reflexivity|].
  repeat constructor.
Qed.

Lemma calm_Handle (CO : Collaborators) : keepsAnchor CO -> calm Handle.
Proof.
  intros Hkeep. pose proof Hkeep as (Hinit & Htraits & _).
  unfold Handle, rebuild, syncStatus, resolveKit, upgradeKit, applyTraits,
    publishSelector, updateReplicas, listPods, reconcilePhase.
  apply calm_bind; [apply calm_getIntegration|]. intros i.
  destruct (stIntegrationKit (intStatus i)); [|apply calm_throw].
  apply calm_bind; [apply calm_emit; reflexivity|]. intros _.
  apply calm_bind; [apply calm_try|]. intros hash.
  destruct (negb (String.eqb hash (stDigest (intStatus i)))).
  - apply calm_bind; [apply calm_emit; reflexivity|]. intros _.
    apply calm_bind; [apply calm_emit; reflexivity|]. intros _.
    apply calm_bind; [apply calm_modify; exact Hinit|]. intros _.
    calm_steps.
  - apply calm_bind.
    + apply calm_bind; [calm_steps|]. intros kit.
      apply calm_bind; [calm_steps|]. intros _.
      apply calm_bind.
      * apply calm_bind; [apply calm_getIntegration|]. intros i0.
        apply calm_bind; [apply calm_emit; reflexivity|]. intros _.
        apply calm_bind;
          [apply calm_modify; intros i1 Hi1; now apply Htraits|].
        intros _. calm_steps.
      * intros _. calm_steps.
    + intros _.
      apply calm_bind; [now apply calm_mirrorReadiness|]. intros _.
      unfold checkDeployment. calm_steps.
Qed.

(** A pass that returns a workload returns the object it worked on. *)
Lemma Handle_returns (CO : Collaborators) (i updated : Integration)
    (s' : State) :
  run Handle i = (inr updated, s') -> updated = integration s'.
Proof.
  unfold run, Handle, bind at 1, getIntegration. simpl.
  destruct (stIntegrationKit (intStatus i)); [|discriminate].
  unfold bind at 1, emit. simpl. unfold bind at 1.
  destruct (ComputeForIntegration i); simpl; [discriminate|].
  destruct (negb (String.eqb _ _)).
  - unfold rebuild, bind, emit, modify, getIntegration. simpl.
    intros Heq. now inversion Heq.
  - intros Hrun.
    apply bind_inr_inv in Hrun as (_ & s1 & _ & Hrun).
    apply bind_inr_inv in Hrun as (_ & s2 & _ & Hrun).
    now apply checkDeployment_returns in Hrun.
Qed.

(** A pass entered with a first-truthy time on the Ready condition
    stores a workload that still has one, and observes nothing. *)
Lemma reconcile_calm (CO : Collaborators) (stored : Integration) :
  keepsAnchor CO ->
  readyAnchored stored = true ->
  readyAnchored (fst (reconcile CO stored)) = true
  /\ observations (snd (reconcile CO stored)) = 0%nat.
Proof.
  intros Hkeep Ha. unfold reconcile.
  destruct (CanHandle stored); [|now split].
  destruct (calm_Handle CO Hkeep {| integration := stored; trace := [] |} Ha)
    as (Hafter & calls & Ht & Hcalls).
  fold (run Handle stored) in *.
  destruct (run Handle stored) as [[e|updated] s] eqn:Hrun; simpl in *.
  - split; [exact Ha|]. rewrite Ht. now apply observations_notObserve.
  - rewrite (Handle_returns CO _ _ _ Hrun).
    split; [exact Hafter|]. rewrite Ht. now apply observations_notObserve.
Qed.

Lemma lifetime_calm (passes : list Collaborators) :
  forall stored,
    Forall keepsAnchor passes ->
    readyAnchored stored = true ->
    Forall (fun calls => observations calls = 0%nat)
      (lifetime passes stored).
Proof.
  induction passes as [|CO rest IH]; intros stored Hkeep Ha; simpl;
    [constructor|].
  inversion Hkeep as [|? ? Hco Hrest]; subst.
  destruct (reconcile_calm CO stored Hco Ha) as [Ha' Hobs].
  destruct (reconcile CO stored) as [stored' calls]. simpl in *.
  constructor; [exact Hobs|]. now apply IH.
Qed.
End LifetimeFacts.

Section ReadinessClaim.
Context `{TM : TimeModel} `{AC : ApiConstants} `{CO : !Collaborators}.

(** The observations of a pass that gets to line 149 in state [s]. *)
Lemma Handle_mirrors_observations (i : Integration) (s : State) :
  reachesMirroring i s ->
  let mirrored :=
    updStatus (setConditionList (MirrorReadyCondition (integration s)))
      (integration s) in
  observations (trace (snd (run Handle i)))
  = match firstReadiness
            (GetCondition (intStatus (integration s))
               IntegrationConditionReady)
            (GetCondition (intStatus mirrored) IntegrationConditionReady)
    with
    | Some _ => 1%nat
    | None => 0%nat
    end.
Proof.
  intros Hreach mirrored.
  destruct (Handle_mirrors_trace i s Hreach) as (after & -> & Hs & Hafter).
  rewrite mirrorReadiness_run. simpl.
  rewrite !observations_app, (observations_notObserve _ Hs),
    (observations_notObserve _ Hafter).
  fold mirrored. now destruct (firstReadiness _ _).
Qed.

(** A pass that observes the metric and returns a workload returns it
    with a first-truthy time on the Ready condition. *)
Lemma Handle_observed_anchors (i updated : Integration) (s' : State) :
  run Handle i = (inr updated, s') ->
  (0 < observations (trace s'))%nat ->
  readyAnchored updated = true.
Proof.
  intros Hrun Hobs.
  destruct (Handle_mirrors_or_quiet i) as [[s Hreach]|Hquiet].
  - pose proof (Handle_mirrors_observations i s Hreach) as Hcount.
    rewrite Hrun in Hcount. simpl in Hcount.
    destruct (firstReadiness _ _) as [t|] eqn:Hfirst; [|lia].
    apply firstReadiness_iff in Hfirst as [_ (n & Hn & _ & Ht & Hz)].
    rewrite (Handle_mirrors _ _ Hreach) in Hrun.
    rewrite (checkDeployment_returns _ _ _ Hrun).
    assert (Hcalm : calm checkDeployment)
      by (unfold checkDeployment; calm_steps).
    destruct (Hcalm (snd (mirrorReadiness s))) as [Ha _].
    + rewrite mirrorReadiness_run. simpl. unfold readyAnchored.
      simpl in Hn |- *. rewrite Hn. unfold timeSet. now rewrite Ht, Hz.
    + now rewrite Hrun in Ha.
  - rewrite Hrun in Hquiet. simpl in Hquiet.
    rewrite (observations_notObserve _ Hquiet) in Hobs. lia.
Qed.

(** C8, as amended.  A pass observes the time to first readiness with
    value [d] exactly when it gets to the mirroring of the ready
    condition with the Ready condition never true before, finds it
    True with a first-truthy time [t] after the mirroring, and [d] is
    [t] minus the initialization timestamp; a pass observes at most
    once.  When such a pass returns its workload, so that it is
    stored, no later pass observes again, as long as no collaborator
    of the later passes clears a first-truthy time.  Passes that
    observe and then fail are not covered: their workload is not
    stored. *)
Theorem first_readiness_observed (i : Integration)
    (later : list Collaborators) :
  Forall keepsAnchor later ->
  (forall d,
     In (EvObserve d) (trace (snd (run Handle i)))
     <-> exists s t,
           reachesMirroring i s
           /\ neverTruthy
                (GetCondition (intStatus (integration s))
                   IntegrationConditionReady)
           /\ truthyAt
                (GetCondition
                   (setConditionList (MirrorReadyCondition (integration s))
                      (intStatus (integration s)))
                   IntegrationConditionReady) t
           /\ d = Sub t (stInitializationTimestamp
                           (intStatus (integration s))))
  /\ (observations (trace (snd (run Handle i))) <= 1)%nat
  /\ forall updated s',
       run Handle i = (inr updated, s') ->
       (0 < observations (trace s'))%nat ->
       Forall (fun calls => observations calls = 0%nat)
         (lifetime later updated).
Proof.
  intros Hlater. split; [|split].
  - intros d. split.
    + intros Hin.
      destruct (Handle_mirrors_or_quiet i) as [[s Hreach]|Hquiet];
        [|now destruct (In_observations _ _ Hin Hquiet)].
      destruct (Handle_mirrors_trace i s Hreach)
        as (after & Ht & Hs & Hafter).
      rewrite Ht, mirrorReadiness_run in Hin. simpl in Hin.
      apply in_app_or in Hin as [Hin|Hin];
        [|now destruct (In_observations _ _ Hin Hafter)].
      apply in_app_or in Hin as [Hin|Hin];
        [now destruct (In_observations _ _ Hin Hs)|].
      destruct Hin as [Hin|Hin]; [discriminate|].
      destruct (firstReadiness _ _) as [t|] eqn:Hfirst; [|destruct Hin].
      apply firstReadiness_iff in Hfirst as [Hnever Htruthy].
      destruct Hin as [Hin|[Hin|[]]]; [discriminate|].
      inversion Hin; subst. now exists s, t.
    + intros (s & t & Hreach & Hnever & Htruthy & ->).
      destruct (Handle_mirrors_trace i s Hreach)
        as (after & Ht & _ & _).
      rewrite Ht, mirrorReadiness_run. simpl.
      assert (Hfirst := proj2 (firstReadiness_iff _ _ t)
                          (conj Hnever Htruthy)).
      simpl. rewrite Hfirst.
      apply in_or_app. left. apply in_or_app. right.
      right. right. now left.
  - destruct (Handle_mirrors_or_quiet i) as [[s Hreach]|Hquiet].
    + rewrite (Handle_mirrors_observations i s Hreach).
      destruct (firstReadiness _ _); lia.
    + rewrite (observations_notObserve _ Hquiet). lia.
  - intros updated s' Hrun Hobs.
    apply lifetime_calm; [exact Hlater|].
    exact (Handle_observed_anchors i updated s' Hrun Hobs).
Qed.
End ReadinessClaim.

(** * Further properties of the action *)

(** ** Selection, whatever the candidates *)

Section SelectionShape.
Context `{AC : ApiConstants}.

(** An error of the loop is the parse error of a ready kit. *)
Lemma findHighestLoop_error_origin (kits : list IntegrationKit) :
  forall kit priority e,
    findHighestLoop kits kit priority = inl e ->
    exists k,
      In k kits /\ kitReady k = true /\ Atoi (priorityLabel k) = inl e.
Proof.
  induction kits as [|x rest IH]; intros kit priority e; simpl;
    [discriminate|].
  destruct (kitReady x) eqn:Hx; simpl.
  - destruct (Atoi (priorityLabel x)) as [ex|px] eqn:Hax.
    + intros Heq. inversion Heq; subst. exists x. auto using in_eq.
    + destruct (priority <? px); intros Heq;
        destruct (IH _ _ _ Heq) as (k & Hin & Hk & Hp);
        exists k; auto using in_cons.
  - intros Heq. destruct (IH _ _ _ Heq) as (k & Hin & Hk & Hp).
    exists k. auto using in_cons.
Qed.

(** When the loop returns a kit or nothing, every ready kit parses. *)
Lemma findHighestLoop_ok_parses (kits : list IntegrationKit) kit priority r :
  findHighestLoop kits kit priority = inr r ->
  forall k, In k kits -> kitReady k = true ->
            exists p, Atoi (priorityLabel k) = inr p.
Proof.
  intros Hloop k Hin Hk.
  destruct (Atoi (priorityLabel k)) as [e|p] eqn:Hp; [|now exists p].
  destruct (findHighestLoop_malformed kits kit priority k e Hin Hk Hp)
    as (k' & e' & _ & _ & _ & Hl).
  congruence.
Qed.

(** The kit selected is ready, has a positive priority, and no ready
    candidate has a higher one. *)
Lemma findHighestPriorityReadyKit_some_max (kits : list IntegrationKit)
    (k : IntegrationKit) :
  findHighestPriorityReadyKit kits = inr (Some k) ->
  exists p,
    In k kits /\ kitReady k = true /\ Atoi (priorityLabel k) = inr p
    /\ 0 < p
    /\ forall k' p', In k' kits -> kitReady k' = true ->
          Atoi (priorityLabel k') = inr p' -> p' <= p.
Proof.
  rewrite findHighestPriorityReadyKit_loop. intros Hloop.
  destruct (findHighestLoop_spec kits None 0
              (findHighestLoop_ok_parses _ _ _ _ Hloop))
    as [[Hnone _]|(l1 & k0 & l2 & p & -> & Hk & Hp & Hgt & H1 & H2 & Hsome)];
    [congruence|].
  assert (k0 = k) by congruence. subst k0.
  exists p. repeat split; try assumption.
  - apply in_or_app. right. now left.
  - intros k' p' Hin Hk' Hp'.
    apply in_app_or in Hin as [Hin|[<-|Hin]].
    + specialize (H1 k' p' Hin Hk' Hp'). lia.
    + rewrite Hp in Hp'. inversion Hp'. lia.
    + exact (H2 k' p' Hin Hk' Hp').
Qed.

(** X1.  When selection returns a kit, the list splits around it: the
    kit is ready and its priority is positive, every ready kit before
    it has a strictly lower priority and every ready kit after it has
    no higher one. *)
Theorem findHighestPriorityReadyKit_selected (kits : list IntegrationKit)
    (k : IntegrationKit) :
  findHighestPriorityReadyKit kits = inr (Some k) ->
  exists l1 l2 p,
    kits = l1 ++ k :: l2
    /\ kitReady k = true
    /\ Atoi (priorityLabel k) = inr p
    /\ 0 < p
    /\ (forall k', In k' l1 -> kitReady k' = true ->
          exists p', Atoi (priorityLabel k') = inr p' /\ p' < p)
    /\ (forall k', In k' l2 -> kitReady k' = true ->
          exists p', Atoi (priorityLabel k') = inr p' /\ p' <= p).
Proof.
  rewrite findHighestPriorityReadyKit_loop. intros Hloop.
  pose proof (findHighestLoop_ok_parses _ _ _ _ Hloop) as Hparse.
  destruct (findHighestLoop_spec kits None 0 Hparse)
    as [[Hnone _]|(l1 & k0 & l2 & p & Hsplit & Hk & Hp & Hgt & H1 & H2
                   & Hsome)];
    [congruence|].
  assert (k0 = k) by congruence. subst k0.
  exists l1, l2, p. repeat split; try assumption.
  - intros k' Hin Hk'.
    destruct (Hparse k') as [p' Hp']; [|assumption|].
    + rewrite Hsplit. apply in_or_app. now left.
    + exists p'. split; [assumption|]. exact (H1 k' p' Hin Hk' Hp').
  - intros k' Hin Hk'.
    destruct (Hparse k') as [p' Hp']; [|assumption|].
    + rewrite Hsplit. apply in_or_app. right. now right.
    + exists p'. split; [assumption|]. exact (H2 k' p' Hin Hk' Hp').
Qed.

(** X2.  Selection returns an error exactly when some ready kit has a
    priority label that does not parse; kits that are not ready never
    make it fail. *)
Theorem findHighestPriorityReadyKit_fails_iff (kits : list IntegrationKit) :
  (exists e, findHighestPriorityReadyKit kits = inl e)
  <-> exists k e,
        In k kits /\ kitReady k = true /\ Atoi (priorityLabel k) = inl e.
Proof.
  rewrite findHighestPriorityReadyKit_loop. split.
  - intros [e He].
    destruct (findHighestLoop_error_origin kits None 0 e He)
      as (k & Hin & Hk & Hp).
    now exists k, e.
  - intros (k & e & Hin & Hk & Hp).
    destruct (findHighestLoop_malformed kits None 0 k e Hin Hk Hp)
      as (k' & e' & _ & _ & _ & Hl).
    now exists e'.
Qed.

(** X3.  Selection returns no kit, and no error, exactly when every
    ready kit has a priority that parses and is zero or negative; in
    particular when no kit is ready or the list is empty. *)
Theorem findHighestPriorityReadyKit_none_iff (kits : list IntegrationKit) :
  findHighestPriorityReadyKit kits = inr None
  <-> forall k, In k kits -> kitReady k = true ->
                exists p, Atoi (priorityLabel k) = inr p /\ p <= 0.
Proof.
  rewrite findHighestPriorityReadyKit_loop. split.
  - intros Hloop k Hin Hk.
    pose proof (findHighestLoop_ok_parses _ _ _ _ Hloop) as Hparse.
    destruct (Hparse k Hin Hk) as [p Hp]. exists p. split; [assumption|].
    destruct (findHighestLoop_spec kits None 0 Hparse)
      as [[_ Hmax]|(l1 & k0 & l2 & p0 & _ & _ & _ & _ & _ & _ & Hsome)];
      [exact (Hmax k p Hin Hk Hp)|congruence].
  - intros Hall.
    assert (Hparse : forall k, In k kits -> kitReady k = true ->
                       exists p, Atoi (priorityLabel k) = inr p).
    { intros k Hin Hk. destruct (Hall k Hin Hk) as (p & Hp & _).
      now exists p. }
    destruct (findHighestLoop_spec kits None 0 Hparse)
      as [[Hnone _]|(l1 & k0 & l2 & p0 & -> & Hk & Hp & Hgt & _)];
      [exact Hnone|].
    destruct (Hall k0) as (p & Hp' & Hle); [|assumption|].
    + apply in_or_app. right. now left.
    + rewrite Hp in Hp'. inversion Hp'. lia.
Qed.

(** X4.  The parsed priority of the kit selected does not depend on
    the order of the candidates: over any reordering of the list
    selection returns a kit whose label parses to the same integer.
    Which kit of a tie is returned depends on the order, and with it
    the text of the label: ["5"] and ["05"] are the same priority. *)
Theorem findHighestPriorityReadyKit_priority_of_permutation
    (kits kits' : list IntegrationKit) (k : IntegrationKit) :
  Permutation kits kits' ->
  findHighestPriorityReadyKit kits = inr (Some k) ->
  exists k' p,
    findHighestPriorityReadyKit kits' = inr (Some k')
    /\ Atoi (priorityLabel k) = inr p
    /\ Atoi (priorityLabel k') = inr p.
Proof.
  intros Hperm Hsel.
  destruct (findHighestPriorityReadyKit_some_max kits k Hsel)
    as (p & Hin & Hk & Hp & Hpos & Hmax).
  assert (Hparse' : forall x, In x kits' -> kitReady x = true ->
                      exists q, Atoi (priorityLabel x) = inr q).
  { intros x Hx. rewrite findHighestPriorityReadyKit_loop in Hsel.
    apply (findHighestLoop_ok_parses _ _ _ _ Hsel).
    apply (Permutation_in _ (Permutation_sym Hperm) Hx). }
  destruct (findHighestLoop_spec kits' None 0 Hparse')
    as [[_ Hmax']|(l1 & k' & l2 & p' & Hsplit & Hk' & Hp' & Hgt & H1 & H2
                   & Hsome)].
  - specialize (Hmax' k p (Permutation_in _ Hperm Hin) Hk Hp). lia.
  - exists k', p. rewrite findHighestPriorityReadyKit_loop.
    split; [exact Hsome|]. split; [exact Hp|].
    assert (Hin' : In k' kits').
    { rewrite Hsplit. apply in_or_app. right. now left. }
    assert (p' <= p)
      by exact (Hmax k' p' (Permutation_in _ (Permutation_sym Hperm) Hin')
                  Hk' Hp').
    assert (p <= p').
    { pose proof (Permutation_in _ Hperm Hin) as Hink.
      rewrite Hsplit in Hink.
      apply in_app_or in Hink as [Hink|[<-|Hink]].
      - specialize (H1 k p Hink Hk Hp). lia.
      - rewrite Hp in Hp'. inversion Hp'. lia.
      - exact (H2 k p Hink Hk Hp). }
    rewrite Hp'. f_equal. lia.
Qed.
End SelectionShape.

(** ** Errors of a pass *)

Section ErrorFacts.
Context `{TM : TimeModel} `{AC : ApiConstants} `{CO : !Collaborators}.

Lemma raises_ret {A} (P : Error -> Prop) (a : A) : raises P (ret a).
Proof. intros s e s' Heq. discriminate Heq. Qed.

Lemma raises_getIntegration (P : Error -> Prop) : raises P getIntegration.
Proof. intros s e s' Heq. discriminate Heq. Qed.

Lemma raises_emit (P : Error -> Prop) (ev : Event) : raises P (emit ev).
Proof. intros s e s' Heq. discriminate Heq. Qed.

Lemma raises_modify (P : Error -> Prop) f : raises P (modify f).
Proof. intros s e s' Heq. discriminate Heq. Qed.

Lemma raises_bind {A B} (P : Error -> Prop) (m : M A) (k : A -> M B) :
  raises P m -> (forall a, raises P (k a)) -> raises P (bind m k).
Proof.
  intros Hm Hk s e s' Heq.
  apply bind_inl_inv in Heq as [Heq|(a & s1 & _ & Heq)].
  - exact (Hm _ _ _ Heq).
  - exact (Hk _ _ _ _ Heq).
Qed.

Lemma blames_never {A} (w : Integration) (m : M A) :
  raises (fun _ => False) m -> blames w m.
Proof. intros Hm s e s' Heq. destruct (Hm _ _ _ Heq). Qed.

Lemma blames_bind {A B} (w : Integration) (m : M A) (k : A -> M B) :
  blames w m -> (forall a, blames w (k a)) -> blames w (bind m k).
Proof.
  intros Hm Hk s e s' Heq.
  apply bind_inl_inv in Heq as [Heq|(a & s1 & _ & Heq)].
  - exact (Hm _ _ _ Heq).
  - exact (Hk _ _ _ _ Heq).
Qed.
End ErrorFacts.

(** Steps that return no error. *)
Ltac raises_steps :=
  repeat first
    [ apply raises_ret
    | apply raises_getIntegration
    | apply raises_emit
    | apply raises_modify
    | apply raises_bind; [|intros ?; cbv beta]
    | match goal with
      | |- raises _ (match ?x with _ => _ end) => destruct x eqn:?
      end ].

Section ErrorClaims.
Context `{TM : TimeModel} `{AC : ApiConstants} `{CO : !Collaborators}.

Lemma resolveKit_blames (w : Integration) (ref : ObjectReference) :
  blames w (resolveKit ref).
Proof.
  intros s e s'. unfold resolveKit, bind, emit, throw, ret. simpl.
  destruct (GetIntegrationKit (refName ref) (refNamespace ref))
    as [cause|kit] eqn:Hget; intros Heq; inversion Heq; subst.
  exists (trace s), (EvGetIntegrationKit (refName ref) (refNamespace ref)).
  split; [reflexivity|]. simpl. now exists cause.
Qed.

(** The candidates are looked up for the workload as it is when lines
    83 to 104 begin. *)
Lemma upgradeKit_blames (kit : IntegrationKit) (s : State) (e : Error)
    (s' : State) :
  upgradeKit kit s = (inl e, s') ->
  exists calls call,
    trace s' = calls ++ [call] /\ failureOf (integration s) call e.
Proof.
  unfold upgradeKit, bind, emit, try, getIntegration, modify, ret, throw.
  simpl.
  destruct (NewRequirement _ _) as [e1|req] eqn:Hreq; simpl.
  { intros Heq. inversion Heq; subst.
    eexists _, _. split; [reflexivity|exact Hreq]. }
  destruct (lookupKitsForIntegration (integration s) [req])
    as [e2|kits] eqn:Hlookup; simpl.
  { intros Heq. inversion Heq; subst.
    eexists _, (EvLookupKits [req]). split; [reflexivity|].
    simpl. now rewrite Hlookup. }
  destruct (findHighestPriorityReadyKit kits) as [e3|[k|]] eqn:Hfind; simpl;
    intros Heq; inversion Heq; subst.
  eexists _, (EvLookupKits [req]). split; [reflexivity|].
  simpl. now rewrite Hlookup.
Qed.

Lemma applyTraits_blames (w : Integration) (kit : IntegrationKit) :
  blames w (applyTraits kit).
Proof.
  intros s e s' Heq. rewrite applyTraits_run in Heq.
  destruct (snd (trait_Apply (integration s) kit)) as [err|] eqn:Htrait;
    inversion Heq; subst.
  exists (trace s), (EvTraitApply (integration s) kit).
  split; [reflexivity|exact Htrait].
Qed.

Lemma listPods_blames (w : Integration) (phase : PodPhase) :
  blames w (listPods phase).
Proof.
  intros s e s'. unfold listPods, bind, getIntegration, emit, try, throw, ret.
  simpl.
  destruct (ListPods _ _ phase) as [err|pods] eqn:Hlist; intros Heq;
    inversion Heq; subst.
  eexists _, _. split; [reflexivity|exact Hlist].
Qed.

Lemma checkDeployment_blames (w : Integration) : blames w checkDeployment.
Proof.
  intros s e s'.
  unfold checkDeployment, bind, getIntegration, emit, modify, try, ret, throw.
  simpl.
  destruct (IsConditionTrue _ _); simpl; [|discriminate].
  destruct (GetDeployment _ _) as [err|d] eqn:Hget; simpl.
  { intros Heq. inversion Heq; subst.
    eexists _, _. split; [reflexivity|exact Hget]. }
  destruct (stPhase (intStatus (integration s))); simpl; try discriminate.
  - destruct (runningLoop _ _ _ _) as [du pf].
    destruct (du && pf); discriminate.
  - destruct (errorLoop _ _ _) as [da po].
    destruct (da && po); discriminate.
Qed.

Lemma afterUpgrade_blames (w : Integration) (kit : IntegrationKit) :
  blames w
    (bind (applyTraits kit)
       (fun _ => bind publishSelector
          (fun _ => bind updateReplicas (fun _ => reconcilePhase)))).
Proof.
  apply blames_bind; [apply applyTraits_blames|intros _].
  apply blames_bind;
    [apply blames_never; unfold publishSelector; raises_steps|intros _].
  apply blames_bind;
    [|intros _; apply blames_never; unfold reconcilePhase; raises_steps].
  unfold updateReplicas.
  apply blames_bind; [apply listPods_blames|intros pendingPods].
  apply blames_bind; [apply listPods_blames|intros runningPods].
  apply blames_never. raises_steps.
Qed.

Lemma afterSync_blames (w : Integration) :
  blames w (bind mirrorReadiness (fun _ => checkDeployment)).
Proof.
  apply blames_bind;
    [apply blames_never; unfold mirrorReadiness; raises_steps|intros _].
  apply checkDeployment_blames.
Qed.

(** A workload without a bound kit is refused at once: [Handle]
    returns the error naming the workload, calls no collaborator, not
    even the digest, and leaves the workload as it is. *)
Lemma Handle_without_kit (i : Integration) :
  stIntegrationKit (intStatus i) = None ->
  run Handle i
  = (inl (Errorf "no kit set on integration %s" [intName i]),
     {| integration := i; trace := [] |}).
Proof.
  intros Hkit. unfold run, Handle, bind at 1, getIntegration. simpl.
  now rewrite Hkit.
Qed.

(** X5.  Every error [Handle] returns is the error about the missing
    kit, returned before any call is made, or the answer to the last
    call of the pass: the error the collaborator returned for that
    call, with the workload as entered for the digest and for the
    candidates; wrapped with namespace and name of the bound kit when
    the call is the lookup of that kit; the error of the selection
    over the candidates when their lookup succeeded.  No error is
    changed otherwise, none is invented, and no call follows the one
    that failed. *)
Theorem Handle_error_provenance (i : Integration) (e : Error) (s' : State) :
  run Handle i = (inl e, s') ->
  (stIntegrationKit (intStatus i) = None
   /\ e = Errorf "no kit set on integration %s" [intName i]
   /\ trace s' = [])
  \/ exists calls call,
       trace s' = calls ++ [call] /\ failureOf i call e.
Proof.
  intros Hrun.
  unfold run, Handle, bind at 1, getIntegration in Hrun. simpl in Hrun.
  destruct (stIntegrationKit (intStatus i)) as [ref|] eqn:Hkit;
    [|left; inversion Hrun; now repeat split].
  right.
  unfold bind at 1, emit in Hrun. simpl in Hrun.
  unfold bind at 1 in Hrun.
  destruct (ComputeForIntegration i) as [e1|hash] eqn:Hdigest;
    simpl in Hrun.
  { inversion Hrun; subst. exists [], EvComputeForIntegration.
    split; [reflexivity|exact Hdigest]. }
  destruct (negb (String.eqb hash (stDigest (intStatus i)))).
  { unfold rebuild, bind, emit, modify, getIntegration in Hrun.
    discriminate Hrun. }
  apply bind_inl_inv in Hrun as [Hsync|([] & s1 & _ & Hrest)];
    [|exact (afterSync_blames i _ _ _ Hrest)].
  unfold syncStatus in Hsync.
  apply bind_inl_inv in Hsync as [Hres|(kit & sa & Hres & Hafter)];
    [exact (resolveKit_blames i ref _ _ _ Hres)|].
  apply resolveKit_keeps in Hres. simpl in Hres.
  apply bind_inl_inv in Hafter as [Hup|([] & sb & _ & Hafter)];
    [|exact (afterUpgrade_blames i kit _ _ _ Hafter)].
  destruct (upgradeKit_blames kit sa e s' Hup) as (calls & call & Ht & Hf).
  rewrite Hres in Hf. now exists calls, call.
Qed.

Lemma upgradeKit_selection_fails (kit : IntegrationKit) (req : Requirement)
    (kits : list IntegrationKit) (e : Error) (s : State) :
  let priority :=
    default "0" (kitLabels kit !! IntegrationKitPriorityLabel) in
  NewRequirement IntegrationKitPriorityLabel priority = inr req ->
  lookupKitsForIntegration (integration s) [req] = inr kits ->
  findHighestPriorityReadyKit kits = inl e ->
  upgradeKit kit s
  = (inl e,
     {| integration := integration s;
        trace := trace s
                 ++ [EvNewRequirement IntegrationKitPriorityLabel priority;
                     EvLookupKits [req]] |}).
Proof.
  intros priority Hreq Hlookup Hfind.
  unfold upgradeKit, bind, emit, try, getIntegration, modify, ret, throw.
  simpl. fold priority. rewrite Hreq. simpl. rewrite Hlookup. simpl.
  rewrite Hfind. simpl. now rewrite <- !app_assoc.
Qed.

(** X6.  When the candidates of a pass contain a ready kit whose
    priority label does not parse, [Handle] returns the parse error of
    such a kit right after the candidate lookup: the workload is not
    rebound, no trait is applied, and the workload is as it was at
    entry. *)
Theorem Handle_malformed_candidate_aborts (i : Integration)
    (ref : ObjectReference) (kit k : IntegrationKit) (req : Requirement)
    (kits : list IntegrationKit) (e0 : Error) :
  let priority :=
    default "0" (kitLabels kit !! IntegrationKitPriorityLabel) in
  stIntegrationKit (intStatus i) = Some ref ->
  ComputeForIntegration i = inr (stDigest (intStatus i)) ->
  GetIntegrationKit (refName ref) (refNamespace ref) = inr kit ->
  NewRequirement IntegrationKitPriorityLabel priority = inr req ->
  lookupKitsForIntegration i [req] = inr kits ->
  In k kits ->
  kitReady k = true ->
  Atoi (priorityLabel k) = inl e0 ->
  exists k' e,
    In k' kits /\ kitReady k' = true /\ Atoi (priorityLabel k') = inl e
    /\ run Handle i
       = (inl e,
          {| integration := i;
             trace := [EvComputeForIntegration;
                       EvGetIntegrationKit (refName ref) (refNamespace ref);
                       EvNewRequirement IntegrationKitPriorityLabel priority;
                       EvLookupKits [req]] |}).
Proof.
  intros priority Hkit Hdigest Hget Hreq Hlookup Hin Hk Hp.
  destruct (findHighestLoop_malformed kits None 0 k e0 Hin Hk Hp)
    as (k' & e & Hin' & Hk' & Hp' & Hloop).
  rewrite <- findHighestPriorityReadyKit_loop in Hloop.
  exists k', e. repeat split; try assumption.
  pose proof (resolveKit_run ref kit
                {| integration := i;
                   trace := [EvComputeForIntegration] |} Hget) as H1.
  pose proof (upgradeKit_selection_fails kit req kits e
                {| integration := i;
                   trace := [EvComputeForIntegration;
                             EvGetIntegrationKit (refName ref)
                               (refNamespace ref)] |}
                Hreq Hlookup Hloop) as H2.
  unfold run, Handle, bind at 1, getIntegration. simpl. rewrite Hkit.
  unfold bind at 1, emit. simpl.
  unfold bind at 1. rewrite Hdigest. simpl.
  rewrite String.eqb_refl. simpl.
  unfold syncStatus, bind. simpl in H1. rewrite H1.
  simpl in H2. fold priority in H2. rewrite H2. reflexivity.
Qed.
End ErrorClaims.

(** ** What a pass keeps *)

Section KeepFacts.
Context `{TM : TimeModel} `{AC : ApiConstants} `{CO : !Collaborators}.

Lemma keeps_ret {A B} (f : Integration -> B) (a : A) : keeps f (ret a).
Proof. intros s. reflexivity. Qed.

Lemma keeps_throw {A B} (f : Integration -> B) (e : Error) :
  keeps f (@throw _ A e).
Proof. intros s. reflexivity. Qed.

Lemma keeps_try {A B} (f : Integration -> B) (r : Error + A) :
  keeps f (try r).
Proof. destruct r; intros s; reflexivity. Qed.

Lemma keeps_getIntegration {B} (f : Integration -> B) :
  keeps f getIntegration.
Proof. intros s. reflexivity. Qed.

Lemma keeps_emit {B} (f : Integration -> B) (e : Event) : keeps f (emit e).
Proof. intros s. reflexivity. Qed.

Lemma keeps_modify {B} (f : Integration -> B) g :
  (forall i, f (g i) = f i) -> keeps f (modify g).
Proof. intros Hg s. simpl. apply Hg. Qed.

Lemma keeps_bind {A B C} (f : Integration -> C) (m : M A) (k : A -> M B) :
  keeps f m -> (forall a, keeps f (k a)) -> keeps f (bind m k).
Proof.
  intros Hm Hk s. unfold bind. specialize (Hm s).
  destruct (m s) as [[e|a] s1]; simpl in *; [assumption|].
  now rewrite Hk.
Qed.

Lemma keeps_run {A B} (f : Integration -> B) (m : M A) s r s' :
  keeps f m -> m s = (r, s') -> f (integration s') = f (integration s).
Proof. intros Hm Heq. specialize (Hm s). now rewrite Heq in Hm. Qed.

Lemma bind_assoc {A B C} (m : M A) (k : A -> M B) (h : B -> M C) s :
  bind (bind m k) h s = bind m (fun a => bind (k a) h) s.
Proof. unfold bind. now destruct (m s) as [[e|a] s1]. Qed.
End KeepFacts.

Ltac keeps_steps :=
  repeat first
    [ apply keeps_ret
    | apply keeps_throw
    | apply keeps_try
    | apply keeps_getIntegration
    | apply keeps_emit
    | apply keeps_modify; intros ?; reflexivity
    | apply keeps_bind; [|intros ?; cbv beta]
    | match goal with
      | |- keeps _ (match ?x with _ => _ end) => destruct x
      end ].

Section PassInversion.
Context `{TM : TimeModel} `{AC : ApiConstants} `{CO : !Collaborators}.

(** With a bound kit and an unchanged digest a pass is lines 78 to 147,
    the mirroring and the check of the deployment. *)
Lemma Handle_unchanged_digest (i : Integration) (ref : ObjectReference) :
  stIntegrationKit (intStatus i) = Some ref ->
  ComputeForIntegration i = inr (stDigest (intStatus i)) ->
  run Handle i
  = bind (syncStatus ref)
      (fun _ => bind mirrorReadiness (fun _ => checkDeployment))
      {| integration := i; trace := [EvComputeForIntegration] |}.
Proof.
  intros Hkit Hdigest.
  unfold run, Handle, bind at 1, getIntegration. simpl. rewrite Hkit.
  unfold bind at 1, emit. simpl.
  unfold bind at 1. rewrite Hdigest. simpl.
  now rewrite String.eqb_refl.
Qed.

(** A pass that finds the digest unchanged and returns a workload got
    to the check of the deployment. *)
Lemma Handle_success_inv (i updated : Integration) (s' : State) :
  run Handle i = (inr updated, s') ->
  ComputeForIntegration i = inr (stDigest (intStatus i)) ->
  exists s,
    reachesDeploymentCheck i s /\ checkDeployment s = (inr updated, s').
Proof.
  intros Hrun Hdigest.
  destruct (stIntegrationKit (intStatus i)) as [ref|] eqn:Hkit.
  - rewrite (Handle_unchanged_digest i ref Hkit Hdigest) in Hrun.
    apply bind_inr_inv in Hrun as ([] & s1 & Hsync & Hrun).
    apply bind_inr_inv in Hrun as ([] & s2 & Hmirror & Hcheck).
    exists s2. split; [|exact Hcheck].
    exists s1. split; [|exact Hmirror]. now exists ref.
  - unfold run, Handle, bind at 1, getIntegration in Hrun. simpl in Hrun.
    rewrite Hkit in Hrun. discriminate Hrun.
Qed.

(** Lines 78 to 147 are lines 78 to 115 followed by the replica count
    and the phase. *)
Lemma syncStatus_from_replicaCount (i : Integration) (s : State) :
  reachesReplicaCount i s ->
  exists ref,
    stIntegrationKit (intStatus i) = Some ref
    /\ ComputeForIntegration i = inr (stDigest (intStatus i))
    /\ syncStatus ref {| integration := i;
                         trace := [EvComputeForIntegration] |}
       = bind updateReplicas (fun _ => reconcilePhase) s.
Proof.
  intros (ref & Hkit & Hdigest & Hpre). exists ref.
  split; [exact Hkit|]. split; [exact Hdigest|].
  unfold syncStatus.
  apply bind_inr_inv in Hpre as (kit & sa & Hres & Hpre).
  apply bind_inr_inv in Hpre as ([] & sb & Hup & Hpre).
  apply bind_inr_inv in Hpre as ([] & sc & Htr & Hsel).
  rewrite (bind_step _ _ _ _ _ Hres), (bind_step _ _ _ _ _ Hup),
    (bind_step _ _ _ _ _ Htr).
  now rewrite (bind_step _ _ _ _ _ Hsel).
Qed.

(** What the check of the deployment does to the phase. *)
Lemma checkDeployment_phase (s s' : State) (updated : Integration) :
  checkDeployment s = (inr updated, s') ->
  stPhase (intStatus updated) = stPhase (intStatus (integration s))
  \/ (stPhase (intStatus (integration s)) = IntegrationPhaseRunning
      /\ stPhase (intStatus updated) = IntegrationPhaseError)
  \/ (stPhase (intStatus (integration s)) = IntegrationPhaseError
      /\ stPhase (intStatus updated) = IntegrationPhaseRunning).
Proof.
  unfold checkDeployment, bind, getIntegration, emit, modify, try, ret, throw.
  simpl.
  destruct (IsConditionTrue _ _); simpl;
    [|intros Heq; inversion Heq; now left].
  destruct (GetDeployment _ _) as [e|d]; simpl; [discriminate|].
  destruct (stPhase (intStatus (integration s))) eqn:Hphase; simpl;
    try (intros Heq; inversion Heq; subst; simpl; now left).
  - destruct (runningLoop _ _ _ _) as [du pf].
    destruct (du && pf); simpl; intros Heq; inversion Heq; subst; simpl;
      [right; left; now split|now left].
  - destruct (errorLoop _ _ _) as [da po].
    destruct (da && po); simpl; intros Heq; inversion Heq; subst; simpl;
      [right; right; now split|now left].
Qed.

Lemma reconcilePhase_not_deploying (s s' : State) :
  reconcilePhase s = (inr tt, s') ->
  stPhase (intStatus (integration s')) <> IntegrationPhaseDeploying.
Proof.
  unfold reconcilePhase, bind, getIntegration, modify, ret. simpl.
  destruct (decide (stPhase (intStatus (integration s))
                    = IntegrationPhaseDeploying)) as [Heq|Hne];
    intros Hrun; inversion Hrun; subst; simpl; [discriminate|exact Hne].
Qed.

Lemma mirrorReadiness_keeps_phase :
  keeps (fun i => stPhase (intStatus i)) mirrorReadiness.
Proof. unfold mirrorReadiness. keeps_steps. Qed.
End PassInversion.

(** ** Phases and the check of the deployment *)

Section PhaseClaims.
Context `{TM : TimeModel} `{AC : ApiConstants} `{CO : !Collaborators}.

(** X7.  A pass that finds the digest unchanged and returns a workload
    never returns it in phase Deploying, whatever the traits did to
    the phase. *)
Theorem Handle_never_leaves_deploying (i updated : Integration)
    (s' : State) :
  run Handle i = (inr updated, s') ->
  ComputeForIntegration i = inr (stDigest (intStatus i)) ->
  stPhase (intStatus updated) <> IntegrationPhaseDeploying.
Proof.
  intros Hrun Hdigest.
  destruct (Handle_success_inv i updated s' Hrun Hdigest)
    as (s & (s1 & (ref & _ & _ & Hsync) & Hmirror) & Hcheck).
  unfold syncStatus in Hsync.
  apply bind_inr_inv in Hsync as (kit & sa & _ & Hsync).
  apply bind_inr_inv in Hsync as ([] & sb & _ & Hsync).
  apply bind_inr_inv in Hsync as ([] & sc & _ & Hsync).
  apply bind_inr_inv in Hsync as ([] & sd & _ & Hsync).
  apply bind_inr_inv in Hsync as ([] & se & _ & Hphase).
  apply reconcilePhase_not_deploying in Hphase.
  pose proof (keeps_run _ _ _ _ _ mirrorReadiness_keeps_phase Hmirror)
    as Hkeep.
  simpl in Hkeep. rewrite <- Hkeep in Hphase.
  destruct (checkDeployment_phase s s' updated Hcheck)
    as [Hsame|[[_ Herr]|[_ Hrun']]]; congruence.
Qed.

(** X8.  The check of the deployment moves the phase from Running to
    Error or from Error to Running, or leaves it alone: a pass that
    gets to the check in a phase the action can handle returns the
    workload in such a phase. *)
Theorem Handle_phase_transitions (i updated : Integration) (s s' : State) :
  reachesDeploymentCheck i s ->
  run Handle i = (inr updated, s') ->
  (stPhase (intStatus updated) = stPhase (intStatus (integration s))
   \/ (stPhase (intStatus (integration s)) = IntegrationPhaseRunning
       /\ stPhase (intStatus updated) = IntegrationPhaseError)
   \/ (stPhase (intStatus (integration s)) = IntegrationPhaseError
       /\ stPhase (intStatus updated) = IntegrationPhaseRunning))
  /\ (CanHandle (integration s) = true -> CanHandle updated = true).
Proof.
  intros Hreach Hrun. rewrite (Handle_reaches _ _ Hreach) in Hrun.
  pose proof (checkDeployment_phase s s' updated Hrun) as Hphase.
  split; [exact Hphase|].
  unfold CanHandle.
  destruct Hphase as [->|[[Hr ->]|[He ->]]]; [tauto| |]; intros _;
    reflexivity.
Qed.

(** When the deployment-available condition of the workload is
    not True after the mirroring, the deployment is not read and the
    pass returns the workload as the mirroring left it. *)
Lemma Handle_skips_deployment_check (i : Integration) (s : State) :
  reachesDeploymentCheck i s ->
  IsConditionTrue (integration s) IntegrationConditionDeploymentAvailable
  = false ->
  run Handle i = (inr (integration s), s).
Proof.
  intros Hreach Hcond. rewrite (Handle_reaches _ _ Hreach).
  unfold checkDeployment, bind, getIntegration. simpl. rewrite Hcond.
  now destruct s.
Qed.

Lemma runningLoop_replicas_available (cs : list DeploymentCondition)
    (available : Z) :
  1 <= available ->
  forall deployUnavailable,
    snd (runningLoop cs available deployUnavailable false) = false.
Proof.
  intros Hav. assert (Hlt : (available <? 1) = false) by now apply Z.ltb_ge.
  induction cs as [|c rest IH]; intros du; simpl; [reflexivity|].
  rewrite Hlt, andb_false_r.
  destruct (decide (dcType c = DeploymentProgressing)); apply IH.
Qed.

(** X9.  In phase Running the check never reports an error while the
    deployment has an available replica, whatever its conditions say:
    the pass reads the deployment and returns the workload as the
    mirroring left it. *)
Theorem Handle_running_with_available_replica (i : Integration) (s : State)
    (d : Deployment) :
  reachesDeploymentCheck i s ->
  stPhase (intStatus (integration s)) = IntegrationPhaseRunning ->
  IsConditionTrue (integration s) IntegrationConditionDeploymentAvailable
  = true ->
  GetDeployment (intName (integration s)) (intNamespace (integration s))
  = inr d ->
  1 <= depAvailableReplicas d ->
  run Handle i
  = (inr (integration s),
     {| integration := integration s;
        trace := trace s
                 ++ [EvGetDeployment (intName (integration s))
                       (intNamespace (integration s))] |}).
Proof.
  intros Hreach Hphase Hcond Hget Hav. rewrite (Handle_reaches _ _ Hreach).
  unfold checkDeployment, bind at 1, getIntegration. simpl.
  rewrite Hcond. unfold bind at 1, emit. simpl.
  unfold bind at 1. rewrite Hget. simpl. rewrite Hphase.
  pose proof (runningLoop_replicas_available (depConditions d)
                (depAvailableReplicas d) Hav false) as Hloop.
  destruct (runningLoop _ _ _ _) as [du pf]. simpl in Hloop. subst pf.
  now rewrite andb_false_r.
Qed.

Lemma runningLoop_without (cs : list DeploymentCondition) (available : Z) :
  forall deployUnavailable progressingFailing,
    ((forall c, In c cs -> dcType c <> DeploymentAvailable) ->
     fst (runningLoop cs available deployUnavailable progressingFailing)
     = deployUnavailable)
    /\ ((forall c, In c cs -> dcType c <> DeploymentProgressing) ->
        snd (runningLoop cs available deployUnavailable progressingFailing)
        = progressingFailing).
Proof.
  induction cs as [|c rest IH]; intros du pf; simpl; [now split|].
  split; intros Hno.
  - destruct (decide (dcType c = DeploymentAvailable)) as [Heq|_];
      [now destruct (Hno c (in_eq _ _))|].
    apply IH. auto using in_cons.
  - destruct (decide (dcType c = DeploymentProgressing)) as [Heq|_];
      [now destruct (Hno c (in_eq _ _))|].
    apply IH. auto using in_cons.
Qed.

Lemma errorLoop_without (cs : list DeploymentCondition) :
  forall deployAvailable progressingOk,
    ((forall c, In c cs -> dcType c <> DeploymentAvailable) ->
     fst (errorLoop cs deployAvailable progressingOk) = deployAvailable)
    /\ ((forall c, In c cs -> dcType c <> DeploymentProgressing) ->
        snd (errorLoop cs deployAvailable progressingOk) = progressingOk).
Proof.
  induction cs as [|c rest IH]; intros da po; simpl; [now split|].
  split; intros Hno.
  - destruct (decide (dcType c = DeploymentAvailable)) as [Heq|_];
      [now destruct (Hno c (in_eq _ _))|].
    apply IH. auto using in_cons.
  - destruct (decide (dcType c = DeploymentProgressing)) as [Heq|_];
      [now destruct (Hno c (in_eq _ _))|].
    apply IH. auto using in_cons.
Qed.

(** X10.  The check changes nothing unless the deployment lists both an
    Available and a Progressing condition: when one of the two types
    is missing, for instance when the deployment has no condition yet,
    the pass returns the workload as the mirroring left it, in phase
    Running as in phase Error. *)
Theorem Handle_needs_both_conditions (i : Integration) (s : State)
    (d : Deployment) :
  reachesDeploymentCheck i s ->
  IsConditionTrue (integration s) IntegrationConditionDeploymentAvailable
  = true ->
  GetDeployment (intName (integration s)) (intNamespace (integration s))
  = inr d ->
  (forall c, In c (depConditions d) -> dcType c <> DeploymentAvailable)
  \/ (forall c, In c (depConditions d) -> dcType c <> DeploymentProgressing) ->
  run Handle i
  = (inr (integration s),
     {| integration := integration s;
        trace := trace s
                 ++ [EvGetDeployment (intName (integration s))
                       (intNamespace (integration s))] |}).
Proof.
  intros Hreach Hcond Hget Hmissing. rewrite (Handle_reaches _ _ Hreach).
  unfold checkDeployment, bind at 1, getIntegration. simpl.
  rewrite Hcond. unfold bind at 1, emit. simpl.
  unfold bind at 1. rewrite Hget. simpl.
  destruct (stPhase (intStatus (integration s))); try reflexivity.
  - destruct (runningLoop_without (depConditions d)
                (depAvailableReplicas d) false false) as [Hfst Hsnd].
    destruct (runningLoop _ _ _ _) as [du pf]. simpl in *.
    destruct Hmissing as [Hno|Hno];
      [rewrite (Hfst Hno)|rewrite (Hsnd Hno), andb_false_r]; reflexivity.
  - destruct (errorLoop_without (depConditions d) false false)
      as [Hfst Hsnd].
    destruct (errorLoop _ _ _) as [da po]. simpl in *.
    destruct Hmissing as [Hno|Hno];
      [rewrite (Hfst Hno)|rewrite (Hsnd Hno), andb_false_r]; reflexivity.
Qed.
End PhaseClaims.

(** ** Selector, replicas and calls of a pass *)

Section StatusClaims.
Context `{TM : TimeModel} `{AC : ApiConstants} `{CO : !Collaborators}.

Lemma afterSelector_keeps :
  keeps nameAndSelector
    (bind (bind updateReplicas (fun _ => reconcilePhase))
       (fun _ => bind mirrorReadiness (fun _ => checkDeployment))).
Proof.
  unfold updateReplicas, listPods, reconcilePhase, mirrorReadiness,
    checkDeployment.
  keeps_steps.
Qed.

(** X11.  A pass that finds the digest unchanged and returns a workload
    returns it with the selector made of the integration label, an
    equals sign and the name of the workload returned. *)
Theorem Handle_publishes_selector (i updated : Integration) (s' : State) :
  run Handle i = (inr updated, s') ->
  ComputeForIntegration i = inr (stDigest (intStatus i)) ->
  stSelector (intStatus updated)
  = IntegrationLabel +:+ "=" +:+ intName updated.
Proof.
  intros Hrun Hdigest.
  destruct (stIntegrationKit (intStatus i)) as [ref|] eqn:Hkit.
  2:{ unfold run, Handle, bind at 1, getIntegration in Hrun. simpl in Hrun.
      rewrite Hkit in Hrun. discriminate Hrun. }
  pose proof (Handle_returns CO i updated s' Hrun) as Hret.
  rewrite (Handle_unchanged_digest i ref Hkit Hdigest) in Hrun.
  unfold syncStatus in Hrun.
  rewrite bind_assoc in Hrun.
  apply bind_inr_inv in Hrun as (kit & sa & _ & Hrun).
  rewrite bind_assoc in Hrun.
  apply bind_inr_inv in Hrun as ([] & sb & _ & Hrun).
  rewrite bind_assoc in Hrun.
  apply bind_inr_inv in Hrun as ([] & sc & _ & Hrun).
  rewrite bind_assoc in Hrun.
  apply bind_inr_inv in Hrun as ([] & sd & Hsel & Hrun).
  pose proof (keeps_run _ _ _ _ _ afterSelector_keeps Hrun) as Hkeep.
  unfold publishSelector, modify in Hsel. inversion Hsel; subst sd.
  unfold nameAndSelector in Hkeep. simpl in Hkeep.
  inversion Hkeep as [[Hname Hselector]]. subst updated.
  now rewrite Hselector, Hname.
Qed.

Lemma int32_range (z : Z) : - 2 ^ 31 <= int32 z <= 2 ^ 31 - 1.
Proof.
  unfold int32.
  pose proof (Z.mod_pos_bound (z + 2 ^ 31) (2 ^ 32) eq_refl). lia.
Qed.

Lemma nonTerminating_length (pods : list Pod) :
  (length (nonTerminating pods) <= length pods)%nat.
Proof. unfold nonTerminating. apply List.filter_length_le. Qed.

(** X12.  A pass that finds the digest unchanged and returns a workload
    returns it with a replica count that is set and lies within
    [int32]; when the pods of the two lists together are at most
    2^31 - 1, the count is at least the number of pending pods and at
    most the number of pods listed. *)
Theorem Handle_replicas_bounds (i updated : Integration) (s' : State) :
  run Handle i = (inr updated, s') ->
  ComputeForIntegration i = inr (stDigest (intStatus i)) ->
  exists namespace name pendingPods runningPods n,
    ListPods namespace name PodPending = inr pendingPods
    /\ ListPods namespace name PodRunning = inr runningPods
    /\ stReplicas (intStatus updated) = Some n
    /\ - 2 ^ 31 <= n <= 2 ^ 31 - 1
    /\ (Z.of_nat (length pendingPods) + Z.of_nat (length runningPods)
        <= 2 ^ 31 - 1 ->
        Z.of_nat (length pendingPods) <= n
        <= Z.of_nat (length pendingPods) + Z.of_nat (length runningPods)).
Proof.
  intros Hrun Hdigest.
  destruct (Handle_stores_podCount i updated s' Hrun Hdigest)
    as (namespace & name & pendingPods & runningPods
        & _ & _ & Hlp & Hlr & Hcount).
  exists namespace, name, pendingPods, runningPods,
    (podCount pendingPods runningPods).
  repeat (split; [assumption|]).
  split; [unfold podCount; apply int32_range|].
  intros Hfits. rewrite podCount_count.
  pose proof (nonTerminating_length runningPods).
  rewrite int32_small; lia.
Qed.

(** X13.  When one of the two pod lists cannot be read, [Handle]
    returns the error of the list call and the workload object stays
    as it was in front of line 117: no replica count is written and
    the phase is not advanced; the calls after line 115 are the list
    calls only, so nothing is mirrored and no deployment is read. *)
Theorem Handle_pod_list_failure (i : Integration) (s : State) (e : Error) :
  reachesReplicaCount i s ->
  ListPods (intNamespace (integration s)) (intName (integration s))
    PodPending = inl e
  \/ (exists pendingPods,
        ListPods (intNamespace (integration s)) (intName (integration s))
          PodPending = inr pendingPods
        /\ ListPods (intNamespace (integration s)) (intName (integration s))
             PodRunning = inl e) ->
  fst (run Handle i) = inl e
  /\ integration (snd (run Handle i)) = integration s
  /\ exists calls,
       trace (snd (run Handle i)) = trace s ++ calls
       /\ Forall (fun call => exists phase,
                    call = EvListPods (intNamespace (integration s))
                             (intName (integration s)) phase) calls.
Proof.
  intros Hreach Hfail.
  destruct (syncStatus_from_replicaCount i s Hreach)
    as (ref & Hkit & Hdigest & Hsync).
  assert (Hrun : run Handle i
            = bind (bind updateReplicas (fun _ => reconcilePhase))
                (fun _ => bind mirrorReadiness (fun _ => checkDeployment))
                s).
  { rewrite (Handle_unchanged_digest i ref Hkit Hdigest).
    unfold bind at 1. rewrite Hsync. reflexivity. }
  rewrite Hrun.
  unfold updateReplicas, listPods, bind, getIntegration, emit, try, throw,
    ret, modify.
  simpl.
  destruct Hfail as [Hp|(pendingPods & Hp & Hr)].
  - rewrite Hp. simpl. split; [reflexivity|]. split; [reflexivity|].
    exists [EvListPods (intNamespace (integration s))
              (intName (integration s)) PodPending].
    split; [reflexivity|]. repeat constructor. now exists PodPending.
  - rewrite Hp. simpl. rewrite Hr. simpl.
    split; [reflexivity|]. split; [reflexivity|].
    exists [EvListPods (intNamespace (integration s))
              (intName (integration s)) PodPending;
            EvListPods (intNamespace (integration s))
              (intName (integration s)) PodRunning].
    split; [now rewrite <- app_assoc|].
    repeat constructor; [now exists PodPending|now exists PodRunning].
Qed.
End StatusClaims.

(** ** Calls a pass makes at most once *)

Section CallClaims.
Context `{TM : TimeModel} `{AC : ApiConstants} `{CO : !Collaborators}.

Lemma traitCalls_app (l1 l2 : list Event) :
  traitCalls (l1 ++ l2) = (traitCalls l1 + traitCalls l2)%nat.
Proof. unfold traitCalls. now rewrite List.filter_app, length_app. Qed.

Lemma traitCalls_notTraitApply (calls : list Event) :
  Forall notTraitApply calls -> traitCalls calls = 0%nat.
Proof.
  unfold traitCalls. induction 1 as [|e rest He _ IH]; [reflexivity|].
  simpl. unfold notTraitApply in He. now rewrite He.
Qed.

Lemma atMost_of_appends {A} (m : M A) :
  appends notTraitApply m -> appliesTraitsAtMost 0 m.
Proof.
  intros Hm s. destruct (Hm s) as (calls & Ht & Hcalls).
  exists calls. split; [exact Ht|].
  now rewrite (traitCalls_notTraitApply _ Hcalls).
Qed.

Lemma atMost_of_quiet {A} (m : M A) :
  appends quiet m -> appliesTraitsAtMost 0 m.
Proof.
  intros Hm. apply atMost_of_appends.
  exact (appends_weaken _ _ _ quiet_notTraitApply Hm).
Qed.

Lemma atMost_bind {A B} (a b : nat) (m : M A) (k : A -> M B) :
  appliesTraitsAtMost a m ->
  (forall x, appliesTraitsAtMost b (k x)) ->
  appliesTraitsAtMost (a + b) (bind m k).
Proof.
  intros Hm Hk s. unfold bind.
  destruct (Hm s) as (c1 & Ht1 & Hc1).
  destruct (m s) as [[e|x] s1]; simpl in *.
  - exists c1. split; [exact Ht1|lia].
  - destruct (Hk x s1) as (c2 & Ht2 & Hc2).
    exists (c1 ++ c2). rewrite Ht2, Ht1, app_assoc, traitCalls_app.
    split; [reflexivity|lia].
Qed.

Lemma applyTraits_once (kit : IntegrationKit) :
  appliesTraitsAtMost 1 (applyTraits kit).
Proof.
  intros s. rewrite applyTraits_run. simpl.
  exists [EvTraitApply (integration s) kit]. split; [reflexivity|].
  unfold traitCalls. simpl. lia.
Qed.

Lemma rebuild_notTraitApply (hash : string) :
  appends notTraitApply (rebuild hash).
Proof. unfold rebuild. appends_steps. Qed.

Lemma Handle_appliesTraitsAtMost : appliesTraitsAtMost 1 Handle.
Proof.
  unfold Handle.
  apply (atMost_bind 0 1);
    [apply atMost_of_appends, appends_getIntegration|].
  intros i.
  destruct (stIntegrationKit (intStatus i)) as [ref|];
    [|intros s; exists []; simpl; rewrite app_nil_r; split;
      [reflexivity|unfold traitCalls; simpl; lia]].
  apply (atMost_bind 0 1);
    [apply atMost_of_appends, appends_emit; reflexivity|].
  intros _.
  apply (atMost_bind 0 1); [apply atMost_of_appends, appends_try|].
  intros hash.
  destruct (negb (String.eqb hash (stDigest (intStatus i)))).
  { intros s. destruct (rebuild_notTraitApply hash s) as (calls & Ht & Hc).
    exists calls. split; [exact Ht|].
    rewrite (traitCalls_notTraitApply _ Hc). lia. }
  apply (atMost_bind 1 0).
  - unfold syncStatus.
    apply (atMost_bind 0 1); [apply atMost_of_quiet, resolveKit_quiet|].
    intros kit.
    apply (atMost_bind 0 1); [apply atMost_of_quiet, upgradeKit_quiet|].
    intros _.
    apply (atMost_bind 1 0); [apply applyTraits_once|]. intros _.
    apply (atMost_bind 0 0); [apply atMost_of_quiet, publishSelector_quiet|].
    intros _.
    apply (atMost_bind 0 0); [apply atMost_of_quiet, updateReplicas_quiet|].
    intros _. apply atMost_of_quiet, reconcilePhase_quiet.
  - intros _.
    apply (atMost_bind 0 0);
      [apply atMost_of_appends, mirrorReadiness_notTraitApply|].
    intros _. apply atMost_of_quiet, checkDeployment_quiet.
Qed.

(** X14.  No pass calls the trait subsystem more than once, whatever
    the workload and the cluster. *)
Theorem Handle_applies_traits_at_most_once (i : Integration) :
  (traitCalls (trace (snd (run Handle i))) <= 1)%nat.
Proof.
  destruct (Handle_appliesTraitsAtMost {| integration := i; trace := [] |})
    as (calls & Ht & Hcalls).
  unfold run. now rewrite Ht.
Qed.

Lemma afterDigest_notInitialize (ref : ObjectReference) :
  appends notInitialize
    (bind (syncStatus ref)
       (fun _ => bind mirrorReadiness (fun _ => checkDeployment))).
Proof.
  unfold syncStatus, resolveKit, upgradeKit, applyTraits, publishSelector,
    updateReplicas, listPods, reconcilePhase, mirrorReadiness,
    checkDeployment.
  appends_steps.
Qed.

(** X15.  A pass re-initializes the workload exactly when the workload
    has a bound kit and its digest is computed and differs from the
    digest of the status; a pass that finds the digest unchanged, or
    fails before comparing it, never does. *)
Theorem Handle_initializes_iff_drift (i : Integration) :
  In EvInitialize (trace (snd (run Handle i)))
  <-> exists ref hash,
        stIntegrationKit (intStatus i) = Some ref
        /\ ComputeForIntegration i = inr hash
        /\ hash <> stDigest (intStatus i).
Proof.
  unfold run, Handle, bind at 1, getIntegration. simpl.
  destruct (stIntegrationKit (intStatus i)) as [ref|] eqn:Hkit.
  2:{ simpl. split; [intros []|]. intros (r & h & Hr & _). discriminate. }
  unfold bind at 1, emit. simpl. unfold bind at 1.
  destruct (ComputeForIntegration i) as [e|hash] eqn:Hdigest; simpl.
  { split; [intros [H|[]]; discriminate|].
    intros (r & h & _ & Hh & _). discriminate. }
  destruct (String.eqb_spec hash (stDigest (intStatus i))) as [Heq|Hne];
    simpl.
  - split.
    + intros Hin.
      destruct (afterDigest_notInitialize ref
                  {| integration := i; trace := [EvComputeForIntegration] |})
        as (calls & Ht & Hcalls).
      rewrite Ht in Hin. simpl in Hin.
      destruct Hin as [Hin|Hin]; [discriminate|].
      rewrite List.Forall_forall in Hcalls.
      specialize (Hcalls _ Hin). discriminate Hcalls.
    + intros (r & h & _ & Hh & Hdiff). congruence.
  - split.
    + intros _. now exists ref, hash.
    + intros _. unfold rebuild, bind, emit, modify, getIntegration. simpl.
      right. right. now left.
Qed.
End CallClaims.

(** ** Checking the deployment twice *)

Section RepeatedCheck.
Context `{TM : TimeModel} `{AC : ApiConstants} `{CO : !Collaborators}.

(** The last Available condition cannot be False for the one scan and
    True for the other. *)
Lemma scans_exclusive (cs : list DeploymentCondition) (available : Z) :
  forall deployUnavailable progressingFailing deployAvailable progressingOk,
    deployUnavailable && deployAvailable = false ->
    fst (runningLoop cs available deployUnavailable progressingFailing)
    && fst (errorLoop cs deployAvailable progressingOk) = false.
Proof.
  induction cs as [|c rest IH]; intros du pf da po Hex; simpl; [exact Hex|].
  apply IH.
  destruct (decide (dcType c = DeploymentAvailable)); [|exact Hex].
  destruct (dcStatus c); reflexivity.
Qed.

(** Setting the Ready condition and the phase leaves the other
    conditions as they are. *)
Lemma IsConditionTrue_after_override (c : IntegrationCondition)
    (p : IntegrationPhase) (i : Integration)
    (ty : IntegrationConditionType) :
  ty <> condType c ->
  IsConditionTrue
    (updStatus (setPhase p)
       (updStatus (fun st => SetCondition Now st c) i)) ty
  = IsConditionTrue i ty.
Proof.
  intros Hne. unfold IsConditionTrue, GetCondition. simpl.
  now rewrite findCondition_upsert_other.
Qed.

(** The check in phase Running when the scan finds no failure. *)
Lemma checkDeployment_running_unchanged (s : State) (d : Deployment) :
  IsConditionTrue (integration s) IntegrationConditionDeploymentAvailable
  = true ->
  GetDeployment (intName (integration s)) (intNamespace (integration s))
  = inr d ->
  stPhase (intStatus (integration s)) = IntegrationPhaseRunning ->
  fst (runningLoop (depConditions d) (depAvailableReplicas d) false false)
  && snd (runningLoop (depConditions d) (depAvailableReplicas d) false false)
  = false ->
  fst (checkDeployment s) = inr (integration s).
Proof.
  intros Hcond Hget Hphase Hloop.
  unfold checkDeployment, bind, getIntegration, emit, modify, try, ret, throw.
  simpl. rewrite Hcond. simpl. rewrite Hget. simpl. rewrite Hphase.
  destruct (runningLoop _ _ _ _) as [du pf]. simpl in Hloop.
  now rewrite Hloop.
Qed.

(** The check in phase Error when the scan finds no recovery. *)
Lemma checkDeployment_error_unchanged (s : State) (d : Deployment) :
  IsConditionTrue (integration s) IntegrationConditionDeploymentAvailable
  = true ->
  GetDeployment (intName (integration s)) (intNamespace (integration s))
  = inr d ->
  stPhase (intStatus (integration s)) = IntegrationPhaseError ->
  fst (errorLoop (depConditions d) false false)
  && snd (errorLoop (depConditions d) false false) = false ->
  fst (checkDeployment s) = inr (integration s).
Proof.
  intros Hcond Hget Hphase Hloop.
  unfold checkDeployment, bind, getIntegration, emit, modify, try, ret, throw.
  simpl. rewrite Hcond. simpl. rewrite Hget. simpl. rewrite Hphase.
  destruct (errorLoop _ _ _) as [da po]. simpl in Hloop.
  now rewrite Hloop.
Qed.

Lemma checkDeployment_twice (s s' : State) (updated : Integration) :
  checkDeployment s = (inr updated, s') ->
  fst (checkDeployment s') = inr updated.
Proof.
  intros Hrun. pose proof Hrun as Hfirst. revert Hrun.
  unfold checkDeployment at 1.
  unfold bind, getIntegration, emit, modify, try, ret, throw. simpl.
  destruct (IsConditionTrue (integration s)
              IntegrationConditionDeploymentAvailable) eqn:Hcond; simpl.
  2:{ intros Heq; inversion Heq; subst.
      unfold checkDeployment, bind, getIntegration. simpl.
      now rewrite Hcond. }
  destruct (GetDeployment (intName (integration s))
              (intNamespace (integration s))) as [e|d] eqn:Hget; simpl;
    [discriminate|].
  pose proof (scans_exclusive (depConditions d) (depAvailableReplicas d)
                false false false false eq_refl) as Hex.
  destruct (stPhase (intStatus (integration s))) eqn:Hphase; simpl;
    try (intros Heq; inversion Heq; subst;
         unfold checkDeployment, bind, getIntegration, emit, modify, try,
           ret, throw;
         simpl; rewrite Hcond; simpl; rewrite Hget; simpl; rewrite Hphase;
         reflexivity).
  - destruct (runningLoop (depConditions d) (depAvailableReplicas d)
                false false) as [du pf] eqn:Hloop.
    destruct (du && pf) eqn:Hover; simpl; intros Heq; inversion Heq;
      subst updated s'.
    + match goal with
      | |- fst (checkDeployment ?st) = _ =>
          apply (checkDeployment_error_unchanged st d)
      end;
        [cbn [integration];
         rewrite IsConditionTrue_after_override by discriminate; exact Hcond
        |exact Hget|reflexivity|].
      apply andb_true_iff in Hover as [-> _]. simpl in Hex.
      now rewrite Hex.
    + match goal with
      | |- fst (checkDeployment ?st) = _ =>
          apply (checkDeployment_running_unchanged st d)
      end;
        [exact Hcond|exact Hget|exact Hphase|].
      now rewrite Hloop.
  - destruct (errorLoop (depConditions d) false false) as [da po] eqn:Hloop.
    destruct (da && po) eqn:Hover; simpl; intros Heq; inversion Heq;
      subst updated s'.
    + match goal with
      | |- fst (checkDeployment ?st) = _ =>
          apply (checkDeployment_running_unchanged st d)
      end;
        [cbn [integration];
         rewrite IsConditionTrue_after_override by discriminate; exact Hcond
        |exact Hget|reflexivity|].
      apply andb_true_iff in Hover as [-> _]. simpl in Hex.
      rewrite andb_true_r in Hex. now rewrite Hex.
    + match goal with
      | |- fst (checkDeployment ?st) = _ =>
          apply (checkDeployment_error_unchanged st d)
      end;
        [exact Hcond|exact Hget|exact Hphase|].
      now rewrite Hloop.
Qed.

(** X16.  The check of the deployment settles in one step: checking
    again the workload a pass returned, against the same deployment,
    returns the same workload, so that an error just reported is not
    taken back and a recovery just reported is not undone. *)
Theorem Handle_check_settles (i updated : Integration) (s s' : State) :
  reachesDeploymentCheck i s ->
  run Handle i = (inr updated, s') ->
  fst (checkDeployment s') = inr updated.
Proof.
  intros Hreach Hrun. rewrite (Handle_reaches _ _ Hreach) in Hrun.
  exact (checkDeployment_twice s s' updated Hrun).
Qed.
End RepeatedCheck.

(** * The properties on concrete clusters *)

Import Scenario.

(** Status.Digest is "abc" and the recomputed digest "xyz": the
    workload is re-initialized once and nothing else is called. *)
Lemma Handle_rebuilds_on_drift_witness :
  let i := workload IntegrationPhaseRunning readyConditions in
  let rebuilt := updStatus (setDigest "xyz") (Initialize (Collaborators := drifted) i) in
  stIntegrationKit (intStatus i) = Some boundReference
  /\ ComputeForIntegration (Collaborators := drifted) i = inr "xyz"
  /\ "xyz" <> stDigest (intStatus i)
  /\ run (Handle (CO := drifted)) i
     = (inr rebuilt,
        {| integration := rebuilt;
           trace := [EvComputeForIntegration;
                     EvInfo "Integration needs a rebuild";
                     EvInitialize] |})
  /\ stDigest (intStatus rebuilt) = "xyz".
Proof.
  intros i rebuilt.
  assert (H1 : stIntegrationKit (intStatus i) = Some boundReference)
    by reflexivity.
  assert (H2 : ComputeForIntegration (Collaborators := drifted) i = inr "xyz")
    by reflexivity.
  assert (H3 : "xyz" <> stDigest (intStatus i)) by discriminate.
  repeat (split; [assumption|]).
  exact (Handle_rebuilds_on_drift (CO := drifted) i boundReference "xyz"
           H1 H2 H3).
Defined.

(** The state in which a pass over [crashing], entered in phase
    Deploying, gets to the check of the deployment. *)
Lemma Handle_detects_failing_deployment_witness :
  let i := workload IntegrationPhaseDeploying [] in
  let s :=
    snd (mirrorReadiness (CO := crashing)
           (snd (syncStatus (CO := crashing) boundReference
                   {| integration := i;
                      trace := [EvComputeForIntegration] |}))) in
  let d :=
    {| depConditions :=
         [deploymentCondition DeploymentAvailable ConditionFalse
            "MinimumReplicasUnavailable";
          deploymentCondition DeploymentProgressing ConditionTrue
            "NewReplicaSetAvailable"];
       depAvailableReplicas := 0 |} in
  reachesDeploymentCheck (CO := crashing) i s
  /\ stPhase (intStatus (integration s)) = IntegrationPhaseRunning
  /\ IsConditionTrue (integration s) IntegrationConditionDeploymentAvailable
     = true
  /\ GetDeployment (Collaborators := crashing) (intName (integration s))
       (intNamespace (integration s)) = inr d
  /\ reports d DeploymentAvailable (fun c => dcStatus c = ConditionFalse)
  /\ reports d DeploymentProgressing
       (fun c => dcStatus c = ConditionTrue
                 /\ dcReason c = "NewReplicaSetAvailable")
  /\ depAvailableReplicas d = 0
  /\ exists updated ready,
       run (Handle (CO := crashing)) i
       = (inr updated,
          {| integration := updated;
             trace := trace s
                      ++ [EvGetDeployment (intName (integration s))
                            (intNamespace (integration s))] |})
       /\ updated
          = updStatus (setPhase IntegrationPhaseError)
              (updStatus
                 (fun st =>
                    SetConditions (Now (Collaborators := crashing)) st
                      [notAvailableCondition])
                 (integration s))
       /\ stPhase (intStatus updated) = IntegrationPhaseError
       /\ GetCondition (intStatus updated) IntegrationConditionReady
          = Some ready
       /\ condStatus ready = ConditionFalse
       /\ condReason ready = IntegrationConditionErrorReason
       /\ condMessage ready
          = "The corresponding pod(s) may be in error state, look at the pod status or log for errors".
Proof.
  intros i s d.
  assert (H1 : reachesDeploymentCheck (CO := crashing) i s).
  { eexists. split; [exists boundReference; repeat split|]; reflexivity. }
  assert (H2 : stPhase (intStatus (integration s)) = IntegrationPhaseRunning)
    by reflexivity.
  assert (H3 : IsConditionTrue (integration s)
                 IntegrationConditionDeploymentAvailable = true)
    by reflexivity.
  assert (H4 : GetDeployment (Collaborators := crashing) (intName (integration s))
                 (intNamespace (integration s)) = inr d) by reflexivity.
  assert (H5 : reports d DeploymentAvailable
                 (fun c => dcStatus c = ConditionFalse)).
  { split; [eexists; split; [now left|reflexivity]|].
    intros c [<-|[<-|[]]]; [reflexivity|discriminate]. }
  assert (H6 : reports d DeploymentProgressing
                 (fun c => dcStatus c = ConditionTrue
                           /\ dcReason c = "NewReplicaSetAvailable")).
  { split; [eexists; split; [right; now left|reflexivity]|].
    intros c [<-|[<-|[]]]; [discriminate|now split]. }
  assert (H7 : depAvailableReplicas d = 0) by reflexivity.
  repeat (split; [assumption|]).
  exact (Handle_detects_failing_deployment (CO := crashing) i s d
           H1 H2 H3 H4 H5 H6 H7).
Defined.

(** A pass over [recovered], entered in phase Error. *)
Lemma Handle_detects_recovered_deployment_witness :
  let i := workload IntegrationPhaseError [] in
  let s :=
    snd (mirrorReadiness (CO := recovered)
           (snd (syncStatus (CO := recovered) boundReference
                   {| integration := i;
                      trace := [EvComputeForIntegration] |}))) in
  let d :=
    {| depConditions :=
         [deploymentCondition DeploymentAvailable ConditionTrue
            "MinimumReplicasAvailable";
          deploymentCondition DeploymentProgressing ConditionTrue
            "ReplicaSetUpdated"];
       depAvailableReplicas := 1 |} in
  reachesDeploymentCheck (CO := recovered) i s
  /\ stPhase (intStatus (integration s)) = IntegrationPhaseError
  /\ IsConditionTrue (integration s) IntegrationConditionDeploymentAvailable
     = true
  /\ GetDeployment (Collaborators := recovered) (intName (integration s))
       (intNamespace (integration s)) = inr d
  /\ reports d DeploymentAvailable (fun c => dcStatus c = ConditionTrue)
  /\ reports d DeploymentProgressing
       (fun c => dcStatus c = ConditionTrue
                 /\ (dcReason c = "NewReplicaSetAvailable"
                     \/ dcReason c = "ReplicaSetUpdated"))
  /\ exists updated ready,
       run (Handle (CO := recovered)) i
       = (inr updated,
          {| integration := updated;
             trace := trace s
                      ++ [EvGetDeployment (intName (integration s))
                            (intNamespace (integration s))] |})
       /\ updated
          = updStatus (setPhase IntegrationPhaseRunning)
              (updStatus
                 (fun st =>
                    SetConditions (Now (Collaborators := recovered)) st
                      [availableCondition])
                 (integration s))
       /\ stPhase (intStatus updated) = IntegrationPhaseRunning
       /\ GetCondition (intStatus updated) IntegrationConditionReady
          = Some ready
       /\ condStatus ready = ConditionTrue.
Proof.
  intros i s d.
  assert (H1 : reachesDeploymentCheck (CO := recovered) i s).
  { eexists. split; [exists boundReference; repeat split|]; reflexivity. }
  assert (H2 : stPhase (intStatus (integration s)) = IntegrationPhaseError)
    by reflexivity.
  assert (H3 : IsConditionTrue (integration s)
                 IntegrationConditionDeploymentAvailable = true)
    by reflexivity.
  assert (H4 : GetDeployment (Collaborators := recovered)
                 (intName (integration s))
                 (intNamespace (integration s)) = inr d) by reflexivity.
  assert (H5 : reports d DeploymentAvailable
                 (fun c => dcStatus c = ConditionTrue)).
  { split; [eexists; split; [now left|reflexivity]|].
    intros c [<-|[<-|[]]]; [reflexivity|discriminate]. }
  assert (H6 : reports d DeploymentProgressing
                 (fun c => dcStatus c = ConditionTrue
                           /\ (dcReason c = "NewReplicaSetAvailable"
                               \/ dcReason c = "ReplicaSetUpdated"))).
  { split; [eexists; split; [right; now left|reflexivity]|].
    intros c [<-|[<-|[]]]; [discriminate|split; [reflexivity|now right]]. }
  repeat (split; [assumption|]).
  exact (Handle_detects_recovered_deployment (CO := recovered) i s d
           H1 H2 H3 H4 H5 H6).
Defined.

(** Among kit-c (3), kit-b (5), kit-d (5) and the building kit-e (9)
    the first ready kit of priority 5 is selected. *)
Example findHighestPriorityReadyKit_first_of_tie :
  findHighestPriorityReadyKit [kitC; kitB; kitD; kitE] = inr (Some kitB).
Proof. reflexivity. Qed.

Example findHighestPriorityReadyKit_none_ready :
  findHighestPriorityReadyKit [kitE] = inr None
  /\ findHighestPriorityReadyKit [] = inr None.
Proof. split; reflexivity. Qed.

Lemma upgradeKit_binds_highest_ready_witness :
  let s := {| integration := workload IntegrationPhaseRunning [];
              trace := [] |} in
  let kits := [kitC; kitB; kitD; kitE] in
  let CO := upgradable None in
  startsWithMinus
    (default "0" (kitLabels kitA !! IntegrationKitPriorityLabel)) = false
  /\ Atoi (default "0" (kitLabels kitA !! IntegrationKitPriorityLabel))
     = inr 1
  /\ NewRequirement (Collaborators := CO) IntegrationKitPriorityLabel
       (default "0" (kitLabels kitA !! IntegrationKitPriorityLabel))
     = inr higherThanOne
  /\ lookupKitsForIntegration (Collaborators := CO) (integration s)
       [higherThanOne] = inr kits
  /\ (forall k, In k kits ->
                exists p, Atoi (priorityLabel k) = inr p /\ 1 < p)
  /\ findHighestPriorityReadyKit kits = inr (Some kitB)
  /\ stIntegrationKit
       (intStatus (integration (snd (upgradeKit (CO := CO) kitA s))))
     = Some {| refNamespace := "ns"; refName := "kit-b" |}.
Proof.
  intros s kits CO.
  assert (H1 : startsWithMinus
                 (default "0"
                    (kitLabels kitA !! IntegrationKitPriorityLabel))
               = false) by reflexivity.
  assert (H2 : Atoi (default "0"
                       (kitLabels kitA !! IntegrationKitPriorityLabel))
               = inr 1) by reflexivity.
  assert (H3 : NewRequirement (Collaborators := CO)
                 IntegrationKitPriorityLabel
                 (default "0"
                    (kitLabels kitA !! IntegrationKitPriorityLabel))
               = inr higherThanOne) by reflexivity.
  assert (H4 : lookupKitsForIntegration (Collaborators := CO) (integration s)
                 [higherThanOne] = inr kits) by reflexivity.
  assert (H5 : forall k, In k kits ->
                 exists p, Atoi (priorityLabel k) = inr p /\ 1 < p).
  { intros k [<-|[<-|[<-|[<-|[]]]]]; eexists;
      (split; [vm_compute; reflexivity|lia]). }
  repeat (split; [assumption|]).
  destruct (upgradeKit_binds_highest_ready (CO := CO) s kitA 1 higherThanOne
              kits H1 H2 H3 H4 H5) as (found & s' & Hfound & Hrun & Hspec).
  assert (Hb : found = Some kitB).
  { assert (Hc : findHighestPriorityReadyKit kits = inr (Some kitB))
      by reflexivity.
    congruence. }
  subst found. destruct Hspec as (_ & _ & Href).
  split; [exact Hfound|]. rewrite Hrun. exact Href.
Defined.

Lemma Handle_applies_traits_with_resolved_kit_witness :
  let CO := oneCandidate (Some (ExternalError "traits failed")) (inr []) in
  let i := workload IntegrationPhaseRunning [] in
  let priority :=
    default "0" (kitLabels kitA !! IntegrationKitPriorityLabel) in
  let rebound := SetIntegrationKit i kitB in
  stIntegrationKit (intStatus i) = Some boundReference
  /\ ComputeForIntegration (Collaborators := CO) i
     = inr (stDigest (intStatus i))
  /\ GetIntegrationKit (Collaborators := CO) (refName boundReference)
       (refNamespace boundReference) = inr kitA
  /\ NewRequirement (Collaborators := CO) IntegrationKitPriorityLabel
       priority = inr higherThanOne
  /\ lookupKitsForIntegration (Collaborators := CO) i [higherThanOne]
     = inr [kitB]
  /\ findHighestPriorityReadyKit [kitB] = inr (Some kitB)
  /\ (exists calls,
        trace (snd (run (Handle (CO := CO)) i))
        = [EvComputeForIntegration;
           EvGetIntegrationKit (refName boundReference)
             (refNamespace boundReference);
           EvNewRequirement IntegrationKitPriorityLabel priority;
           EvLookupKits [higherThanOne];
           EvSetIntegrationKit kitB;
           EvTraitApply rebound kitA] ++ calls
        /\ Forall notTraitApply calls)
  /\ fst (run (Handle (CO := CO)) i) = inl (ExternalError "traits failed").
Proof.
  intros CO i priority rebound.
  assert (H1 : stIntegrationKit (intStatus i) = Some boundReference)
    by reflexivity.
  assert (H2 : ComputeForIntegration (Collaborators := CO) i
               = inr (stDigest (intStatus i))) by reflexivity.
  assert (H3 : GetIntegrationKit (Collaborators := CO)
                 (refName boundReference) (refNamespace boundReference)
               = inr kitA) by reflexivity.
  assert (H4 : NewRequirement (Collaborators := CO)
                 IntegrationKitPriorityLabel priority = inr higherThanOne)
    by reflexivity.
  assert (H5 : lookupKitsForIntegration (Collaborators := CO) i
                 [higherThanOne] = inr [kitB]) by reflexivity.
  assert (H6 : findHighestPriorityReadyKit [kitB] = inr (Some kitB))
    by reflexivity.
  repeat (split; [assumption|]).
  destruct (Handle_applies_traits_with_resolved_kit (CO := CO) i
              boundReference kitA kitB higherThanOne [kitB]
              H1 H2 H3 H4 H5 H6) as [Htrace Herr].
  split; [exact Htrace|]. apply Herr. reflexivity.
Defined.

(** C5 as stated fails: in a pass that rebinds the workload from kit-a
    to kit-b, the only call to the trait subsystem carries kit-a. *)
Lemma traits_applied_with_previously_bound_kit :
  let CO := oneCandidate None (inr []) in
  let i := workload IntegrationPhaseRunning [] in
  let calls := trace (snd (run (Handle (CO := CO)) i)) in
  In (EvSetIntegrationKit kitB) calls
  /\ List.filter isTraitApply calls
     = [EvTraitApply (SetIntegrationKit i kitB) kitA]
  /\ kitName kitA <> kitName kitB
  /\ stIntegrationKit (intStatus (SetIntegrationKit i kitB))
     = Some {| refNamespace := "ns"; refName := "kit-b" |}.
Proof.
  intros CO i calls. subst calls.
  split; [vm_compute; do 4 right; now left|].
  split; [vm_compute; reflexivity|].
  split; [discriminate|reflexivity].
Qed.

Lemma findHighestPriorityReadyKit_malformed_ready_witness :
  let malformed := kit "kit-x" "high" IntegrationKitPhaseReady in
  let absent := unlabelled "kit-y" IntegrationKitPhaseReady in
  let kits := [kitC; malformed; absent] in
  In absent kits
  /\ kitReady absent = true
  /\ Atoi (priorityLabel absent) = inl (NumError "Atoi" "" ErrSyntax)
  /\ (exists k' e',
        In k' kits /\ kitReady k' = true
        /\ Atoi (priorityLabel k') = inl e'
        /\ findHighestPriorityReadyKit kits = inl e')
  /\ findHighestPriorityReadyKit kits
     = findHighestPriorityReadyKit (List.filter kitReady kits).
Proof.
  intros malformed absent kits.
  assert (H1 : In absent kits) by (right; right; now left).
  assert (H2 : kitReady absent = true) by reflexivity.
  assert (H3 : Atoi (priorityLabel absent)
               = inl (NumError "Atoi" "" ErrSyntax)) by reflexivity.
  repeat (split; [assumption|]).
  exact (findHighestPriorityReadyKit_malformed_ready kits absent _ H1 H2 H3).
Defined.

(** C6 as stated fails: a candidate without a priority label, or with
    one that is not a number, does not abort selection when it is not
    ready. *)
Lemma malformed_label_of_unready_kit_is_skipped :
  let absent := unlabelled "kit-y" building in
  let malformed := kit "kit-x" "high" building in
  Atoi (priorityLabel absent) = inl (NumError "Atoi" "" ErrSyntax)
  /\ Atoi (priorityLabel malformed) = inl (NumError "Atoi" "high" ErrSyntax)
  /\ findHighestPriorityReadyKit [absent] = inr None
  /\ findHighestPriorityReadyKit [malformed; kitC; absent] = inr (Some kitC).
Proof. intros absent malformed. repeat split. Qed.

Lemma Handle_error_before_traits_keeps_workload_witness :
  let i := workload IntegrationPhaseRunning readyConditions in
  let e := Wrapf (ExternalError "not found")
             "unable to find integration kit %s/%s, %s" ["ns"; "kit-a"] in
  let s' := {| integration := i;
               trace := [EvComputeForIntegration;
                         EvGetIntegrationKit "kit-a" "ns"] |} in
  run (Handle (CO := kitMissing)) i = (inl e, s')
  /\ Forall notTraitApply (trace s')
  /\ integration s' = i.
Proof.
  intros i e s'.
  assert (H1 : run (Handle (CO := kitMissing)) i = (inl e, s'))
    by reflexivity.
  assert (H2 : Forall notTraitApply (trace s'))
    by (repeat constructor).
  repeat (split; [assumption|]).
  exact (Handle_error_before_traits_keeps_workload (CO := kitMissing)
           i e s' H1 H2).
Defined.

(** C7 as stated fails: when the pending pods cannot be listed the
    pass returns the error, and the workload object has by then been
    rebound to kit-b and given its selector. *)
Lemma pod_list_failure_leaves_status_modified :
  let CO := oneCandidate None (inl (ExternalError "pods unavailable")) in
  let i := workload IntegrationPhaseRunning [] in
  let s' := snd (run (Handle (CO := CO)) i) in
  fst (run (Handle (CO := CO)) i) = inl (ExternalError "pods unavailable")
  /\ stSelector (intStatus i) = ""
  /\ stSelector (intStatus (integration s'))
     = "camel.apache.org/integration=routes"
  /\ stIntegrationKit (intStatus i)
     = Some {| refNamespace := "ns"; refName := "kit-a" |}
  /\ stIntegrationKit (intStatus (integration s'))
     = Some {| refNamespace := "ns"; refName := "kit-b" |}.
Proof. intros CO i s'. repeat split; vm_compute; reflexivity. Qed.

Lemma cluster_keepsAnchor digest bound candidates traitError pending running
    mirrored deployment :
  match findCondition mirrored IntegrationConditionReady with
  | Some c => timeSet (condFirstTruthyTime c)
  | None => false
  end = true ->
  keepsAnchor
    (cluster digest bound candidates traitError pending running mirrored
       deployment).
Proof.
  intros Hmirrored. repeat split.
  - intros i Hi. exact Hi.
  - intros i k Hi. exact Hi.
  - intros i _. exact Hmirrored.
Qed.

(** The first pass over [steady] observes the time to first readiness,
    10 - 2; the passes after it, one of which fails, observe nothing. *)
Lemma first_readiness_observed_witness :
  let i := workload IntegrationPhaseDeploying [] in
  let later := [steady; deploymentUnreadable; steady] in
  Forall keepsAnchor later
  /\ In (EvObserve 8) (trace (snd (run (Handle (CO := steady)) i)))
  /\ (observations (trace (snd (run (Handle (CO := steady)) i))) <= 1)%nat
  /\ Forall (fun calls => observations calls = 0%nat)
       (lifetime later (integration (snd (run (Handle (CO := steady)) i)))).
Proof.
  intros i later.
  assert (H1 : Forall keepsAnchor later)
    by (repeat constructor; now apply cluster_keepsAnchor).
  split; [exact H1|].
  destruct (first_readiness_observed (CO := steady) i later H1)
    as (Hiff & Hmost & Hafter).
  split; [|split; [exact Hmost|]].
  - apply Hiff.
    exists (snd (syncStatus (CO := steady) boundReference
                   {| integration := i;
                      trace := [EvComputeForIntegration] |})), 10.
    split; [exists boundReference; repeat split; reflexivity|].
    split; [now left|].
    split; [|reflexivity].
    eexists. repeat split; reflexivity.
  - apply (Hafter (integration (snd (run (Handle (CO := steady)) i)))
             (snd (run (Handle (CO := steady)) i))).
    + reflexivity.
    + vm_compute. lia.
Defined.

(** C8 as stated fails over a lifetime: the first pass mirrors the
    ready condition, observes the metric, and then fails to read the
    deployment, so that its workload is not stored; the next pass
    starts from the stored workload and observes the metric again. *)
Lemma first_readiness_observed_twice :
  let i := workload IntegrationPhaseRunning [] in
  let passes := [deploymentUnreadable; steady] in
  Forall keepsAnchor passes
  /\ fst (run (Handle (CO := deploymentUnreadable)) i)
     = inl (ExternalError "timeout")
  /\ fst (reconcile deploymentUnreadable i) = i
  /\ map observations (lifetime passes i) = [1%nat; 1%nat].
Proof.
  intros i passes. split; [|repeat split].
  repeat constructor; now apply cluster_keepsAnchor.
Qed.

Lemma Handle_counts_replicas_witness :
  let CO := populated twoPending fiveRunning in
  let i := workload IntegrationPhaseRunning [] in
  let s' := snd (run (Handle (CO := CO)) i) in
  let updated := integration s' in
  run (Handle (CO := CO)) i = (inr updated, s')
  /\ ComputeForIntegration (Collaborators := CO) i
     = inr (stDigest (intStatus i))
  /\ length twoPending = 2%nat
  /\ length (nonTerminating fiveRunning) = 3%nat
  /\ stReplicas (intStatus updated) = Some 5.
Proof.
  intros CO i s' updated.
  assert (H1 : run (Handle (CO := CO)) i = (inr updated, s'))
    by reflexivity.
  assert (H2 : ComputeForIntegration (Collaborators := CO) i
               = inr (stDigest (intStatus i))) by reflexivity.
  repeat (split; [first [assumption|reflexivity]|]).
  destruct (Handle_counts_replicas (CO := CO) i updated s' H1 H2)
    as (namespace & name & pendingPods & runningPods
        & _ & _ & Hp & Hr & Hcount).
  assert (pendingPods = twoPending) by (simpl in Hp; congruence).
  assert (runningPods = fiveRunning) by (simpl in Hr; congruence).
  subst pendingPods runningPods. rewrite Hcount; [reflexivity|].
  vm_compute. discriminate.
Defined.

(** The replica count a pass over [populated pending []] stores. *)
Lemma populated_replicas (pending : list Pod) :
  stReplicas
    (intStatus
       (integration
          (snd (run (Handle (CO := populated pending []))
                  (workload IntegrationPhaseRunning [])))))
  = Some (podCount pending []).
Proof. reflexivity. Qed.

(** C9 as stated fails once the count leaves [int32]: with 2^31
    pending pods and no running pod the replica count stored is
    -2^31. *)
Lemma replica_count_wraps_at_int32 :
  ListPods (Collaborators := populated crowd []) "ns" "routes" PodPending
  = inr crowd
  /\ Z.of_nat (length crowd) + Z.of_nat (length (nonTerminating [])) = 2 ^ 31
  /\ stReplicas
       (intStatus
          (integration
             (snd (run (Handle (CO := populated crowd []))
                     (workload IntegrationPhaseRunning [])))))
     = Some (- 2 ^ 31).
Proof.
  assert (Hlen : Z.of_nat (length crowd) = 2 ^ 31).
  { unfold crowd. rewrite repeat_length. apply Z2Nat.id. discriminate. }
  split; [reflexivity|]. split.
  - rewrite Hlen. reflexivity.
  - rewrite populated_replicas. unfold podCount. rewrite Hlen. reflexivity.
Qed.

(** A pending pod that is being deleted counts, a running pod that is
    being deleted does not. *)
Lemma Handle_counts_every_pending_pod_witness :
  let pending := [pod "routes-1" (Some 30)] in
  let running := [pod "routes-2" (Some 31)] in
  let CO := populated pending running in
  let i := workload IntegrationPhaseRunning [] in
  let s' := snd (run (Handle (CO := CO)) i) in
  let updated := integration s' in
  run (Handle (CO := CO)) i = (inr updated, s')
  /\ ComputeForIntegration (Collaborators := CO) i
     = inr (stDigest (intStatus i))
  /\ stReplicas (intStatus updated) = Some 1.
Proof.
  intros pending running CO i s' updated.
  assert (H1 : run (Handle (CO := CO)) i = (inr updated, s'))
    by reflexivity.
  assert (H2 : ComputeForIntegration (Collaborators := CO) i
               = inr (stDigest (intStatus i))) by reflexivity.
  repeat (split; [assumption|]).
  destruct (Handle_counts_every_pending_pod (CO := CO) i updated s' H1 H2)
    as (namespace & name & pendingPods & runningPods
        & _ & _ & Hp & Hr & Hcount).
  assert (pendingPods = pending) by (simpl in Hp; congruence).
  assert (runningPods = running) by (simpl in Hr; congruence).
  subst pendingPods runningPods. rewrite Hcount. reflexivity.
Defined.

(** ** The further properties on concrete clusters *)

(** Among kit-c (3), kit-b (5), kit-d (5) and the building kit-e (9)
    selection returns kit-b. *)
Lemma findHighestPriorityReadyKit_selected_witness :
  let kits := [kitC; kitB; kitD; kitE] in
  findHighestPriorityReadyKit kits = inr (Some kitB)
  /\ exists l1 l2 p,
       kits = l1 ++ kitB :: l2
       /\ kitReady kitB = true
       /\ Atoi (priorityLabel kitB) = inr p
       /\ 0 < p
       /\ (forall k', In k' l1 -> kitReady k' = true ->
             exists p', Atoi (priorityLabel k') = inr p' /\ p' < p)
       /\ (forall k', In k' l2 -> kitReady k' = true ->
             exists p', Atoi (priorityLabel k') = inr p' /\ p' <= p).
Proof.
  intros kits.
  assert (H1 : findHighestPriorityReadyKit kits = inr (Some kitB))
    by (vm_compute; reflexivity).
  split; [exact H1|].
  exact (findHighestPriorityReadyKit_selected kits kitB H1).
Defined.

(** With kit-f, labelled 05, moved to the front selection returns
    kit-f instead of kit-b: another label, the same priority 5. *)
Lemma findHighestPriorityReadyKit_priority_of_permutation_witness :
  let kits := [kitC; kitB; kitF] in
  let kits' := [kitF; kitC; kitB] in
  Permutation kits kits'
  /\ findHighestPriorityReadyKit kits = inr (Some kitB)
  /\ exists k' p,
       findHighestPriorityReadyKit kits' = inr (Some k')
       /\ Atoi (priorityLabel kitB) = inr p
       /\ Atoi (priorityLabel k') = inr p.
Proof.
  intros kits kits'.
  assert (H1 : Permutation kits kits')
    by exact (Permutation_sym (Permutation_cons_append [kitC; kitB] kitF)).
  assert (H2 : findHighestPriorityReadyKit kits = inr (Some kitB))
    by (vm_compute; reflexivity).
  repeat (split; [assumption|]).
  exact (findHighestPriorityReadyKit_priority_of_permutation kits kits' kitB
           H1 H2).
Defined.

(** The error of a pass over [kitMissing] is the answer to its last
    call, the lookup of the bound kit, wrapped. *)
Lemma Handle_error_provenance_witness :
  let i := workload IntegrationPhaseRunning readyConditions in
  let e := Wrapf (ExternalError "not found")
             "unable to find integration kit %s/%s, %s" ["ns"; "kit-a"] in
  let s' := {| integration := i;
               trace := [EvComputeForIntegration;
                         EvGetIntegrationKit "kit-a" "ns"] |} in
  run (Handle (CO := kitMissing)) i = (inl e, s')
  /\ ((stIntegrationKit (intStatus i) = None
       /\ e = Errorf "no kit set on integration %s" [intName i]
       /\ trace s' = [])
      \/ exists calls call,
           trace s' = calls ++ [call]
           /\ failureOf (CO := kitMissing) i call e).
Proof.
  intros i e s'.
  assert (H1 : run (Handle (CO := kitMissing)) i = (inl e, s'))
    by (vm_compute; reflexivity).
  split; [exact H1|].
  exact (Handle_error_provenance (CO := kitMissing) i e s' H1).
Defined.

(** A pass over [malformedCandidate] stops at the label of kit-x. *)
Lemma Handle_malformed_candidate_aborts_witness :
  let i := workload IntegrationPhaseRunning readyConditions in
  let kits := [kitC; kitX] in
  stIntegrationKit (intStatus i) = Some boundReference
  /\ ComputeForIntegration (Collaborators := malformedCandidate) i
     = inr (stDigest (intStatus i))
  /\ GetIntegrationKit (Collaborators := malformedCandidate) "kit-a" "ns"
     = inr kitA
  /\ NewRequirement (Collaborators := malformedCandidate)
       IntegrationKitPriorityLabel "1" = inr higherThanOne
  /\ lookupKitsForIntegration (Collaborators := malformedCandidate) i
       [higherThanOne] = inr kits
  /\ In kitX kits
  /\ kitReady kitX = true
  /\ Atoi (priorityLabel kitX) = inl (NumError "Atoi" "high" ErrSyntax)
  /\ exists k' e,
       In k' kits /\ kitReady k' = true /\ Atoi (priorityLabel k') = inl e
       /\ run (Handle (CO := malformedCandidate)) i
          = (inl e,
             {| integration := i;
                trace := [EvComputeForIntegration;
                          EvGetIntegrationKit "kit-a" "ns";
                          EvNewRequirement IntegrationKitPriorityLabel "1";
                          EvLookupKits [higherThanOne]] |}).
Proof.
  intros i kits.
  assert (H1 : stIntegrationKit (intStatus i) = Some boundReference)
    by reflexivity.
  assert (H2 : ComputeForIntegration (Collaborators := malformedCandidate) i
               = inr (stDigest (intStatus i))) by reflexivity.
  assert (H3 : GetIntegrationKit (Collaborators := malformedCandidate)
                 "kit-a" "ns" = inr kitA) by reflexivity.
  assert (H4 : NewRequirement (Collaborators := malformedCandidate)
                 IntegrationKitPriorityLabel "1" = inr higherThanOne)
    by reflexivity.
  assert (H5 : lookupKitsForIntegration (Collaborators := malformedCandidate)
                 i [higherThanOne] = inr kits) by reflexivity.
  assert (H6 : In kitX kits) by (right; now left).
  assert (H7 : kitReady kitX = true) by reflexivity.
  assert (H8 : Atoi (priorityLabel kitX)
               = inl (NumError "Atoi" "high" ErrSyntax)) by reflexivity.
  repeat (split; [assumption|]).
  exact (Handle_malformed_candidate_aborts (CO := malformedCandidate) i
           boundReference kitA kitX higherThanOne kits
           (NumError "Atoi" "high" ErrSyntax) H1 H2 H3 H4 H5 H6 H7 H8).
Defined.

(** A pass over [steady] entered in phase Deploying. *)
Lemma Handle_never_leaves_deploying_witness :
  let i := workload IntegrationPhaseDeploying [] in
  let s' := snd (run (Handle (CO := steady)) i) in
  let updated := integration s' in
  run (Handle (CO := steady)) i = (inr updated, s')
  /\ ComputeForIntegration (Collaborators := steady) i
     = inr (stDigest (intStatus i))
  /\ stPhase (intStatus updated) <> IntegrationPhaseDeploying.
Proof.
  intros i s' updated.
  assert (H1 : run (Handle (CO := steady)) i = (inr updated, s'))
    by (vm_compute; reflexivity).
  assert (H2 : ComputeForIntegration (Collaborators := steady) i
               = inr (stDigest (intStatus i))) by reflexivity.
  repeat (split; [assumption|]).
  exact (Handle_never_leaves_deploying (CO := steady) i updated s' H1 H2).
Defined.

(** A pass over [recovered] entered in phase Error. *)
Lemma Handle_phase_transitions_witness :
  let i := workload IntegrationPhaseError [] in
  let s :=
    snd (mirrorReadiness (CO := recovered)
           (snd (syncStatus (CO := recovered) boundReference
                   {| integration := i;
                      trace := [EvComputeForIntegration] |}))) in
  let s' := snd (run (Handle (CO := recovered)) i) in
  let updated := integration s' in
  reachesDeploymentCheck (CO := recovered) i s
  /\ run (Handle (CO := recovered)) i = (inr updated, s')
  /\ (stPhase (intStatus updated) = stPhase (intStatus (integration s))
      \/ (stPhase (intStatus (integration s)) = IntegrationPhaseRunning
          /\ stPhase (intStatus updated) = IntegrationPhaseError)
      \/ (stPhase (intStatus (integration s)) = IntegrationPhaseError
          /\ stPhase (intStatus updated) = IntegrationPhaseRunning))
  /\ (CanHandle (integration s) = true -> CanHandle updated = true).
Proof.
  intros i s s' updated.
  assert (H1 : reachesDeploymentCheck (CO := recovered) i s).
  { eexists. split; [exists boundReference; repeat split|]; reflexivity. }
  assert (H2 : run (Handle (CO := recovered)) i = (inr updated, s'))
    by (vm_compute; reflexivity).
  repeat (split; [assumption|]).
  exact (Handle_phase_transitions (CO := recovered) i updated s s' H1 H2).
Defined.

(** A pass over [rolling] entered in phase Running: the deployment is
    not available, its replica set is, and one replica is available. *)
Lemma Handle_running_with_available_replica_witness :
  let i := workload IntegrationPhaseRunning [] in
  let s :=
    snd (mirrorReadiness (CO := rolling)
           (snd (syncStatus (CO := rolling) boundReference
                   {| integration := i;
                      trace := [EvComputeForIntegration] |}))) in
  let d :=
    {| depConditions :=
         [deploymentCondition DeploymentAvailable ConditionFalse
            "MinimumReplicasUnavailable";
          deploymentCondition DeploymentProgressing ConditionTrue
            "NewReplicaSetAvailable"];
       depAvailableReplicas := 1 |} in
  reachesDeploymentCheck (CO := rolling) i s
  /\ stPhase (intStatus (integration s)) = IntegrationPhaseRunning
  /\ IsConditionTrue (integration s) IntegrationConditionDeploymentAvailable
     = true
  /\ GetDeployment (Collaborators := rolling) (intName (integration s))
       (intNamespace (integration s)) = inr d
  /\ 1 <= depAvailableReplicas d
  /\ run (Handle (CO := rolling)) i
     = (inr (integration s),
        {| integration := integration s;
           trace := trace s
                    ++ [EvGetDeployment (intName (integration s))
                          (intNamespace (integration s))] |}).
Proof.
  intros i s d.
  assert (H1 : reachesDeploymentCheck (CO := rolling) i s).
  { eexists. split; [exists boundReference; repeat split|]; reflexivity. }
  assert (H2 : stPhase (intStatus (integration s)) = IntegrationPhaseRunning)
    by reflexivity.
  assert (H3 : IsConditionTrue (integration s)
                 IntegrationConditionDeploymentAvailable = true)
    by reflexivity.
  assert (H4 : GetDeployment (Collaborators := rolling)
                 (intName (integration s)) (intNamespace (integration s))
               = inr d) by reflexivity.
  assert (H5 : 1 <= depAvailableReplicas d) by (simpl; lia).
  repeat (split; [assumption|]).
  exact (Handle_running_with_available_replica (CO := rolling) i s d
           H1 H2 H3 H4 H5).
Defined.

(** A pass entered in phase Error over a deployment that has no
    condition yet. *)
Lemma Handle_needs_both_conditions_witness :
  let CO := upgradable None in
  let i := workload IntegrationPhaseError [] in
  let s :=
    snd (mirrorReadiness (CO := CO)
           (snd (syncStatus (CO := CO) boundReference
                   {| integration := i;
                      trace := [EvComputeForIntegration] |}))) in
  let d := {| depConditions := []; depAvailableReplicas := 1 |} in
  reachesDeploymentCheck (CO := CO) i s
  /\ IsConditionTrue (integration s) IntegrationConditionDeploymentAvailable
     = true
  /\ GetDeployment (Collaborators := CO) (intName (integration s))
       (intNamespace (integration s)) = inr d
  /\ ((forall c, In c (depConditions d) -> dcType c <> DeploymentAvailable)
      \/ (forall c, In c (depConditions d) ->
                    dcType c <> DeploymentProgressing))
  /\ run (Handle (CO := CO)) i
     = (inr (integration s),
        {| integration := integration s;
           trace := trace s
                    ++ [EvGetDeployment (intName (integration s))
                          (intNamespace (integration s))] |}).
Proof.
  intros CO i s d.
  assert (H1 : reachesDeploymentCheck (CO := CO) i s).
  { eexists. split; [exists boundReference; repeat split|]; reflexivity. }
  assert (H2 : IsConditionTrue (integration s)
                 IntegrationConditionDeploymentAvailable = true)
    by reflexivity.
  assert (H3 : GetDeployment (Collaborators := CO)
                 (intName (integration s)) (intNamespace (integration s))
               = inr d) by reflexivity.
  assert (H4 : (forall c, In c (depConditions d) ->
                          dcType c <> DeploymentAvailable)
               \/ (forall c, In c (depConditions d) ->
                             dcType c <> DeploymentProgressing))
    by (left; intros c []).
  repeat (split; [assumption|]).
  exact (Handle_needs_both_conditions (CO := CO) i s d H1 H2 H3 H4).
Defined.

(** The selector a pass over [steady] publishes. *)
Lemma Handle_publishes_selector_witness :
  let i := workload IntegrationPhaseRunning [] in
  let s' := snd (run (Handle (CO := steady)) i) in
  let updated := integration s' in
  run (Handle (CO := steady)) i = (inr updated, s')
  /\ ComputeForIntegration (Collaborators := steady) i
     = inr (stDigest (intStatus i))
  /\ stSelector (intStatus updated)
     = IntegrationLabel +:+ "=" +:+ intName updated.
Proof.
  intros i s' updated.
  assert (H1 : run (Handle (CO := steady)) i = (inr updated, s'))
    by (vm_compute; reflexivity).
  assert (H2 : ComputeForIntegration (Collaborators := steady) i
               = inr (stDigest (intStatus i))) by reflexivity.
  repeat (split; [assumption|]).
  exact (Handle_publishes_selector (CO := steady) i updated s' H1 H2).
Defined.

(** Two pending pods and five running ones, two of which are being
    deleted. *)
Lemma Handle_replicas_bounds_witness :
  let CO := populated twoPending fiveRunning in
  let i := workload IntegrationPhaseRunning [] in
  let s' := snd (run (Handle (CO := CO)) i) in
  let updated := integration s' in
  run (Handle (CO := CO)) i = (inr updated, s')
  /\ ComputeForIntegration (Collaborators := CO) i
     = inr (stDigest (intStatus i))
  /\ exists namespace name pendingPods runningPods n,
       ListPods (Collaborators := CO) namespace name PodPending
       = inr pendingPods
       /\ ListPods (Collaborators := CO) namespace name PodRunning
          = inr runningPods
       /\ stReplicas (intStatus updated) = Some n
       /\ - 2 ^ 31 <= n <= 2 ^ 31 - 1
       /\ (Z.of_nat (length pendingPods) + Z.of_nat (length runningPods)
           <= 2 ^ 31 - 1 ->
           Z.of_nat (length pendingPods) <= n
           <= Z.of_nat (length pendingPods) + Z.of_nat (length runningPods)).
Proof.
  intros CO i s' updated.
  assert (H1 : run (Handle (CO := CO)) i = (inr updated, s'))
    by (vm_compute; reflexivity).
  assert (H2 : ComputeForIntegration (Collaborators := CO) i
               = inr (stDigest (intStatus i))) by reflexivity.
  repeat (split; [assumption|]).
  exact (Handle_replicas_bounds (CO := CO) i updated s' H1 H2).
Defined.

(** The pending pods cannot be listed: the workload stays as rebound
    to kit-b and given its selector, without a replica count. *)
Lemma Handle_pod_list_failure_witness :
  let CO := oneCandidate None (inl (ExternalError "pods unavailable")) in
  let i := workload IntegrationPhaseDeploying [] in
  let e := ExternalError "pods unavailable" in
  let s :=
    snd (bind (resolveKit (CO := CO) boundReference)
           (fun kit =>
              bind (upgradeKit (CO := CO) kit)
                (fun _ => bind (applyTraits (CO := CO) kit)
                            (fun _ => publishSelector)))
           {| integration := i; trace := [EvComputeForIntegration] |}) in
  reachesReplicaCount (CO := CO) i s
  /\ (ListPods (Collaborators := CO) (intNamespace (integration s))
        (intName (integration s)) PodPending = inl e
      \/ (exists pendingPods,
            ListPods (Collaborators := CO) (intNamespace (integration s))
              (intName (integration s)) PodPending = inr pendingPods
            /\ ListPods (Collaborators := CO) (intNamespace (integration s))
                 (intName (integration s)) PodRunning = inl e))
  /\ fst (run (Handle (CO := CO)) i) = inl e
  /\ integration (snd (run (Handle (CO := CO)) i)) = integration s
  /\ exists calls,
       trace (snd (run (Handle (CO := CO)) i)) = trace s ++ calls
       /\ Forall (fun call => exists phase,
                    call = EvListPods (intNamespace (integration s))
                             (intName (integration s)) phase) calls.
Proof.
  intros CO i e s.
  assert (H1 : reachesReplicaCount (CO := CO) i s).
  { exists boundReference. repeat split; vm_compute; reflexivity. }
  assert (H2 : ListPods (Collaborators := CO) (intNamespace (integration s))
                 (intName (integration s)) PodPending = inl e
               \/ (exists pendingPods,
                     ListPods (Collaborators := CO)
                       (intNamespace (integration s))
                       (intName (integration s)) PodPending = inr pendingPods
                     /\ ListPods (Collaborators := CO)
                          (intNamespace (integration s))
                          (intName (integration s)) PodRunning = inl e))
    by (left; reflexivity).
  repeat (split; [assumption|]).
  exact (Handle_pod_list_failure (CO := CO) i s e H1 H2).
Defined.

(** A pass over [crashing] reports the error; checking the workload it
    returns once more reports nothing new. *)
Lemma Handle_check_settles_witness :
  let i := workload IntegrationPhaseDeploying [] in
  let s :=
    snd (mirrorReadiness (CO := crashing)
           (snd (syncStatus (CO := crashing) boundReference
                   {| integration := i;
                      trace := [EvComputeForIntegration] |}))) in
  let s' := snd (run (Handle (CO := crashing)) i) in
  let updated := integration s' in
  reachesDeploymentCheck (CO := crashing) i s
  /\ run (Handle (CO := crashing)) i = (inr updated, s')
  /\ stPhase (intStatus updated) = IntegrationPhaseError
  /\ fst (checkDeployment (CO := crashing) s') = inr updated.
Proof.
  intros i s s' updated.
  assert (H1 : reachesDeploymentCheck (CO := crashing) i s).
  { eexists. split; [exists boundReference; repeat split|]; reflexivity. }
  assert (H2 : run (Handle (CO := crashing)) i = (inr updated, s'))
    by (vm_compute; reflexivity).
  assert (H3 : stPhase (intStatus updated) = IntegrationPhaseError)
    by (vm_compute; reflexivity).
  repeat (split; [assumption|]).
  exact (Handle_check_settles (CO := crashing) i updated s s' H1 H2).
Defined.
